(** * CUBETAGEDIT: the tag facade, the cover-art codecs and the session
      state machine of [tag_editor.py]

    The Python classes [TagIO], [FileBrowser] and [Tui] are embedded as
    modules of the same names.  A method that mutates [self] or the files is
    a computation in a state-and-exception monad, so that [try]/[except] and
    early [return]s keep the shape they have in the source.  The tagging
    library the program drives (mutagen) and the operating system are not
    part of the repository: their behaviour is a parameter, the record
    [Library], and every statement is proved for all libraries unless it
    names one. *)

From stdpp Require Import gmap strings list pretty.
From Stdlib Require Import ZArith Ascii String Sorted Permutation.

Local Open Scope string_scope.

(** ** Python results: a value or a raised exception *)

Inductive exc (A : Type) : Type :=
| Ok (a : A)
| Raise (msg : string).
Arguments Ok {A} a.
Arguments Raise {A} msg.

(** [M S A]: a method body over the mutable state [S].  A raised exception
    keeps the state reached so far, as in Python. *)
Definition M (S A : Type) : Type := S -> exc A * S.

Definition ret {S A} (a : A) : M S A := fun s => (Ok a, s).

Definition bind {S A B} (m : M S A) (k : A -> M S B) : M S B :=
  fun s => match m s with
           | (Ok a, s') => k a s'
           | (Raise e, s') => (Raise e, s')
           end.

Definition raise {S A} (e : string) : M S A := fun s => (Raise e, s).

(** [try: m  except Exception as e: handler e] *)
Definition try_except {S A} (m : M S A) (handler : string -> M S A) : M S A :=
  fun s => match m s with
           | (Ok a, s') => (Ok a, s')
           | (Raise e, s') => handler e s'
           end.

Definition get_state {S} : M S S := fun s => (Ok s, s).
Definition put_state {S} (s : S) : M S unit := fun _ => (Ok tt, s).

Notation "x <- m ;; k" := (bind m (fun x => k))
  (at level 100, m at next level, right associativity).
Notation "m ;;; k" := (bind m (fun _ => k))
  (at level 100, right associativity).

(** ** Strings *)

Definition lower_ascii (c : ascii) : ascii :=
  let n := nat_of_ascii c in
  if (65 <=? n)%nat && (n <=? 90)%nat then ascii_of_nat (n + 32) else c.

(** [str.lower()] on ASCII text.  A string is its bytes here; [lower] folds
    the letters [A] to [Z] and leaves every other byte, which is what
    [str.lower()] does to a string of ASCII characters.  Python also folds
    capital letters outside ASCII, so a statement about the lower-cased form
    of arbitrary names assumes [isascii] of them. *)
Fixpoint lower (s : string) : string :=
  match s with
  | EmptyString => EmptyString
  | String c s' => String (lower_ascii c) (lower s')
  end.

(** [str.isascii()] *)
Fixpoint isascii (s : string) : bool :=
  match s with
  | EmptyString => true
  | String c s' => (nat_of_ascii c <? 128)%nat && isascii s'
  end.

Fixpoint is_prefix (pre s : string) : bool :=
  match pre with
  | EmptyString => true
  | String a pre' =>
      match s with
      | EmptyString => false
      | String b s' => Ascii.eqb a b && is_prefix pre' s'
      end
  end.

Definition startswith (s pre : string) : bool := is_prefix pre s.

Definition endswith (s suf : string) : bool :=
  is_prefix (String.rev suf) (String.rev s).

Fixpoint lstrip_char (c : ascii) (s : string) : string :=
  match s with
  | EmptyString => EmptyString
  | String a s' => if Ascii.eqb a c then lstrip_char c s' else s
  end.

(** [s.rstrip(c)] for a single character [c]. *)
Definition rstrip_char (c : ascii) (s : string) : string :=
  String.rev (lstrip_char c (String.rev s)).

Fixpoint rfind_from (c : ascii) (s : string) (i : nat) (acc : option nat)
  : option nat :=
  match s with
  | EmptyString => acc
  | String a s' => rfind_from c s' (S i) (if Ascii.eqb a c then Some i else acc)
  end.

(** [s.rfind(c)], [None] for Python's [-1]. *)
Definition rfind (c : ascii) (s : string) : option nat := rfind_from c s 0 None.

Definition str_drop (n : nat) (s : string) : string :=
  substring n (String.length s - n) s.

Definition str_take (n : nat) (s : string) : string := substring 0 n s.

Fixpoint str_exists (p : ascii -> bool) (s : string) : bool :=
  match s with
  | EmptyString => false
  | String a s' => p a || str_exists p s'
  end.

(** [os.path.basename(p)] *)
Definition basename (p : string) : string :=
  match rfind "/" p with
  | Some i => str_drop (S i) p
  | None => p
  end.

(** [os.path.splitext(p)[1]]: the text from the last dot of the last path
    component, unless only dots precede it in that component. *)
Definition splitext_ext (p : string) : string :=
  let name := basename p in
  match rfind "." name with
  | Some i =>
      if str_exists (fun a => negb (Ascii.eqb a ".")) (str_take i name)
      then str_drop i name
      else EmptyString
  | None => EmptyString
  end.

(** ** Values held by a tag mapping *)

Inductive scalar : Type :=
| SStr (s : string)
| SInt (z : Z).

Inductive pyval : Type :=
| PNone
| PList (l : list scalar)
| PScalar (x : scalar).

(** [str(x)] *)
Definition str (x : scalar) : string :=
  match x with
  | SStr s => s
  | SInt z => pretty z
  end.

Definition human_join (values : list string) : string :=
  String.concat ", " (filter (fun v => v <> "") values).

Definition normalize_value (v : pyval) : list string :=
  match v with
  | PNone => []
  | PList l => str <$> l
  | PScalar x => [str x]
  end.

Definition DEFAULT_FIELDS : list (string * string) :=
  [ ("title", "Title");
    ("artist", "Artist");
    ("album", "Album");
    ("albumartist", "Album Artist");
    ("tracknumber", "Track");
    ("discnumber", "Disc");
    ("date", "Year");
    ("genre", "Genre");
    ("comment", "Comment") ].

(** ** The objects the tagging library hands out *)

(** The files: path to content. *)
Abbreviation Disk := (gmap string (list Byte.byte)).

(** The object [MutagenFile(path, easy=True)] returns: its class name and the
    text-tag mapping it exposes. *)
Record Easy : Type := mkEasy {
  easy_class : string;
  easy_tags : gmap string pyval
}.

(** A picture block ([mutagen.flac.Picture]). *)
Record Picture : Type := mkPicture {
  pic_type : Z;
  pic_mime : string;
  pic_desc : string;
  pic_data : list Byte.byte
}.

(** [MP4Cover(data, imageformat)] *)
Record MP4Cover : Type := mkMP4Cover {
  cover_data : list Byte.byte;
  imageformat : Z
}.

Definition FORMAT_JPEG : Z := 13.
Definition FORMAT_PNG : Z := 14.

(** An ID3 frame: a picture frame or any other one. *)
Inductive Frame : Type :=
| APIC (encoding : Z) (mime : string) (type : Z) (desc : string)
       (data : list Byte.byte)
| OtherFrame (text : list string).

(** An [ID3] tag: frames by hash key, in insertion order. *)
Abbreviation ID3 := (list (string * Frame)).

(** A value of an MP4 atom: covers under [covr], text elsewhere. *)
Inductive mp4value : Type :=
| MCovers (l : list MP4Cover)
| MText (l : list string).

(** The object [MutagenFile(path)] returns, by the classes the facade tests
    with [isinstance]; [tags] is [None] where the file has no tag block.
    The library compares comment keys without regard to case: a comment
    mapping holds them lower-cased.  [RTagged] is every other file type: all
    of them have a [tags] attribute, which holds [Some id3] when it is an
    [ID3] instance. *)
Inductive Raw : Type :=
| RFLAC (pictures : list Picture) (comments : gmap string (list string))
| RMP4 (tags : option (gmap string mp4value))
| ROgg (opus : bool) (tags : option (gmap string (list string)))
| RTagged (id3 : option ID3).

Inductive id3_loaded : Type :=
| ID3Loaded (id3 : ID3)
| ID3NoHeaderError
| ID3Error (msg : string).

(** What the program cannot decide by itself.  A write returns the files as
    it leaves them and the exception it raised, if any. *)
Record Library : Type := mkLibrary {
  (** [MutagenFile is not None]: the import succeeded *)
  available : bool;
  MutagenFile_easy : string -> Disk -> exc (option Easy);
  MutagenFile : string -> Disk -> exc (option Raw);
  (** the truth value Python gives the object in [if not self.audio] *)
  truth : Easy -> bool;
  (** an exception other than [KeyError] raised by [audio[key]] *)
  getitem_error : Easy -> string -> option string;
  (** the exception raised by [audio[key] = values] *)
  setitem_error : Easy -> string -> list string -> option string;
  (** what [audio[key]] holds once [audio[key] = values] has gone through:
      the easy views rewrite some values on the way (an ID3 genre number is
      kept as the genre's name, an MP4 track number loses its leading
      zeros), comment blocks keep the text as it is *)
  stored : Easy -> string -> list string -> pyval;
  (** the exception raised by [del audio[key]] for a key that is present *)
  delitem_error : Easy -> string -> option string;
  easy_save : string -> Easy -> Disk ->
              Disk * option string;
  raw_save : string -> Raw -> Disk ->
             Disk * option string;
  (** [ID3(path)] *)
  id3_load : string -> Disk -> id3_loaded;
  (** [id3.save(path)] *)
  id3_save : string -> ID3 -> Disk ->
             Disk * option string;
  (** [Picture.write()] *)
  picture_write : Picture -> list Byte.byte;
  (** [base64.b64encode(b).decode('ascii')] *)
  b64encode : list Byte.byte -> string;
  (** [base64.b64decode(s)], [None] when it raises *)
  b64decode : string -> option (list Byte.byte);
  (** the extension table of [mimetypes] *)
  types_map : list (string * string)
}.

(** ** class TagIO *)

Module TagIO.

Record t : Type := mk {
  path : string;
  audio : option Easy;
  raw : option Raw;
  format_name : string;
  readonly : bool
}.

(** The state a method runs in: the object and the files. *)
Record World : Type := mkWorld {
  self : t;
  disk : Disk
}.

Definition set_audio (a : Easy) (w : World) : World :=
  mkWorld (mk (path (self w)) (Some a) (raw (self w))
              (format_name (self w)) (readonly (self w)))
          (disk w).

Definition set_raw (r : Raw) (w : World) : World :=
  mkWorld (mk (path (self w)) (audio (self w)) (Some r)
              (format_name (self w)) (readonly (self w)))
          (disk w).

Definition set_disk (d : Disk) (w : World) : World :=
  mkWorld (self w) d.

Section Methods.
Context (lib : Library).

(** Python's [bool(self.audio)] *)
Definition truthy (a : option Easy) : bool :=
  match a with
  | None => false
  | Some e => truth lib e
  end.

(** [TagIO(path)] *)
Definition init (p : string) (d : Disk) : exc t :=
  if negb (available lib)
  then Raise "mutagen is not installed. Please install requirements.txt"
  else
    match MutagenFile_easy lib p d with
    | Raise e => Raise e
    | Ok a =>
        match MutagenFile lib p d with
        | Raise e => Raise e
        | Ok r =>
            Ok (mk p a r
                   (match a with
                    | Some e => if truth lib e then easy_class e else "Unknown"
                    | None => "Unknown"
                    end)
                   false)
        end
    end.

Definition is_supported (io : t) : bool :=
  match audio io with
  | Some _ => true
  | None => false
  end.

(** [self.audio[key]] *)
Definition getitem (a : Easy) (key : string) : exc (option pyval) :=
  match getitem_error lib a key with
  | Some e => Raise e
  | None => Ok (easy_tags a !! key)
  end.

(** [self.audio.get(key)]: a [KeyError] becomes the default [None]. *)
Definition audio_get (a : Easy) (key : string) : M World pyval :=
  match getitem a key with
  | Raise e => raise e
  | Ok v => ret (default PNone v)
  end.

(** [key in self.audio]: the mapping tries [self[key]]. *)
Definition audio_contains (a : Easy) (key : string) : M World bool :=
  match getitem a key with
  | Raise e => raise e
  | Ok v => ret (bool_decide (is_Some v))
  end.

(** [del self.audio[key]] *)
Definition audio_delitem (a : Easy) (key : string) : M World unit :=
  match delitem_error lib a key with
  | Some e => raise e
  | None => fun w => (Ok tt, set_audio (mkEasy (easy_class a) (delete key (easy_tags a))) w)
  end.

(** [self.audio[key] = values] *)
Definition audio_setitem (a : Easy) (key : string) (values : list string)
  : M World unit :=
  match setitem_error lib a key values with
  | Some e => raise e
  | None => fun w =>
      (Ok tt, set_audio (mkEasy (easy_class a)
                                (<[key := stored lib a key values]> (easy_tags a))) w)
  end.

Definition get (key : string) : M World (list string) :=
  w <- get_state ;;
  match audio (self w) with
  | Some a =>
      if negb (truth lib a) then ret []
      else
        v <- try_except (audio_get a key) (fun _ => ret PNone) ;;
        ret (normalize_value v)
  | None => ret []
  end.

Definition set (key value : string) : M World unit :=
  w <- get_state ;;
  match audio (self w) with
  | Some a =>
      if negb (truth lib a) then ret tt
      else
        try_except
          (if String.eqb value ""
           then
             present <- audio_contains a key ;;
             if (present : bool) then audio_delitem a key else ret tt
           else audio_setitem a key [value])
          (fun _ => ret tt)
  | None => ret tt
  end.

(** A library write: the files change as the library left them, and its
    exception, if any, is raised. *)
Definition write (f : Disk ->
                      Disk * option string)
  : M World unit :=
  fun w =>
    let '(d, e) := f (disk w) in
    (match e with
     | None => Ok tt
     | Some msg => Raise msg
     end, set_disk d w).

(** The two [MutagenFile] calls of [__init__] build two objects, so
    [self.raw is not self.audio] holds whenever [self.raw] is not [None]. *)
Definition save : M World (bool * option string) :=
  w <- get_state ;;
  match audio (self w) with
  | Some a =>
      if negb (truth lib a) then ret (false, Some "Unsupported file format")
      else
        try_except
          ((match raw (self w) with
            | Some r =>
                try_except (write (raw_save lib (path (self w)) r))
                           (fun _ => ret tt)
            | None => ret tt
            end) ;;;
           write (easy_save lib (path (self w)) a) ;;;
           ret (true, None))
          (fun e => ret (false, Some e))
  | None => ret (false, Some "Unsupported file format")
  end.

(** *** Cover art helpers *)

(** [d.get(key)] on a frame mapping kept in insertion order. *)
Fixpoint frames_get (key : string) (id3 : ID3) : option Frame :=
  match id3 with
  | [] => None
  | (k, f) :: rest => if String.eqb k key then Some f else frames_get key rest
  end.

(** [id3.getall(key)]: the frame under exactly [key], else every frame whose
    hash key starts with [key + ":"]. *)
Definition getall (key : string) (id3 : ID3) : list Frame :=
  match frames_get key id3 with
  | Some f => [f]
  | None => snd <$> List.filter (fun kf => startswith (fst kf) (key +:+ ":")) id3
  end.

(** [for k in list(id3.keys()): if k.startswith('APIC'): del id3[k]] *)
Definition del_apics (id3 : ID3) : ID3 :=
  List.filter (fun kf => negb (startswith (fst kf) "APIC")) id3.

(** [x or 'image/*'] *)
Definition mime_or_any (m : string) : string :=
  if String.eqb m "" then "image/*" else m.

Definition bytes_suffix (n : nat) : string := " (" +:+ pretty n +:+ " bytes)".

Definition get_cover_info (io : t) : option string :=
  match raw io with
  | Some (RFLAC pics _) =>
      match pics with
      | p :: _ =>
          Some ("FLAC picture: " +:+ mime_or_any (pic_mime p)
                +:+ bytes_suffix (List.length (pic_data p)))
      | [] => None
      end
  | Some (RMP4 tags) =>
      match tags with
      | Some m =>
          match m !! "covr" with
          | Some (MCovers (c :: _)) =>
              Some ("MP4 cover: image/"
                    +:+ (if Z.eqb (imageformat c) FORMAT_JPEG then "jpeg" else "png")
                    +:+ bytes_suffix (List.length (cover_data c)))
          | _ => None
          end
      | None => None
      end
  | Some (ROgg _ tags) =>
      match tags with
      | Some m =>
          match m !! "metadata_block_picture" with
          | Some (x :: _) =>
              match b64decode lib x with
              | Some b => Some ("Vorbis/Opus picture:" +:+ bytes_suffix (List.length b))
              | None => Some "Vorbis/Opus picture: (unreadable)"
              end
          | _ =>
              match m !! "coverart" with
              | Some (x :: _) =>
                  match b64decode lib x with
                  | Some b =>
                      match default ["image/jpeg"] (m !! "coverartmime") with
                      | mime :: _ =>
                          Some ("Vorbis/Opus coverart: " +:+ mime
                                +:+ bytes_suffix (List.length b))
                      | [] => Some "Vorbis/Opus coverart present"
                      end
                  | None => Some "Vorbis/Opus coverart present"
                  end
              | _ => None
              end
          end
      | None => None
      end
  | Some (RTagged (Some id3)) =>
      match getall "APIC" id3 with
      | APIC _ mime _ _ data :: _ =>
          Some ("ID3 APIC: " +:+ mime_or_any mime +:+ bytes_suffix (List.length data))
      | _ => None
      end
  | Some (RTagged None) => None
  | None => None
  end.

Definition has_cover (io : t) : bool :=
  bool_decide (is_Some (get_cover_info io)).

(** Mutate [self.raw], then [self.raw.save()]. *)
Definition raw_store (r : Raw) : M World unit :=
  fun w => (Ok tt, set_raw r w).

Definition raw_write (r : Raw) : M World unit :=
  w <- get_state ;;
  write (raw_save lib (path (self w)) r).

Definition clear_cover : M World (bool * option string) :=
  w <- get_state ;;
  try_except
    (match raw (self w) with
     | Some (RFLAC _ comments) =>
         let r := RFLAC [] comments in
         raw_store r ;;; raw_write r ;;; ret (true, None)
     | Some (RMP4 tags) =>
         let r := RMP4 (Some (<["covr" := MCovers []]> (default ∅ tags))) in
         raw_store r ;;; raw_write r ;;; ret (true, None)
     | Some (ROgg opus tags) =>
         match tags with
         | None => ret (true, None)
         | Some m =>
             let r := ROgg opus
                        (Some (delete "coverartmime"
                                 (delete "coverart"
                                    (delete "metadata_block_picture" m)))) in
             raw_store r ;;; raw_write r ;;; ret (true, None)
         end
     | Some (RTagged _) =>
         match id3_load lib (path (self w)) (disk w) with
         | ID3NoHeaderError => ret (true, None)
         | ID3Error e => raise e
         | ID3Loaded id3 =>
             write (id3_save lib (path (self w)) (del_apics id3)) ;;;
             ret (true, None)
         end
     | None => ret (false, Some "Unsupported format for cover removal")
     end)
    (fun e => ret (false, Some e)).

(** [open(image_path, 'rb').read()] *)
Definition read_image (image_path : string) : M World (list Byte.byte) :=
  w <- get_state ;;
  match disk w !! image_path with
  | Some data => ret data
  | None => raise ("[Errno 2] No such file or directory: '" +:+ image_path +:+ "'")
  end.

(** Modelled from the spec: [mimetypes.guess_type] belongs to the Python
    library; the specification describes it as a fixed extension table that
    is looked up case-insensitively on the extension. *)
Fixpoint table_get (key : string) (table : list (string * string))
  : option string :=
  match table with
  | [] => None
  | (k, v) :: rest => if String.eqb k key then Some v else table_get key rest
  end.

Definition guess_type (image_path : string) : option string :=
  table_get (lower (splitext_ext image_path)) (types_map lib).

(** The MIME type [set_cover] settles on: the guess, unless it is missing,
    empty or not an image type. *)
Definition cover_mime (image_path : string) : string :=
  match guess_type image_path with
  | Some mime =>
      if String.eqb mime "" || negb (startswith mime "image/")
      then "image/jpeg"
      else mime
  | None => "image/jpeg"
  end.

Definition front_cover (mime : string) (data : list Byte.byte) : Picture :=
  mkPicture 3 mime "cover" data.

(** The frames [set_cover] saves: the picture frames removed, one added. *)
Definition with_front_cover (id3 : ID3) (mime : string) (data : list Byte.byte)
  : ID3 :=
  del_apics id3 ++ [("APIC:cover", APIC 3 mime 3 "cover" data)].

(** The [else] branch of [set_cover]: [Some] when it returned, [None] when
    its exception was swallowed. *)
Definition set_cover_id3 (mime : string) (data : list Byte.byte)
  : M World (option (bool * option string)) :=
  w <- get_state ;;
  try_except
    (id3 <- match id3_load lib (path (self w)) (disk w) with
            | ID3Loaded id3 => ret id3
            | ID3NoHeaderError => ret []
            | ID3Error e => raise e
            end ;;
     write (id3_save lib (path (self w)) (with_front_cover id3 mime data)) ;;;
     ret (Some (true, None)))
    (fun _ => ret None).

Definition set_cover (image_path : string) : M World (bool * option string) :=
  try_except
    (data <- read_image image_path ;;
     let mime := cover_mime image_path in
     w <- get_state ;;
     match raw (self w) with
     | Some (RFLAC _ comments) =>
         let r := RFLAC [front_cover mime data] comments in
         raw_store r ;;; raw_write r ;;; ret (true, None)
     | Some (RMP4 tags) =>
         let fmt := if String.eqb mime "image/png" then FORMAT_PNG else FORMAT_JPEG in
         let r := RMP4 (Some (<["covr" := MCovers [mkMP4Cover data fmt]]>
                                (default ∅ tags))) in
         raw_store r ;;; raw_write r ;;; ret (true, None)
     | Some (ROgg opus tags) =>
         let b64 := b64encode lib (picture_write lib (front_cover mime data)) in
         let r := ROgg opus
                    (Some (<["metadata_block_picture" := [b64]]>
                             (delete "coverartmime"
                                (delete "coverart" (default ∅ tags))))) in
         raw_store r ;;; raw_write r ;;; ret (true, None)
     | _ =>
         res <- set_cover_id3 mime data ;;
         match res with
         | Some r => ret r
         | None => ret (false, Some "Unsupported format for cover setting")
         end
     end)
    (fun e => ret (false, Some e)).

End Methods.

(** The text tags a handle holds in memory; none without a tag object. *)
Definition tags_of (w : World) : gmap string pyval :=
  match audio (self w) with
  | Some a => easy_tags a
  | None => ∅
  end.

(** The raw object as [clear_cover] leaves it in memory. *)
Definition cleared (r : Raw) : Raw :=
  match r with
  | RFLAC _ comments => RFLAC [] comments
  | RMP4 tags => RMP4 (Some (<["covr" := MCovers []]> (default ∅ tags)))
  | ROgg opus None => ROgg opus None
  | ROgg opus (Some m) =>
      ROgg opus (Some (delete "coverartmime"
                         (delete "coverart" (delete "metadata_block_picture" m))))
  | RTagged id3 => RTagged id3
  end.

(** The comment block of an Ogg file as [set_cover] leaves it in memory. *)
Definition with_picture_comment (b64 : string)
  (tags : option (gmap string (list string))) : gmap string (list string) :=
  <["metadata_block_picture" := [b64]]>
    (delete "coverartmime" (delete "coverart" (default ∅ tags))).

(** The frames the fallback of [set_cover] starts from: those of the file,
    none when it has no ID3 header; [None] when loading raised. *)
Definition loaded_frames (l : id3_loaded) : option ID3 :=
  match l with
  | ID3Loaded id3 => Some id3
  | ID3NoHeaderError => Some []
  | ID3Error _ => None
  end.

(** How a cover operation reports the outcome of its write. *)
Definition report (e : option string) : bool * option string :=
  match e with
  | None => (true, None)
  | Some msg => (false, Some msg)
  end.


(** The files once [save] has attempted the raw view's save. *)
Definition after_raw_save (lib : Library) (w : World) : Disk :=
  match raw (self w) with
  | Some r => fst (raw_save lib (path (self w)) r (disk w))
  | None => disk w
  end.

(** A caller's mutating calls and what each gives back. *)
Inductive call : Type :=
| SetField (key value : string)
| Save.

Inductive reply : Type :=
| SetReturned
| SaveReturned (ok : bool) (err : option string)
| Raised (msg : string).

Definition perform (lib : Library) (c : call) (w : World) : reply * World :=
  match c with
  | SetField key value =>
      match set lib key value w with
      | (Ok _, w') => (SetReturned, w')
      | (Raise e, w') => (Raised e, w')
      end
  | Save =>
      match save lib w with
      | (Ok (ok, err), w') => (SaveReturned ok err, w')
      | (Raise e, w') => (Raised e, w')
      end
  end.

Fixpoint perform_all (lib : Library) (cs : list call) (w : World)
  : list reply * World :=
  match cs with
  | [] => ([], w)
  | c :: rest =>
      let '(r, w1) := perform lib c w in
      let '(rs, w2) := perform_all lib rest w1 in
      (r :: rs, w2)
  end.

(** What an unsupported handle answers. *)
Definition unsupported_reply (c : call) : reply :=
  match c with
  | SetField _ _ => SetReturned
  | Save => SaveReturned false (Some "Unsupported file format")
  end.

End TagIO.

(** A class of tag objects that behave as a plain mapping on the keys
    [keys]: an object that holds at least one key is true, and lookups,
    assignments and deletions of those keys raise nothing (comment blocks
    are such a class for the catalog; the easy view of an MP3, which refuses
    [comment], is not). *)
Definition plain_mapping (lib : Library) (cls : string) (keys : list string)
  : Prop :=
  forall x, easy_class x = cls ->
    (easy_tags x <> ∅ -> truth lib x = true) /\
    (forall k, k ∈ keys ->
       getitem_error lib x k = None /\
       (forall vs, setitem_error lib x k vs = None) /\
       delitem_error lib x k = None).

(** ** class FileBrowser *)

Definition SUPPORTED_EXTS : gset string :=
  {[ ".mp3"; ".flac"; ".ogg"; ".oga"; ".opus"; ".m4a"; ".mp4"; ".aac";
     ".wav"; ".aiff"; ".aif" ]}.

Definition IMAGE_EXTS : gset string :=
  {[ ".jpg"; ".jpeg"; ".png"; ".webp"; ".bmp" ]}.

(** The result of [os.listdir]. *)
Inductive listing : Type :=
| Listed (names : list string)
| FileNotFoundError
| OSError (msg : string).

(** The directory tree as the browser sees it at one moment. *)
Record FileSystem : Type := mkFileSystem {
  listdir : string -> listing;
  isdir : string -> bool;
  abspath : string -> string;
  dirname : string -> string
}.

(** [os.path.join(a, b)] *)
Definition path_join (a b : string) : string :=
  if startswith b "/" then b
  else if String.eqb a "" || endswith a "/" then a +:+ b
  else a +:+ "/" +:+ b.

(** [l[i]] with Python's negative indices; [None] is [IndexError]. *)
Definition py_index {A} (l : list A) (i : Z) : option A :=
  let n := Z.of_nat (List.length l) in
  if (0 <=? i)%Z && (i <? n)%Z then l !! Z.to_nat i
  else if (- n <=? i)%Z && (i <? 0)%Z then l !! Z.to_nat (n + i)
  else None.

(** [l.index(x)] *)
Fixpoint list_index (x : string) (l : list string) : option nat :=
  match l with
  | [] => None
  | y :: rest => if String.eqb y x then Some 0%nat else S <$> list_index x rest
  end.

(** The sort key [(not n.endswith("/"), n.lower())], compared as tuples. *)
Definition key_le (a b : string) : bool :=
  match endswith a "/", endswith b "/" with
  | true, false => true
  | false, true => false
  | _, _ => String.leb (lower a) (lower b)
  end.

Fixpoint insert_sorted (x : string) (l : list string) : list string :=
  match l with
  | [] => [x]
  | y :: rest => if key_le x y then x :: l else y :: insert_sorted x rest
  end.

(** [items.sort(key=...)]: a stable sort. *)
Fixpoint sort_items (l : list string) : list string :=
  match l with
  | [] => []
  | x :: rest => insert_sorted x (sort_items rest)
  end.

Module FileBrowser.

Record t : Type := mk {
  root : string;
  entries : list string;
  selection : Z;
  exts : gset string
}.

Section Methods.
Context (fs : FileSystem).

(** The loop body of [refresh] over the names [os.listdir] gave. *)
Fixpoint collect (dir : string) (allowed : gset string) (names : list string)
  : list string :=
  match names with
  | [] => []
  | name :: rest =>
      if isdir fs (path_join dir name)
      then (name +:+ "/") :: collect dir allowed rest
      else if bool_decide (lower (splitext_ext name) ∈ allowed)
           then name :: collect dir allowed rest
           else collect dir allowed rest
  end.

Definition clamp (sel : Z) (n : nat) : Z :=
  if (Z.of_nat n <=? sel)%Z then Z.max 0 (Z.of_nat n - 1) else sel.

(** Only [FileNotFoundError] is caught; any other error of [os.listdir]
    leaves the method before anything is assigned. *)
Definition refresh : M t unit :=
  fun b =>
    match listdir fs (root b) with
    | OSError e => (Raise e, b)
    | found =>
        let items := sort_items
                       (match found with
                        | Listed names => collect (root b) (exts b) names
                        | _ => []
                        end) in
        (Ok tt, mk (root b) items (clamp (selection b) (List.length items)) (exts b))
    end.

(** [FileBrowser(root, exts)]: the object as [__init__] leaves it, also when
    its [refresh] raises. *)
Definition init (start : string) (allowed : option (gset string)) : exc unit * t :=
  refresh (mk (abspath fs start) [] 0
              (match allowed with
               | Some s => if bool_decide (s = ∅) then SUPPORTED_EXTS else s
               | None => SUPPORTED_EXTS
               end)).

Definition set_root (r : string) : M t unit :=
  fun b => (Ok tt, mk r (entries b) (selection b) (exts b)).

Definition set_selection (i : Z) : M t unit :=
  fun b => (Ok tt, mk (root b) (entries b) i (exts b)).

Definition enter : M t (option string) :=
  b <- get_state ;;
  match entries b with
  | [] => ret None
  | _ =>
      match py_index (entries b) (selection b) with
      | None => raise "list index out of range"
      | Some name =>
          let p := path_join (root b) (rstrip_char "/" name) in
          if endswith name "/"
          then set_root (abspath fs p) ;;; set_selection 0 ;;; refresh ;;; ret None
          else ret (Some p)
      end
  end.

Definition up : M t unit :=
  b <- get_state ;;
  set_selection ((selection b - 1) `mod` Z.max 1 (Z.of_nat (List.length (entries b)))).

Definition down : M t unit :=
  b <- get_state ;;
  set_selection ((selection b + 1) `mod` Z.max 1 (Z.of_nat (List.length (entries b)))).

Definition parent : M t unit :=
  b <- get_state ;;
  let p := dirname fs (root b) in
  if negb (String.eqb p "") && negb (String.eqb p (root b))
  then set_root p ;;; set_selection 0 ;;; refresh
  else ret tt.

End Methods.

(** The selection points into the list, or is 0 when there is nothing to
    point at. *)
Definition in_range (b : t) : Prop :=
  (entries b = [] -> selection b = 0%Z) /\
  (entries b <> [] ->
   (0 <= selection b < Z.of_nat (List.length (entries b)))%Z).

End FileBrowser.

(** ** class Tui: the parts that change the record being edited *)

(** What the text prompt reads: the keys [prompt_input] tells apart. *)
Inductive key : Type :=
| KEnter      (* KEY_ENTER, 10, 13, "\n", "\r" *)
| KEsc        (* 27, "\x1b" *)
| KLeft
| KRight
| KBackspace  (* KEY_BACKSPACE, 127, 8, "\x7f", "\b" *)
| KDelete     (* KEY_DC *)
| KHome
| KEnd
| KChar (c : ascii) (printable : bool)
| KIgnored.   (* any other code, or curses.error from get_wch *)

Fixpoint list_insert_at {A} (pos : nat) (x : A) (l : list A) : list A :=
  match pos, l with
  | O, _ => x :: l
  | S p, [] => [x]
  | S p, y :: rest => y :: list_insert_at p x rest
  end.

Fixpoint list_pop {A} (pos : nat) (l : list A) : list A :=
  match pos, l with
  | _, [] => []
  | O, _ :: rest => rest
  | S p, y :: rest => y :: list_pop p rest
  end.

Module Tui.

Record t : Type := mk {
  browser : FileBrowser.t;
  current_path : option string;
  tags : gmap string string;
  cursor_field : Z;
  status_msg : string;
  dirty : bool;
  focus : string;
  last_error : option string;
  cover_info : option string
}.

(** The key loop of [prompt_input] on the keys typed: [None] while it is
    still waiting, else what it returned and the keys left over. *)
Fixpoint prompt_loop (buffer : list ascii) (pos : nat) (keys : list key)
  : option (option string * list key) :=
  match keys with
  | [] => None
  | k :: rest =>
      match k with
      | KEnter => Some (Some (string_of_list_ascii buffer), rest)
      | KEsc => Some (None, rest)
      | KLeft => prompt_loop buffer (if (0 <? pos)%nat then pos - 1 else pos) rest
      | KRight =>
          prompt_loop buffer
            (if (pos <? List.length buffer)%nat then pos + 1 else pos) rest
      | KBackspace =>
          if (0 <? pos)%nat
          then prompt_loop (list_pop (pos - 1) buffer) (pos - 1) rest
          else prompt_loop buffer pos rest
      | KDelete =>
          if (pos <? List.length buffer)%nat
          then prompt_loop (list_pop pos buffer) pos rest
          else prompt_loop buffer pos rest
      | KHome => prompt_loop buffer 0 rest
      | KEnd => prompt_loop buffer (List.length buffer) rest
      | KChar c true => prompt_loop (list_insert_at pos c buffer) (pos + 1) rest
      | KChar _ false => prompt_loop buffer pos rest
      | KIgnored => prompt_loop buffer pos rest
      end
  end.

Definition prompt_input (prompt initial : string) (keys : list key)
  : option (option string * list key) :=
  let buffer := list_ascii_of_string initial in
  prompt_loop buffer (List.length buffer) keys.

Definition set_tag (k v : string) (s : t) : t :=
  mk (browser s) (current_path s) (<[k := v]> (tags s)) (cursor_field s)
     (status_msg s) true (focus s) (last_error s) (cover_info s).

(** [edit_field(idx)] on the keys typed into its prompt: the state it leaves
    and the keys left over; [None] while the prompt is still open. *)
Definition edit_field (idx : Z) (keys : list key) (s : t) : option (t * list key) :=
  if (idx <? 0)%Z || (Z.of_nat (List.length DEFAULT_FIELDS) <=? idx)%Z
  then Some (s, keys)
  else
    match DEFAULT_FIELDS !! Z.to_nat idx with
    | None => Some (s, keys)
    | Some (k, label) =>
        let value := default "" (tags s !! k) in
        match prompt_input (label +:+ ": ") value keys with
        | None => None
        | Some (new_val, rest) =>
            match new_val with
            | Some v => if negb (String.eqb v value)
                        then Some (set_tag k v s, rest)
                        else Some (s, rest)
            | None => Some (s, rest)
            end
        end
    end.

(** The browser part of the [o] hotkey, once a file was picked: follow the
    file's directory and select the file. *)
Definition sync_browser (fs : FileSystem) (picked : string) : M FileBrowser.t unit :=
  FileBrowser.set_root (dirname fs picked) ;;;
  FileBrowser.refresh fs ;;;
  b <- get_state ;;
  match list_index (basename picked) (FileBrowser.entries b) with
  | Some i => FileBrowser.set_selection (Z.of_nat i)
  | None => ret tt
  end.

(** [{k: "" for k, _ in DEFAULT_FIELDS}] *)
Definition blank_tags : gmap string string :=
  foldl (fun m kl => <[fst kl := ""]> m) ∅ DEFAULT_FIELDS.

(** The loop of [load_current]: [new_tags[k] = human_join(io.get(k))]. *)
Fixpoint read_fields (lib : Library) (fields : list (string * string))
  (new_tags : gmap string string) : M TagIO.World (gmap string string) :=
  match fields with
  | [] => ret new_tags
  | (k, _) :: rest =>
      values <- TagIO.get lib k ;;
      read_fields lib rest (<[k := human_join values]> new_tags)
  end.

Definition show_blank (s : t) : t :=
  mk (browser s) (current_path s) blank_tags (cursor_field s)
     (status_msg s) (dirty s) (focus s) (last_error s) None.

(** [load_current()], reading the files [d]. *)
Definition load_current (lib : Library) (d : Disk) (s : t) : t :=
  match current_path s with
  | None => show_blank s
  | Some p =>
      match TagIO.init lib p d with
      | Ok io =>
          if negb (TagIO.is_supported io)
          then mk (browser s) (current_path s) blank_tags (cursor_field s)
                  "Unsupported file" (dirty s) (focus s) (last_error s) None
          else
            match read_fields lib DEFAULT_FIELDS ∅ (TagIO.mkWorld io d) with
            | (Ok new_tags, w) =>
                mk (browser s) (current_path s) new_tags (cursor_field s)
                   (status_msg s) false (focus s) None
                   (TagIO.get_cover_info lib (TagIO.self w))
            | (Raise e, _) =>
                mk (browser s) (current_path s) blank_tags (cursor_field s)
                   ("Error: " +:+ e) (dirty s) (focus s) (Some e) None
            end
      | Raise e =>
          mk (browser s) (current_path s) blank_tags (cursor_field s)
             ("Error: " +:+ e) (dirty s) (focus s) (Some e) None
      end
  end.

(** The loop of [save_current]: [io.set(k, self.tags.get(k, ""))]. *)
Fixpoint write_fields (lib : Library) (fields : list (string * string))
  (record : gmap string string) : M TagIO.World unit :=
  match fields with
  | [] => ret tt
  | (k, _) :: rest =>
      TagIO.set lib k (default "" (record !! k)) ;;;
      write_fields lib rest record
  end.

Definition with_status (msg : string) (s : t) : t :=
  mk (browser s) (current_path s) (tags s) (cursor_field s)
     msg (dirty s) (focus s) (last_error s) (cover_info s).

(** [f"{err}"] for an optional string *)
Definition str_opt (o : option string) : string :=
  match o with
  | Some e => e
  | None => "None"
  end.

(** [save_current()]: the session state and the files it leaves. *)
Definition save_current (lib : Library) (s : t) (d : Disk) : t * Disk :=
  match current_path s with
  | None => (s, d)
  | Some p =>
      match TagIO.init lib p d with
      | Ok io =>
          if negb (TagIO.is_supported io)
          then (with_status "Unsupported file" s, d)
          else
            match (write_fields lib DEFAULT_FIELDS (tags s) ;;; TagIO.save lib)
                    (TagIO.mkWorld io d) with
            | (Ok (true, _), w) =>
                (mk (browser s) (current_path s) (tags s) (cursor_field s)
                    "Saved" false (focus s) (last_error s) (cover_info s),
                 TagIO.disk w)
            | (Ok (false, err), w) =>
                (with_status ("Save failed: " +:+ str_opt err) s, TagIO.disk w)
            | (Raise e, w) =>
                (with_status ("Save failed: " +:+ e) s, TagIO.disk w)
            end
      | Raise e => (with_status ("Save failed: " +:+ e) s, d)
      end
  end.

(** *** The event loop

    One keystroke as the terminal delivers it: a function key, which [getch]
    and [get_wch] both return as its code, or a character, which [getch]
    returns as its code point and [get_wch] as a one-character string. *)
Inductive keystroke : Type :=
| Pressed (code : Z)
| Typed (c : ascii).

Definition KEY_DOWN : Z := 258.
Definition KEY_UP : Z := 259.
Definition KEY_LEFT : Z := 260.
Definition KEY_RIGHT : Z := 261.
Definition KEY_HOME : Z := 262.
Definition KEY_BACKSPACE : Z := 263.
Definition KEY_DC : Z := 330.
Definition KEY_ENTER : Z := 343.
Definition KEY_BTAB : Z := 353.
Definition KEY_END : Z := 360.

Definition ord (c : ascii) : Z := Z.of_nat (nat_of_ascii c).

Definition getch (k : keystroke) : Z :=
  match k with
  | Pressed code => code
  | Typed c => ord c
  end.

(** [ch in (a, b, ...)] *)
Definition one_of (ch : Z) (codes : list Z) : bool := existsb (Z.eqb ch) codes.

(** [str.isprintable()] on the code points below 256. *)
Definition isprintable (c : ascii) : bool :=
  let n := nat_of_ascii c in
  ((32 <=? n)%nat && (n <=? 126)%nat)
  || ((161 <=? n)%nat && negb (n =? 173)%nat).

(** What [prompt_input] makes of a keystroke read with [get_wch]. *)
Definition get_wch (k : keystroke) : key :=
  match k with
  | Pressed ch =>
      if one_of ch [KEY_ENTER; 10; 13]%Z then KEnter
      else if (ch =? 27)%Z then KEsc
      else if (ch =? KEY_LEFT)%Z then KLeft
      else if (ch =? KEY_RIGHT)%Z then KRight
      else if one_of ch [KEY_BACKSPACE; 127; 8]%Z then KBackspace
      else if (ch =? KEY_DC)%Z then KDelete
      else if (ch =? KEY_HOME)%Z then KHome
      else if (ch =? KEY_END)%Z then KEnd
      else KIgnored
  | Typed c =>
      if one_of (ord c) [10; 13]%Z then KEnter
      else if (ord c =? 27)%Z then KEsc
      else if one_of (ord c) [127; 8]%Z then KBackspace
      else KChar c (isprintable c)
  end.

(** The keystrokes left once a prompt that read [input] has left [rest]. *)
Definition resume (input : list keystroke) (rest : list key) : list keystroke :=
  drop (List.length input - List.length rest) input.

(** How a modal dialog ends: with a result, with an exception, or still
    open because the input ran out. *)
Inductive modal (A : Type) : Type :=
| Resolved (a : A) (rest : list keystroke)
| Failed (e : string)
| Open.
Arguments Resolved {A} a rest.
Arguments Failed {A} e.
Arguments Open {A}.

(** The key loop of [file_picker] on its own browser. *)
Fixpoint picker_loop (fs : FileSystem) (b : FileBrowser.t) (input : list keystroke)
  : modal (option string) :=
  match input with
  | [] => Open
  | k :: rest =>
      let ch := getch k in
      if (ch =? 27)%Z then Resolved None rest
      else if (ch =? KEY_UP)%Z then picker_loop fs (snd (FileBrowser.up b)) rest
      else if (ch =? KEY_DOWN)%Z then picker_loop fs (snd (FileBrowser.down b)) rest
      else if one_of ch [KEY_BACKSPACE; 127; 8]%Z then
        match FileBrowser.parent fs b with
        | (Ok _, b') => picker_loop fs b' rest
        | (Raise e, _) => Failed e
        end
      else if one_of ch [KEY_ENTER; 10; 13]%Z then
        match FileBrowser.entries b with
        | [] => picker_loop fs b rest
        | _ =>
            match py_index (FileBrowser.entries b) (FileBrowser.selection b) with
            | None => Failed "list index out of range"
            | Some name =>
                if String.eqb name "" then picker_loop fs b rest
                else if endswith name "/" then
                  match FileBrowser.enter fs b with
                  | (Ok _, b') => picker_loop fs b' rest
                  | (Raise e, _) => Failed e
                  end
                else Resolved (Some (path_join (FileBrowser.root b) name)) rest
            end
        end
      else picker_loop fs b rest
  end.

Definition file_picker (fs : FileSystem) (s : t) (allowed : gset string)
  (input : list keystroke) : modal (option string) :=
  match FileBrowser.init fs (FileBrowser.root (browser s)) (Some allowed) with
  | (Ok _, b) => picker_loop fs b input
  | (Raise e, _) => Failed e
  end.

Definition set_browser (b : FileBrowser.t) (s : t) : t :=
  mk b (current_path s) (tags s) (cursor_field s) (status_msg s) (dirty s)
     (focus s) (last_error s) (cover_info s).

Definition set_current_path (p : option string) (s : t) : t :=
  mk (browser s) p (tags s) (cursor_field s) (status_msg s) (dirty s)
     (focus s) (last_error s) (cover_info s).

Definition set_focus (f : string) (s : t) : t :=
  mk (browser s) (current_path s) (tags s) (cursor_field s) (status_msg s)
     (dirty s) f (last_error s) (cover_info s).

Definition set_cursor_field (i : Z) (s : t) : t :=
  mk (browser s) (current_path s) (tags s) i (status_msg s) (dirty s)
     (focus s) (last_error s) (cover_info s).

Definition set_cover_status (msg : string) (info : option string) (s : t) : t :=
  mk (browser s) (current_path s) (tags s) (cursor_field s) msg (dirty s)
     (focus s) (last_error s) info.

(** Python's truth value of an optional path. *)
Definition nonempty (p : option string) : bool :=
  match p with
  | Some x => negb (String.eqb x "")
  | None => false
  end.

(** How one turn of [loop] ends: back at the top of the loop, out of it, with
    an uncaught exception, or inside a dialog that waits for more input. *)
Inductive turn : Type :=
| Continue (s : t) (d : Disk) (rest : list keystroke)
| Break (s : t) (d : Disk) (rest : list keystroke)
| Crash (e : string) (s : t) (d : Disk)
| Blocked.

(** The cover hotkeys: open the file again, run the operation, show its
    outcome and the handle's cover summary. *)
Definition cover_turn (lib : Library) (s : t) (d : Disk) (p : string)
  (op : M TagIO.World (bool * option string)) (done failed : string)
  (rest : list keystroke) : turn :=
  match TagIO.init lib p d with
  | Raise e => Crash e s d
  | Ok io =>
      match op (TagIO.mkWorld io d) with
      | (Ok (ok, err), w) =>
          Continue (set_cover_status
                      (if ok then done else failed +:+ str_opt err)
                      (TagIO.get_cover_info lib (TagIO.self w)) s)
                   (TagIO.disk w) rest
      | (Raise e, w) => Crash e s (TagIO.disk w)
      end
  end.

(** One turn of the [while True] of [loop]: the key [k] was read with
    [getch]; [rest] is what the dialogs it opens read on. *)
Definition turn_of (lib : Library) (fs : FileSystem) (s : t) (d : Disk)
  (k : keystroke) (rest : list keystroke) : turn :=
  let ch := getch k in
  if (ch =? ord "o")%Z then
    match file_picker fs s SUPPORTED_EXTS rest with
    | Open => Blocked
    | Failed e => Crash e s d
    | Resolved picked rest' =>
        if nonempty picked then
          let s1 := set_current_path picked s in
          match sync_browser fs (default "" picked) (browser s1) with
          | (Ok _, b) =>
              Continue (set_focus "tags" (load_current lib d (set_browser b s1)))
                       d rest'
          | (Raise e, b) => Crash e (set_browser b s1) d
          end
        else Continue s d rest'
    end
  else if one_of ch [ord "q"; ord "Q"] then
    if dirty s then
      match prompt_input "Unsaved changes, type 'yes' to quit: " ""
              (get_wch <$> rest) with
      | None => Blocked
      | Some (ans, unread) =>
          if match ans with
             | Some text => String.eqb text "yes"
             | None => false
             end
          then Break s d (resume rest unread)
          else Continue s d (resume rest unread)
      end
    else Break s d rest
  else if one_of ch [ord "h"; ord "?"] then
    match rest with
    | [] => Blocked
    | _ :: rest' => Continue s d rest'
    end
  else if (ch =? KEY_UP)%Z then
    if String.eqb (focus s) "browser"
    then Continue (set_browser (snd (FileBrowser.up (browser s))) s) d rest
    else if String.eqb (focus s) "tags"
    then Continue (set_cursor_field
                     ((cursor_field s - 1) `mod` Z.of_nat (List.length DEFAULT_FIELDS)) s)
                  d rest
    else Continue s d rest
  else if (ch =? KEY_DOWN)%Z then
    if String.eqb (focus s) "browser"
    then Continue (set_browser (snd (FileBrowser.down (browser s))) s) d rest
    else if String.eqb (focus s) "tags"
    then Continue (set_cursor_field
                     ((cursor_field s + 1) `mod` Z.of_nat (List.length DEFAULT_FIELDS)) s)
                  d rest
    else Continue s d rest
  else if one_of ch [KEY_BACKSPACE; 127; 8]%Z then
    if String.eqb (focus s) "browser" then
      match FileBrowser.parent fs (browser s) with
      | (Ok _, b) =>
          Continue (load_current lib d (set_current_path None (set_browser b s)))
                   d rest
      | (Raise e, b) => Crash e (set_browser b s) d
      end
    else Continue s d rest
  else if one_of ch [KEY_ENTER; 10; 13; ord "e"]%Z then
    if String.eqb (focus s) "browser" then
      match FileBrowser.enter fs (browser s) with
      | (Ok path, b) =>
          if nonempty path
          then Continue (set_focus "tags"
                           (load_current lib d
                              (set_current_path path (set_browser b s))))
                        d rest
          else Continue (set_browser b s) d rest
      | (Raise e, b) => Crash e (set_browser b s) d
      end
    else if String.eqb (focus s) "tags" then
      match edit_field (cursor_field s) (get_wch <$> rest) s with
      | None => Blocked
      | Some (s', unread) => Continue s' d (resume rest unread)
      end
    else Continue s d rest
  else if one_of ch [9; KEY_BTAB]%Z then
    if String.eqb (focus s) "browser" then Continue (set_focus "tags" s) d rest
    else if String.eqb (focus s) "tags" then Continue (set_focus "browser" s) d rest
    else Continue s d rest
  else if one_of ch [ord "s"; ord "S"] then
    let '(s', d') := save_current lib s d in Continue s' d' rest
  else if one_of ch [ord "r"; ord "R"] then
    Continue (load_current lib d s) d rest
  else if (ch =? ord "C")%Z then
    if nonempty (current_path s)
    then cover_turn lib s d (default "" (current_path s)) (TagIO.clear_cover lib)
           "Cover cleared" "Cover clear failed: " rest
    else Continue s d rest
  else if (ch =? ord "c")%Z then
    match file_picker fs s IMAGE_EXTS rest with
    | Open => Blocked
    | Failed e => Crash e s d
    | Resolved img rest' =>
        if nonempty img && nonempty (current_path s)
        then cover_turn lib s d (default "" (current_path s))
               (TagIO.set_cover lib (default "" img))
               "Cover set" "Cover set failed: " rest'
        else Continue s d rest'
    end
  else Continue s d rest.

(** [Tui(stdscr, start_path)]: the session as [__init__] leaves it, or the
    exception of the first listing. *)
Definition init (fs : FileSystem) (start_path : string) : exc t :=
  match FileBrowser.init fs start_path (Some SUPPORTED_EXTS) with
  | (Ok _, b) => Ok (mk b None ∅ 0 "Press [h] for help" false "browser" None None)
  | (Raise e, _) => Raise e
  end.

(** What the loop keeps true of the session: the field cursor points at a
    catalog field, the browser's selection is in range, and the focus is one
    of the two panes. *)
Definition well_formed (s : t) : Prop :=
  (0 <= cursor_field s < Z.of_nat (List.length DEFAULT_FIELDS))%Z /\
  FileBrowser.in_range (browser s) /\
  (focus s = "browser" \/ focus s = "tags").

(** The session a turn leaves behind, when it leaves one. *)
Definition session_after (r : turn) : option (t * Disk) :=
  match r with
  | Continue s d _ => Some (s, d)
  | Break s d _ => Some (s, d)
  | Crash _ s d => Some (s, d)
  | Blocked => None
  end.

(** Every entry of a browser is a directory entry or a file with an allowed
    extension. *)
Definition filtered (b : FileBrowser.t) : Prop :=
  forall e, e ∈ FileBrowser.entries b ->
            endswith e "/" = true \/ lower (splitext_ext e) ∈ FileBrowser.exts b.

(** The text [load_current] shows for the field [k] of the handle in [w]. *)
Definition shown (lib : Library) (w : TagIO.World) (k : string) : string :=
  human_join (match fst (TagIO.get lib k w) with
              | Ok values => values
              | Raise _ => []
              end).

(** The tag object the loop of [save_current] leaves when every [set]
    goes through: each field of the record is assigned in turn, or removed
    when blank. *)
Definition pushed (lib : Library) (record : gmap string string)
  (fields : list (string * string)) (a : Easy) : Easy :=
  foldl (fun acc kl =>
           let v := default "" (record !! fst kl) in
           mkEasy (easy_class acc)
             (if String.eqb v "" then delete (fst kl) (easy_tags acc)
              else <[fst kl := stored lib acc (fst kl) [v]]> (easy_tags acc)))
        a fields.

End Tui.

(** The operations that touch a browser, and the browsers a session can
    reach; the directory tree may change between any two of them. *)
Inductive browser_op : Type :=
| OpRefresh
| OpEnter
| OpUp
| OpDown
| OpParent
| OpSync (picked : string).

Definition browser_step (fs : FileSystem) (o : browser_op) (b : FileBrowser.t)
  : FileBrowser.t :=
  match o with
  | OpRefresh => snd (FileBrowser.refresh fs b)
  | OpEnter => snd (FileBrowser.enter fs b)
  | OpUp => snd (FileBrowser.up b)
  | OpDown => snd (FileBrowser.down b)
  | OpParent => snd (FileBrowser.parent fs b)
  | OpSync picked => snd (Tui.sync_browser fs picked b)
  end.

Inductive reachable : FileBrowser.t -> Prop :=
| reach_init fs start allowed :
    reachable (snd (FileBrowser.init fs start allowed))
| reach_step fs o b :
    reachable b -> reachable (browser_step fs o b).

(** ** A concrete library, for running the model

    It recognises no file, so handles on recognised files are built
    directly; a save replaces the file's content by a short marker.  The easy
    view of an MP3 knows the keys [EasyID3] registers, which do not include
    [comment], and gives a genre number back as the genre's name.  An object
    with no tags is false, as a mapping is. *)

Definition marker (s : string) : list Byte.byte := list_byte_of_string s.

Definition easyid3_keys : list string :=
  [ "title"; "artist"; "album"; "albumartist"; "tracknumber"; "discnumber";
    "date"; "genre" ].

Definition sample_types_map : list (string * string) :=
  [ (".jpg", "image/jpeg"); (".jpeg", "image/jpeg"); (".png", "image/png");
    (".webp", "image/webp"); (".bmp", "image/bmp"); (".txt", "text/plain") ].

(** How [EasyID3] gives back a genre: a number of the ID3v1 list as its
    name, any other text as it is. *)
Definition genre_name (v : string) : string :=
  if String.eqb v "0" then "Blues"
  else if String.eqb v "13" then "Pop"
  else if String.eqb v "17" then "Rock"
  else v.

Definition sample_library : Library :=
  {| available := true;
     MutagenFile_easy := fun _ _ => Ok None;
     MutagenFile := fun _ _ => Ok None;
     truth := fun e => negb (bool_decide (easy_tags e = ∅));
     getitem_error := fun _ _ => None;
     setitem_error := fun e k _ =>
       if String.eqb (easy_class e) "EasyMP3"
          && negb (bool_decide (k ∈ easyid3_keys))
       then Some (k +:+ " is not a valid key")
       else None;
     stored := fun e k vs =>
       if String.eqb (easy_class e) "EasyMP3" && String.eqb k "genre"
       then PList (SStr <$> (genre_name <$> vs))
       else PList (SStr <$> vs);
     delitem_error := fun _ _ => None;
     easy_save := fun p _ d => (<[p := marker "easy"]> d, None);
     raw_save := fun p _ d => (<[p := marker "raw"]> d, None);
     id3_load := fun p d =>
       match d !! p with
       | Some _ => ID3NoHeaderError
       | None => ID3Error "No such file or directory"
       end;
     id3_save := fun p _ d => (<[p := marker "ID3"]> d, None);
     picture_write := fun pic => pic_data pic;
     b64encode := string_of_list_byte;
     b64decode := fun s => Some (list_byte_of_string s);
     types_map := sample_types_map |}.

(** The same library on a full disk: the easy view's save raises after the
    raw view was written. *)
Definition full_disk_library : Library :=
  {| available := true;
     MutagenFile_easy := MutagenFile_easy sample_library;
     MutagenFile := MutagenFile sample_library;
     truth := truth sample_library;
     getitem_error := getitem_error sample_library;
     setitem_error := setitem_error sample_library;
     stored := stored sample_library;
     delitem_error := delitem_error sample_library;
     easy_save := fun _ _ d => (d, Some "No space left on device");
     raw_save := raw_save sample_library;
     id3_load := id3_load sample_library;
     id3_save := id3_save sample_library;
     picture_write := picture_write sample_library;
     b64encode := b64encode sample_library;
     b64decode := b64decode sample_library;
     types_map := types_map sample_library |}.

(** A library whose tag objects are always true, accept every key and keep
    the text as it is. *)
Definition plain_library : Library :=
  {| available := true;
     MutagenFile_easy := fun p d =>
       match d !! p with
       | Some _ => Ok (Some (mkEasy "FLAC" {[ "title" := PList [SStr "Song"];
                                              "mood" := PList [SStr "calm"] ]}))
       | None => Raise "No such file or directory"
       end;
     MutagenFile := fun p d =>
       match d !! p with
       | Some _ => Ok (Some (RFLAC [] ∅))
       | None => Raise "No such file or directory"
       end;
     truth := fun _ => true;
     getitem_error := fun _ _ => None;
     setitem_error := fun _ _ _ => None;
     stored := fun _ _ vs => PList (SStr <$> vs);
     delitem_error := fun _ _ => None;
     easy_save := easy_save sample_library;
     raw_save := raw_save sample_library;
     id3_load := id3_load sample_library;
     id3_save := id3_save sample_library;
     picture_write := picture_write sample_library;
     b64encode := b64encode sample_library;
     b64decode := b64decode sample_library;
     types_map := types_map sample_library |}.

(** A library that opens every file as an MP3 without tags: a tag object
    that is present and false. *)
Definition falsy_library : Library :=
  mkLibrary true (fun _ _ => Ok (Some (mkEasy "EasyMP3" ∅)))
    (fun _ _ => Ok (Some (RTagged None)))
    (truth sample_library) (getitem_error sample_library)
    (setitem_error sample_library) (stored sample_library)
    (delitem_error sample_library)
    (easy_save sample_library) (raw_save sample_library)
    (id3_load sample_library) (id3_save sample_library)
    (picture_write sample_library) (b64encode sample_library)
    (b64decode sample_library) (types_map sample_library).

(** A library that opens every file as a FLAC file whose only comment is
    the artist; an object with no comment is false, as a mapping is. *)
Definition single_tag_library : Library :=
  mkLibrary true
    (fun _ _ => Ok (Some (mkEasy "FLAC" {[ "artist" := PList [SStr "Old"] ]})))
    (fun _ _ => Ok (Some (RFLAC [] ∅)))
    (truth sample_library) (getitem_error sample_library)
    (setitem_error sample_library) (stored sample_library)
    (delitem_error sample_library)
    (easy_save sample_library) (raw_save sample_library)
    (id3_load sample_library) (id3_save sample_library)
    (picture_write sample_library) (b64encode sample_library)
    (b64decode sample_library) (types_map sample_library).

Definition plain_disk : Disk := {[ "/music/A.FLAC" := marker "old" ]}.

(** The handle [plain_library] opens on the file of [plain_disk]. *)
Definition plain_handle : TagIO.t :=
  TagIO.mk "/music/A.FLAC"
    (Some (mkEasy "FLAC" {[ "title" := PList [SStr "Song"];
                            "mood" := PList [SStr "calm"] ]}))
    (Some (RFLAC [] ∅)) "FLAC" false.

Definition sample_easy : Easy :=
  mkEasy "EasyMP3" {[ "title" := PList [SStr "Song"] ]}.

Definition sample_flac : Easy :=
  mkEasy "FLAC" {[ "comment" := PList [SStr "hello"] ]}.

Definition sample_world (a : option Easy) (r : option Raw) : TagIO.World :=
  TagIO.mkWorld (TagIO.mk "/music/a" a r "sample" false)
                {[ "/music/a" := marker "old"; "/music/cover.PNG" := marker "img" ]}.

Definition sample_fs : FileSystem :=
  {| listdir := fun d =>
       if String.eqb d "/music" then Listed ["b.mp3"; "notes.txt"; "live"; "A.FLAC"]
       else if String.eqb d "/music/live" then Listed []
       else FileNotFoundError;
     isdir := fun p => String.eqb p "/music/live";
     abspath := fun p => p;
     dirname := fun p =>
       match rfind "/" p with
       | Some i => str_take i p
       | None => EmptyString
       end |}.

Definition sample_tui : Tui.t :=
  Tui.mk (FileBrowser.mk "/music" ["live/"; "A.FLAC"; "b.mp3"] 1 SUPPORTED_EXTS)
         (Some "/music/A.FLAC") {[ "artist" := "Old" ]} 1 "Press [h] for help"
         false "tags" None None.

(** * Properties *)

Ltac run_monad :=
  unfold bind, ret, raise, try_except, get_state, put_state in *; simpl in *.

Lemma world_eta (w : TagIO.World) (a : Easy) :
  TagIO.audio (TagIO.self w) = Some a -> TagIO.set_audio a w = w.
Proof.
  destruct w as [[p au r f ro] d]; simpl; intros ->; reflexivity.
Qed.

(** ** The text-tag facade *)

Section Facade.
Context (lib : Library).

(** The body of [get] once the handle is known to be truthy. *)
Lemma get_truthy (w : TagIO.World) (a : Easy) (key : string) :
  TagIO.audio (TagIO.self w) = Some a ->
  truth lib a = true ->
  TagIO.get lib key w =
    (Ok (normalize_value
           (match getitem_error lib a key with
            | Some _ => PNone
            | None => default PNone (easy_tags a !! key)
            end)), w).
Proof.
  intros Ha Ht. unfold TagIO.get, TagIO.audio_get, TagIO.getitem. run_monad.
  rewrite Ha, Ht. simpl. destruct (getitem_error lib a key); reflexivity.
Qed.

Lemma get_falsy (w : TagIO.World) (key : string) :
  TagIO.truthy lib (TagIO.audio (TagIO.self w)) = false ->
  TagIO.get lib key w = (Ok [], w).
Proof.
  unfold TagIO.get, TagIO.truthy. run_monad.
  destruct (TagIO.audio (TagIO.self w)) as [a|]; [intros ->|]; reflexivity.
Qed.

Lemma set_falsy (w : TagIO.World) (key v : string) :
  TagIO.truthy lib (TagIO.audio (TagIO.self w)) = false ->
  TagIO.set lib key v w = (Ok tt, w).
Proof.
  unfold TagIO.set, TagIO.truthy. run_monad.
  destruct (TagIO.audio (TagIO.self w)) as [a|]; [intros ->|]; reflexivity.
Qed.

Lemma save_falsy (w : TagIO.World) :
  TagIO.truthy lib (TagIO.audio (TagIO.self w)) = false ->
  TagIO.save lib w = (Ok (false, Some "Unsupported file format"), w).
Proof.
  unfold TagIO.save, TagIO.truthy. run_monad.
  destruct (TagIO.audio (TagIO.self w)) as [a|]; [intros ->|]; reflexivity.
Qed.

(** [set] with the empty string on a truthy handle. *)
Lemma set_empty_truthy (w : TagIO.World) (a : Easy) (key : string) :
  TagIO.audio (TagIO.self w) = Some a ->
  truth lib a = true ->
  getitem_error lib a key = None ->
  delitem_error lib a key = None ->
  TagIO.set lib key "" w =
    (Ok tt, TagIO.set_audio (mkEasy (easy_class a) (delete key (easy_tags a))) w).
Proof.
  intros Ha Ht Hg Hd.
  unfold TagIO.set, TagIO.audio_contains, TagIO.audio_delitem, TagIO.getitem.
  run_monad. rewrite Ha, Ht, Hg. simpl.
  destruct (easy_tags a !! key) as [v|] eqn:Hk.
  - rewrite bool_decide_eq_true_2 by eauto. rewrite Hd. reflexivity.
  - rewrite bool_decide_eq_false_2 by (intros [? ?]; discriminate).
    rewrite delete_id by exact Hk.
    destruct a; simpl. rewrite world_eta by exact Ha. reflexivity.
Qed.

(** [set] with a value on a truthy handle: stored, or silently dropped. *)
Lemma set_value_truthy (w : TagIO.World) (a : Easy) (key v : string) :
  TagIO.audio (TagIO.self w) = Some a ->
  truth lib a = true ->
  v <> "" ->
  TagIO.set lib key v w =
    (Ok tt,
     match setitem_error lib a key [v] with
     | Some _ => w
     | None => TagIO.set_audio
                 (mkEasy (easy_class a)
                         (<[key := stored lib a key [v]]> (easy_tags a))) w
     end).
Proof.
  intros Ha Ht Hv.
  unfold TagIO.set, TagIO.audio_setitem. run_monad. rewrite Ha, Ht. simpl.
  destruct (String.eqb_spec v "") as [->|_]; [congruence|].
  destruct (setitem_error lib a key [v]); reflexivity.
Qed.

Lemma set_returns_and_keeps_disk (w : TagIO.World) (key v : string) :
  fst (TagIO.set lib key v w) = Ok tt /\
  TagIO.disk (snd (TagIO.set lib key v w)) = TagIO.disk w /\
  TagIO.raw (TagIO.self (snd (TagIO.set lib key v w))) = TagIO.raw (TagIO.self w) /\
  TagIO.path (TagIO.self (snd (TagIO.set lib key v w))) = TagIO.path (TagIO.self w).
Proof.
  unfold TagIO.set, TagIO.audio_contains, TagIO.audio_delitem,
    TagIO.audio_setitem, TagIO.getitem.
  run_monad.
  destruct (TagIO.audio (TagIO.self w)) as [a|]; [|auto].
  destruct (truth lib a); simpl; [|auto].
  destruct (String.eqb v "").
  - destruct (getitem_error lib a key); simpl; [auto|].
    destruct (bool_decide _); simpl; [|auto].
    destruct (delitem_error lib a key); simpl; auto.
  - destruct (setitem_error lib a key [v]); simpl; auto.
Qed.

End Facade.

(** C8: [get] always returns a list of strings and leaves the handle as it
    was; it returns the empty list when there is no tag object or when the
    key is absent from the tag mapping (also when the lookup itself raises),
    and the stored values as strings otherwise. *)
Theorem get_returns_list_never_raises
  (lib : Library) (w : TagIO.World) (key : string) :
  exists l : list string,
    TagIO.get lib key w = (Ok l, w) /\
    (TagIO.audio (TagIO.self w) = None -> l = []) /\
    (forall a, TagIO.audio (TagIO.self w) = Some a ->
               easy_tags a !! key = None -> l = []) /\
    (forall a v, TagIO.audio (TagIO.self w) = Some a ->
                 truth lib a = true ->
                 getitem_error lib a key = None ->
                 easy_tags a !! key = Some v -> l = normalize_value v).
Proof.
  destruct (TagIO.audio (TagIO.self w)) as [a|] eqn:Ha.
  - destruct (truth lib a) eqn:Ht.
    + eexists. split; [apply (get_truthy lib w a key Ha Ht)|].
      split; [discriminate|]. split.
      * intros a' [= <-] Hk. rewrite Hk. destruct (getitem_error lib a key); reflexivity.
      * intros a' v [= <-] _ Hg Hk. rewrite Hg, Hk. reflexivity.
    + exists []. split; [apply get_falsy; unfold TagIO.truthy; rewrite Ha; exact Ht|].
      split; [discriminate|]. split; [reflexivity|].
      intros a' v [= <-] Ht'. congruence.
  - exists []. split; [apply get_falsy; unfold TagIO.truthy; rewrite Ha; reflexivity|].
    split; [reflexivity|]. split; [reflexivity|]. intros a v [=].
Qed.

Lemma get_returns_list_never_raises_witness :
  exists l : list string,
    TagIO.get sample_library "genre" (sample_world (Some sample_easy) None)
    = (Ok l, sample_world (Some sample_easy) None) /\ l = [].
Proof.
  destruct (get_returns_list_never_raises sample_library
              (sample_world (Some sample_easy) None) "genre")
    as (l & Hrun & _ & Habsent & _).
  exists l. split; [exact Hrun|].
  apply (Habsent sample_easy); reflexivity.
Defined.

(** C1, as the claim states it, fails: the easy view of an MP3 rejects the
    catalog key [comment], and [set] swallows the exception. *)
Lemma set_stores_every_catalog_field_counterexample :
  ~ (forall (lib : Library) (w : TagIO.World) (a : Easy) (key v : string),
        TagIO.audio (TagIO.self w) = Some a ->
        key ∈ (fst <$> DEFAULT_FIELDS) ->
        v <> "" ->
        TagIO.tags_of (snd (TagIO.set lib key v w)) !! key = Some (PList [SStr v])).
Proof.
  intros H.
  specialize (H sample_library (sample_world (Some sample_easy) None)
                sample_easy "comment" "hello" eq_refl).
  assert (Hin : "comment" ∈ (fst <$> DEFAULT_FIELDS))
    by (simpl; repeat (first [apply list_elem_of_here | apply list_elem_of_further])).
  specialize (H Hin ltac:(discriminate)).
  vm_compute in H. discriminate.
Qed.

(** C1, amended: on a handle whose tag object is present and true, [set]
    with the empty string leaves the key absent; [set] with a non-empty [v]
    leaves under the key what the library stores for the assignment of
    [[v]] when the format accepts it (exactly [[v]] where the library keeps
    the text as it is, which the easy views do not always do) and changes
    nothing when the format rejects it; other keys keep their values, and no
    call of [set] raises or touches the files. *)
Theorem set_clears_or_replaces
  (lib : Library) (w : TagIO.World) (a : Easy) (key : string) :
  TagIO.audio (TagIO.self w) = Some a ->
  truth lib a = true ->
  (getitem_error lib a key = None -> delitem_error lib a key = None ->
   TagIO.tags_of (snd (TagIO.set lib key "" w)) !! key = None /\
   forall k, k <> key ->
     TagIO.tags_of (snd (TagIO.set lib key "" w)) !! k = easy_tags a !! k) /\
  (forall v, v <> "" -> setitem_error lib a key [v] = None ->
   TagIO.tags_of (snd (TagIO.set lib key v w)) !! key = Some (stored lib a key [v]) /\
   (stored lib a key [v] = PList [SStr v] ->
    TagIO.tags_of (snd (TagIO.set lib key v w)) !! key = Some (PList [SStr v])) /\
   forall k, k <> key ->
     TagIO.tags_of (snd (TagIO.set lib key v w)) !! k = easy_tags a !! k) /\
  (forall v e, v <> "" -> setitem_error lib a key [v] = Some e ->
   snd (TagIO.set lib key v w) = w) /\
  (forall v, fst (TagIO.set lib key v w) = Ok tt /\
             TagIO.disk (snd (TagIO.set lib key v w)) = TagIO.disk w).
Proof.
  intros Ha Ht.
  split; [|split; [|split]].
  - intros Hg Hd. rewrite (set_empty_truthy lib w a key Ha Ht Hg Hd).
    unfold TagIO.tags_of; simpl. split.
    + apply lookup_delete_eq.
    + intros k Hk. apply lookup_delete_ne; congruence.
  - intros v Hv Hs. rewrite (set_value_truthy lib w a key v Ha Ht Hv), Hs.
    unfold TagIO.tags_of; simpl. split; [|split].
    + apply lookup_insert_eq.
    + intros <-. apply lookup_insert_eq.
    + intros k Hk. apply lookup_insert_ne; congruence.
  - intros v e Hv He. rewrite (set_value_truthy lib w a key v Ha Ht Hv), He.
    reflexivity.
  - intros v. destruct (set_returns_and_keeps_disk lib w key v) as (H1 & H2 & _).
    split; assumption.
Qed.

Lemma set_clears_or_replaces_witness :
  TagIO.tags_of (snd (TagIO.set sample_library "comment" ""
                        (sample_world (Some sample_flac) None))) !! "comment" = None /\
  TagIO.tags_of (snd (TagIO.set sample_library "comment" "bye"
                        (sample_world (Some sample_flac) None))) !! "comment"
  = Some (PList [SStr "bye"]) /\
  TagIO.tags_of (snd (TagIO.set sample_library "genre" "17"
                        (sample_world (Some sample_easy) None))) !! "genre"
  = Some (PList [SStr "Rock"]).
Proof.
  destruct (set_clears_or_replaces sample_library
              (sample_world (Some sample_flac) None) sample_flac "comment"
              eq_refl eq_refl) as (Hclear & Hset & _).
  destruct (set_clears_or_replaces sample_library
              (sample_world (Some sample_easy) None) sample_easy "genre"
              eq_refl eq_refl) as (_ & Hgenre & _).
  split; [|split].
  - apply Hclear; reflexivity.
  - apply (Hset "bye"); [discriminate | reflexivity | reflexivity].
  - apply (Hgenre "17"); [discriminate | reflexivity].
Defined.

(** ** Saving *)

Section Saving.
Context (lib : Library).

(** [save] on a truthy handle: the raw view is written first and its failure
    ignored, then the easy view decides the result. *)
Lemma save_truthy (w : TagIO.World) (a : Easy) :
  TagIO.audio (TagIO.self w) = Some a ->
  truth lib a = true ->
  TagIO.save lib w =
    (Ok (match snd (easy_save lib (TagIO.path (TagIO.self w)) a (TagIO.after_raw_save lib w)) with
         | None => (true, None)
         | Some e => (false, Some e)
         end),
     TagIO.set_disk
       (fst (easy_save lib (TagIO.path (TagIO.self w)) a (TagIO.after_raw_save lib w))) w).
Proof.
  intros Ha Ht. unfold TagIO.save, TagIO.write, TagIO.after_raw_save. run_monad.
  rewrite Ha, Ht. simpl.
  destruct (TagIO.raw (TagIO.self w)) as [r|]; simpl.
  - destruct (raw_save lib (TagIO.path (TagIO.self w)) r (TagIO.disk w))
      as [d1 [e1|]]; simpl;
      destruct (easy_save lib (TagIO.path (TagIO.self w)) a d1) as [d2 [e2|]];
      reflexivity.
  - destruct (easy_save lib (TagIO.path (TagIO.self w)) a (TagIO.disk w))
      as [d2 [e2|]]; reflexivity.
Qed.

Lemma perform_unsupported (w : TagIO.World) (c : TagIO.call) :
  TagIO.truthy lib (TagIO.audio (TagIO.self w)) = false ->
  TagIO.perform lib c w = (TagIO.unsupported_reply c, w).
Proof.
  intros Hf. destruct c as [key value|]; simpl.
  - rewrite set_falsy by exact Hf. reflexivity.
  - rewrite save_falsy by exact Hf. reflexivity.
Qed.

Lemma perform_all_unsupported (w : TagIO.World) (cs : list TagIO.call) :
  TagIO.truthy lib (TagIO.audio (TagIO.self w)) = false ->
  TagIO.perform_all lib cs w = (TagIO.unsupported_reply <$> cs, w).
Proof.
  intros Hf. induction cs as [|c cs IH]; simpl.
  - reflexivity.
  - rewrite perform_unsupported by exact Hf. rewrite IH. reflexivity.
Qed.

End Saving.

(** C2, as the claim states it, fails: with the disk filling up, the raw
    view's save rewrites the file and the easy view's save then raises. *)
Lemma save_failure_keeps_disk_counterexample :
  ~ (forall (lib : Library) (w w' : TagIO.World) (reason : string),
        TagIO.save lib w = (Ok (false, Some reason), w') ->
        TagIO.disk w' = TagIO.disk w).
Proof.
  intros H.
  specialize (H full_disk_library
                (sample_world (Some sample_flac) (Some (RFLAC [] ∅)))
                _ "No space left on device" eq_refl).
  apply (f_equal (fun d : Disk => d !! "/music/a")) in H.
  vm_compute in H. discriminate.
Qed.

(** C2, amended: [save] never raises, and it returns [(False, reason)]
    exactly when the handle has no true tag object (then nothing is written)
    or the easy view's save raised [reason] (an exception of the raw view's
    save is ignored); in the latter case the files are as the raw view's
    save and the failed save left them, without rollback. *)
Theorem save_reports_failure
  (lib : Library) (w : TagIO.World) :
  (TagIO.truthy lib (TagIO.audio (TagIO.self w)) = false ->
   TagIO.save lib w = (Ok (false, Some "Unsupported file format"), w)) /\
  (forall a, TagIO.audio (TagIO.self w) = Some a -> truth lib a = true ->
     let wrote := easy_save lib (TagIO.path (TagIO.self w)) a (TagIO.after_raw_save lib w) in
     TagIO.disk (snd (TagIO.save lib w)) = fst wrote /\
     TagIO.self (snd (TagIO.save lib w)) = TagIO.self w /\
     (snd wrote = None -> fst (TagIO.save lib w) = Ok (true, None)) /\
     (forall reason, snd wrote = Some reason ->
                     fst (TagIO.save lib w) = Ok (false, Some reason))) /\
  (exists ok err, fst (TagIO.save lib w) = Ok (ok, err) /\
                  (ok = false -> exists reason, err = Some reason)).
Proof.
  split; [apply save_falsy|]. split.
  - intros a Ha Ht. rewrite (save_truthy lib w a Ha Ht). simpl.
    split; [reflexivity|]. split; [reflexivity|]. split.
    + intros ->. reflexivity.
    + intros reason ->. reflexivity.
  - destruct (TagIO.audio (TagIO.self w)) as [a|] eqn:Ha.
    + destruct (truth lib a) eqn:Ht.
      * rewrite (save_truthy lib w a Ha Ht). simpl.
        destruct (snd (easy_save lib (TagIO.path (TagIO.self w)) a
                         (TagIO.after_raw_save lib w))) as [e|].
        -- exists false, (Some e). split; [reflexivity|]. intros _. eauto.
        -- exists true, None. split; [reflexivity|]. discriminate.
      * rewrite save_falsy by (unfold TagIO.truthy; rewrite Ha; exact Ht).
        exists false, (Some "Unsupported file format").
        split; [reflexivity|]. intros _. eauto.
    + rewrite save_falsy by (unfold TagIO.truthy; rewrite Ha; reflexivity).
      exists false, (Some "Unsupported file format").
      split; [reflexivity|]. intros _. eauto.
Qed.

Lemma save_reports_failure_witness :
  TagIO.save sample_library (sample_world None None)
  = (Ok (false, Some "Unsupported file format"), sample_world None None) /\
  fst (TagIO.save full_disk_library
         (sample_world (Some sample_flac) (Some (RFLAC [] ∅))))
  = Ok (false, Some "No space left on device").
Proof.
  split.
  - apply (save_reports_failure sample_library (sample_world None None)).
    reflexivity.
  - destruct (save_reports_failure full_disk_library
                (sample_world (Some sample_flac) (Some (RFLAC [] ∅))))
      as (_ & Htruthy & _).
    destruct (Htruthy sample_flac eq_refl eq_refl) as (_ & _ & _ & Hfail).
    apply Hfail. reflexivity.
Defined.

(** C3: when the library recognises no tag model in the file, [TagIO(path)]
    returns an unsupported handle without raising; every later [set] returns
    having changed nothing, every later [save] returns
    [(False, "Unsupported file format")], and after any sequence of such
    calls the handle and every file are what they were. *)
Theorem unsupported_handle_is_inert
  (lib : Library) (p : string) (d : Disk) (r : option Raw) :
  available lib = true ->
  MutagenFile_easy lib p d = Ok None ->
  MutagenFile lib p d = Ok r ->
  exists io,
    TagIO.init lib p d = Ok io /\
    TagIO.is_supported io = false /\
    (forall key value,
       TagIO.set lib key value (TagIO.mkWorld io d) = (Ok tt, TagIO.mkWorld io d)) /\
    TagIO.save lib (TagIO.mkWorld io d)
    = (Ok (false, Some "Unsupported file format"), TagIO.mkWorld io d) /\
    (forall calls,
       TagIO.perform_all lib calls (TagIO.mkWorld io d)
       = (TagIO.unsupported_reply <$> calls, TagIO.mkWorld io d)).
Proof.
  intros Hav He Hr.
  exists (TagIO.mk p None r "Unknown" false).
  split.
  - unfold TagIO.init. rewrite Hav, He, Hr. reflexivity.
  - split; [reflexivity|]. split.
    + intros key value. apply set_falsy. reflexivity.
    + split.
      * apply save_falsy. reflexivity.
      * intros calls. apply perform_all_unsupported. reflexivity.
Qed.

Lemma unsupported_handle_is_inert_witness :
  exists io,
    TagIO.init sample_library "/music/notes.txt" {[ "/music/notes.txt" := marker "text" ]}
    = Ok io /\
    TagIO.perform_all sample_library
      [TagIO.SetField "title" "x"; TagIO.Save; TagIO.SetField "comment" ""]
      (TagIO.mkWorld io {[ "/music/notes.txt" := marker "text" ]})
    = ([TagIO.SetReturned;
        TagIO.SaveReturned false (Some "Unsupported file format");
        TagIO.SetReturned],
       TagIO.mkWorld io {[ "/music/notes.txt" := marker "text" ]}).
Proof.
  destruct (unsupported_handle_is_inert sample_library "/music/notes.txt"
              {[ "/music/notes.txt" := marker "text" ]} None
              eq_refl eq_refl eq_refl)
    as (io & Hinit & _ & _ & _ & Hall).
  exists io. split; [exact Hinit|]. apply Hall.
Defined.

(** ** Cover art *)

Section Covers.
Context (lib : Library).

Lemma raw_write_after_store (r : Raw) (w : TagIO.World) :
  (TagIO.raw_store r ;;; TagIO.raw_write lib r ;;; ret (true, @None string)) w =
    (match snd (raw_save lib (TagIO.path (TagIO.self w)) r (TagIO.disk w)) with
     | None => Ok (true, None)
     | Some e => Raise e
     end,
     TagIO.set_disk (fst (raw_save lib (TagIO.path (TagIO.self w)) r (TagIO.disk w)))
                    (TagIO.set_raw r w)).
Proof.
  unfold TagIO.raw_store, TagIO.raw_write, TagIO.write. run_monad.
  destruct (raw_save lib (TagIO.path (TagIO.self w)) r (TagIO.disk w)) as [d [e|]];
    reflexivity.
Qed.

(** A branch of a cover method that stores [r] and saves it, inside the
    method's outer [try]. *)
Lemma store_and_save_reported (r : Raw) (w : TagIO.World) :
  try_except (TagIO.raw_store r ;;; TagIO.raw_write lib r ;;; ret (true, @None string))
             (fun e => ret (false, Some e)) w =
    (Ok (TagIO.report (snd (raw_save lib (TagIO.path (TagIO.self w)) r (TagIO.disk w)))),
     TagIO.set_disk (fst (raw_save lib (TagIO.path (TagIO.self w)) r (TagIO.disk w)))
                    (TagIO.set_raw r w)).
Proof.
  unfold try_except at 1. rewrite raw_write_after_store.
  destruct (snd (raw_save lib (TagIO.path (TagIO.self w)) r (TagIO.disk w)));
    reflexivity.
Qed.

(** [set_cover] on the three containers with a cover codec of their own. *)
Lemma set_cover_stores (w : TagIO.World) (image : string) (data : list Byte.byte)
  (r0 r : Raw) :
  TagIO.disk w !! image = Some data ->
  TagIO.raw (TagIO.self w) = Some r0 ->
  match r0 with
  | RFLAC _ comments =>
      r = RFLAC [TagIO.front_cover (TagIO.cover_mime lib image) data] comments
  | RMP4 tags =>
      r = RMP4 (Some (<["covr" :=
                          MCovers [mkMP4Cover data
                                     (if String.eqb (TagIO.cover_mime lib image) "image/png"
                                      then FORMAT_PNG else FORMAT_JPEG)]]>
                        (default ∅ tags)))
  | ROgg opus tags =>
      r = ROgg opus
            (Some (TagIO.with_picture_comment
                     (b64encode lib
                        (picture_write lib
                           (TagIO.front_cover (TagIO.cover_mime lib image) data)))
                     tags))
  | RTagged _ => False
  end ->
  TagIO.set_cover lib image w =
    (Ok (TagIO.report (snd (raw_save lib (TagIO.path (TagIO.self w)) r (TagIO.disk w)))),
     TagIO.set_disk (fst (raw_save lib (TagIO.path (TagIO.self w)) r (TagIO.disk w)))
                    (TagIO.set_raw r w)).
Proof.
  intros Hd Hr Hshape.
  rewrite <- store_and_save_reported.
  unfold TagIO.set_cover, TagIO.read_image, TagIO.with_picture_comment in *.
  unfold try_except, bind at 1 2 3, get_state, ret at 1. simpl.
  rewrite Hd. simpl. rewrite Hr.
  destruct r0; try contradiction; subst r; reflexivity.
Qed.

Lemma clear_cover_raw (w : TagIO.World) :
  TagIO.raw (TagIO.self (snd (TagIO.clear_cover lib w)))
  = TagIO.cleared <$> TagIO.raw (TagIO.self w).
Proof.
  unfold TagIO.clear_cover. unfold bind at 1, get_state. simpl.
  destruct (TagIO.raw (TagIO.self w)) as [[pics c|tags|opus [m|]|id3]|] eqn:Hr;
    try (rewrite store_and_save_reported; reflexivity).
  - run_monad. rewrite Hr. reflexivity.
  - unfold TagIO.write. run_monad.
    destruct (id3_load lib (TagIO.path (TagIO.self w)) (TagIO.disk w));
      simpl; try (rewrite Hr; reflexivity).
    destruct (id3_save lib _ _ _) as [d [e|]]; simpl; rewrite Hr; reflexivity.
  - run_monad. rewrite Hr. reflexivity.
Qed.



Lemma del_apics_no_apic (id3 : ID3) (k : string) (f : Frame) :
  (k, f) ∈ TagIO.del_apics id3 -> startswith k "APIC" = false.
Proof.
  unfold TagIO.del_apics. rewrite list_elem_of_In, filter_In.
  intros [_ H]. apply negb_true_iff in H. exact H.
Qed.

End Covers.

Section CoverFallback.
Context (lib : Library).

(** [set_cover] on any other file, recognised or not: the ID3 fallback. *)
Lemma set_cover_fallback (w : TagIO.World) (image : string)
  (data : list Byte.byte) (id3 : ID3) :
  TagIO.disk w !! image = Some data ->
  (TagIO.raw (TagIO.self w) = None \/
   exists i, TagIO.raw (TagIO.self w) = Some (RTagged i)) ->
  TagIO.loaded_frames (id3_load lib (TagIO.path (TagIO.self w)) (TagIO.disk w))
  = Some id3 ->
  let wrote := id3_save lib (TagIO.path (TagIO.self w))
                 (TagIO.with_front_cover id3 (TagIO.cover_mime lib image) data)
                 (TagIO.disk w) in
  TagIO.set_cover lib image w =
    (Ok (match snd wrote with
         | None => (true, None)
         | Some _ => (false, Some "Unsupported format for cover setting")
         end),
     TagIO.set_disk (fst wrote) w).
Proof.
  intros Hd Hr Hl. simpl.
  unfold TagIO.set_cover, TagIO.read_image, TagIO.set_cover_id3, TagIO.write.
  run_monad. rewrite Hd. simpl.
  assert (Hload : id3_load lib (TagIO.path (TagIO.self w)) (TagIO.disk w) = ID3Loaded id3
                  \/ (id3_load lib (TagIO.path (TagIO.self w)) (TagIO.disk w) = ID3NoHeaderError
                      /\ id3 = [])).
  { destruct (id3_load lib _ _); simpl in Hl; inversion Hl; auto. }
  destruct Hr as [Hr|[i Hr]]; rewrite Hr;
    destruct Hload as [Hload|[Hload ->]]; rewrite Hload; simpl;
    destruct (id3_save lib _ _ _) as [d [e|]]; reflexivity.
Qed.

Lemma front_cover_only_apic (id3 : ID3) (mime : string) (data : list Byte.byte)
  (k : string) (f : Frame) :
  (k, f) ∈ TagIO.with_front_cover id3 mime data ->
  startswith k "APIC" = true ->
  f = APIC 3 mime 3 "cover" data.
Proof.
  unfold TagIO.with_front_cover. rewrite elem_of_app. intros [Hin|Hin] Hk.
  - apply del_apics_no_apic in Hin. congruence.
  - apply list_elem_of_singleton in Hin. congruence.
Qed.

Lemma is_prefix_shorter (p q s : string) :
  is_prefix (p +:+ q) s = true -> is_prefix p s = true.
Proof.
  revert s. induction p as [|a p IH]; intros s; simpl; [reflexivity|].
  destruct s as [|b s]; [discriminate|].
  intros H. apply andb_true_iff in H as [Hab Hrest].
  rewrite Hab. simpl. apply IH. exact Hrest.
Qed.

Lemma frames_get_none (key : string) (id3 : ID3) :
  (forall k f, (k, f) ∈ id3 -> k <> key) -> TagIO.frames_get key id3 = None.
Proof.
  induction id3 as [|[k f] rest IH]; intros H; simpl; [reflexivity|].
  destruct (String.eqb_spec k key) as [->|_].
  - exfalso. apply (H key f); [apply list_elem_of_here|reflexivity].
  - apply IH. intros k' f' Hin. apply (H k' f'). apply list_elem_of_further, Hin.
Qed.

Lemma filter_none {A : Type} (f : A -> bool) (l : list A) :
  (forall x, x ∈ l -> f x = false) -> List.filter f l = [].
Proof.
  induction l as [|x l IH]; intros H; simpl; [reflexivity|].
  rewrite (H x) by apply list_elem_of_here.
  apply IH. intros y Hy. apply H. apply list_elem_of_further, Hy.
Qed.

Lemma filter_twice {A : Type} (f : A -> bool) (l : list A) :
  List.filter f (List.filter f l) = List.filter f l.
Proof.
  induction l as [|x l IH]; simpl; [reflexivity|].
  destruct (f x) eqn:Hx; simpl; [rewrite Hx, IH|]; auto.
Qed.

Lemma getall_front_cover (id3 : ID3) (mime : string) (data : list Byte.byte) :
  TagIO.getall "APIC" (TagIO.with_front_cover id3 mime data)
  = [APIC 3 mime 3 "cover" data].
Proof.
  unfold TagIO.getall, TagIO.with_front_cover.
  rewrite frames_get_none.
  - rewrite List.filter_app, filter_none; [reflexivity|].
    intros [k f] Hin. apply del_apics_no_apic in Hin.
    destruct (startswith k ("APIC" +:+ ":")) eqn:Hk; [|exact Hk].
    apply is_prefix_shorter in Hk. unfold startswith in Hin. congruence.
  - intros k f Hin. apply elem_of_app in Hin as [Hin|Hin].
    + apply del_apics_no_apic in Hin. intros ->. discriminate Hin.
    + apply list_elem_of_singleton in Hin. inversion Hin. discriminate.
Qed.

(** [getall] lists the picture frames in the order of the tag: the frame
    under the first key that starts with [APIC:] comes first. *)
Lemma getall_first_apic (pre post : ID3) (k : string) (f : Frame) :
  (forall k' f', (k', f') ∈ pre -> startswith k' "APIC" = false) ->
  startswith k "APIC:" = true ->
  (forall k' f', (k', f') ∈ post -> k' <> "APIC") ->
  TagIO.getall "APIC" (pre ++ (k, f) :: post)
  = f :: (snd <$> List.filter (fun kf => startswith (fst kf) "APIC:") post).
Proof.
  intros Hpre Hk Hpost. unfold TagIO.getall.
  rewrite frames_get_none.
  - change ("APIC" +:+ ":") with "APIC:".
    rewrite List.filter_app, filter_none.
    + cbn [List.filter fst app]. rewrite Hk. reflexivity.
    + intros [k' f'] Hin. cbn [fst].
      destruct (startswith k' "APIC:") eqn:Hk'; [|reflexivity].
      apply (is_prefix_shorter "APIC" ":") in Hk'.
      specialize (Hpre k' f' Hin). unfold startswith in Hpre. congruence.
  - intros k' f' Hin. apply elem_of_app in Hin as [Hin|Hin].
    + intros ->. apply Hpre in Hin. discriminate Hin.
    + apply elem_of_cons in Hin as [Hin|Hin].
      * inversion Hin; subst. intros ->. discriminate Hk.
      * apply (Hpost k' f' Hin).
Qed.

End CoverFallback.

(** C4, as the claim states it, fails on the reading side: a FLAC file whose
    only picture is a back cover (type 4) is reported as having a cover. *)
Lemma cover_read_only_type_3_counterexample :
  ~ (forall (lib : Library) (io : TagIO.t) (pics : list Picture)
            (c : gmap string (list string)),
        TagIO.raw io = Some (RFLAC pics c) ->
        TagIO.has_cover lib io = true ->
        exists p, p ∈ pics /\ pic_type p = 3%Z).
Proof.
  intros H.
  destruct (H sample_library
              (TagIO.mk "/music/a" None
                 (Some (RFLAC [mkPicture 4 "image/png" "" (marker "abc")] ∅))
                 "FLAC" false)
              _ _ eq_refl eq_refl) as (p & Hin & Hty).
  apply list_elem_of_singleton in Hin. subst p. discriminate Hty.
Qed.

(** C4, amended: the picture [set_cover] stores carries type code 3 in each
    codec that has a type code (FLAC picture block, Ogg picture comment, ID3
    picture frame; an MP4 cover has none), and it is the only picture left
    under the codec's picture slot: one FLAC picture, one MP4 cover, one
    picture comment with the legacy [coverart] gone, and for ID3 the saved
    frames hold exactly one picture frame, the new one.  [get_cover_info] and [has_cover] report the first
    stored picture whatever its type code: the first FLAC picture, and the
    first picture frame of an ID3 tag whatever follows it. *)
Theorem cover_written_with_type_3
  (lib : Library) (w : TagIO.World) (image : string) (data : list Byte.byte) :
  TagIO.disk w !! image = Some data ->
  (forall pics c,
     TagIO.raw (TagIO.self w) = Some (RFLAC pics c) ->
     TagIO.raw (TagIO.self (snd (TagIO.set_cover lib image w)))
     = Some (RFLAC [mkPicture 3 (TagIO.cover_mime lib image) "cover" data] c)) /\
  (forall tags,
     TagIO.raw (TagIO.self w) = Some (RMP4 tags) ->
     exists m,
       TagIO.raw (TagIO.self (snd (TagIO.set_cover lib image w)))
       = Some (RMP4 (Some m)) /\
       m !! "covr"
       = Some (MCovers [mkMP4Cover data
                          (if String.eqb (TagIO.cover_mime lib image) "image/png"
                           then FORMAT_PNG else FORMAT_JPEG)])) /\
  (forall opus tags,
     TagIO.raw (TagIO.self w) = Some (ROgg opus tags) ->
     exists m,
       TagIO.raw (TagIO.self (snd (TagIO.set_cover lib image w)))
       = Some (ROgg opus (Some m)) /\
       m !! "metadata_block_picture"
       = Some [b64encode lib
                 (picture_write lib
                    (mkPicture 3 (TagIO.cover_mime lib image) "cover" data))] /\
       m !! "coverart" = None) /\
  (forall id3,
     (TagIO.raw (TagIO.self w) = None \/
      exists i, TagIO.raw (TagIO.self w) = Some (RTagged i)) ->
     TagIO.loaded_frames (id3_load lib (TagIO.path (TagIO.self w)) (TagIO.disk w))
     = Some id3 ->
     TagIO.disk (snd (TagIO.set_cover lib image w))
     = fst (id3_save lib (TagIO.path (TagIO.self w))
              (TagIO.with_front_cover id3 (TagIO.cover_mime lib image) data)
              (TagIO.disk w)) /\
     TagIO.getall "APIC" (TagIO.with_front_cover id3 (TagIO.cover_mime lib image) data)
     = [APIC 3 (TagIO.cover_mime lib image) 3 "cover" data] /\
     forall k f,
       (k, f) ∈ TagIO.with_front_cover id3 (TagIO.cover_mime lib image) data ->
       startswith k "APIC" = true ->
       f = APIC 3 (TagIO.cover_mime lib image) 3 "cover" data) /\
  (forall p a fmt ro ty mime desc bytes pics c,
     TagIO.get_cover_info lib
       (TagIO.mk p a (Some (RFLAC (mkPicture ty mime desc bytes :: pics) c)) fmt ro)
     = Some ("FLAC picture: " +:+ TagIO.mime_or_any mime
             +:+ TagIO.bytes_suffix (List.length bytes)) /\
     TagIO.has_cover lib
       (TagIO.mk p a (Some (RFLAC (mkPicture ty mime desc bytes :: pics) c)) fmt ro)
     = true) /\
  (forall p a fmt ro enc ty mime desc bytes,
     TagIO.get_cover_info lib
       (TagIO.mk p a (Some (RTagged (Some [("APIC:" +:+ desc,
                                            APIC enc mime ty desc bytes)]))) fmt ro)
     = Some ("ID3 APIC: " +:+ TagIO.mime_or_any mime
             +:+ TagIO.bytes_suffix (List.length bytes))) /\
  (forall p a fmt ro (pre post : ID3) k enc ty mime desc bytes,
     (forall k' f', (k', f') ∈ pre -> startswith k' "APIC" = false) ->
     startswith k "APIC:" = true ->
     (forall k' f', (k', f') ∈ post -> k' <> "APIC") ->
     TagIO.get_cover_info lib
       (TagIO.mk p a
          (Some (RTagged (Some (pre ++ (k, APIC enc mime ty desc bytes) :: post)%list)))
          fmt ro)
     = Some ("ID3 APIC: " +:+ TagIO.mime_or_any mime
             +:+ TagIO.bytes_suffix (List.length bytes)) /\
     TagIO.has_cover lib
       (TagIO.mk p a
          (Some (RTagged (Some (pre ++ (k, APIC enc mime ty desc bytes) :: post)%list)))
          fmt ro)
     = true).
Proof.
  intros Hd. split; [|split; [|split; [|split; [|split; [|split]]]]].
  - intros pics c Hr.
    rewrite (set_cover_stores lib w image data _ _ Hd Hr eq_refl). reflexivity.
  - intros tags Hr.
    rewrite (set_cover_stores lib w image data _ _ Hd Hr eq_refl).
    eexists. split; [reflexivity|]. apply lookup_insert_eq.
  - intros opus tags Hr.
    rewrite (set_cover_stores lib w image data _ _ Hd Hr eq_refl).
    eexists. split; [reflexivity|].
    unfold TagIO.with_picture_comment. split; [apply lookup_insert_eq|].
    rewrite lookup_insert_ne by discriminate.
    rewrite lookup_delete_ne by discriminate. apply lookup_delete_eq.
  - intros id3 Hr Hl. split; [|split].
    + rewrite (set_cover_fallback lib w image data id3 Hd Hr Hl). reflexivity.
    + apply getall_front_cover.
    + intros k f. apply front_cover_only_apic.
  - intros. split; reflexivity.
  - reflexivity.
  - intros p a fmt ro pre post k enc ty mime desc bytes Hpre Hk Hpost.
    assert (Hinfo : TagIO.get_cover_info lib
              (TagIO.mk p a
                 (Some (RTagged (Some (pre ++ (k, APIC enc mime ty desc bytes) :: post)%list)))
                 fmt ro)
            = Some ("ID3 APIC: " +:+ TagIO.mime_or_any mime
                    +:+ TagIO.bytes_suffix (List.length bytes))).
    { unfold TagIO.get_cover_info. cbn [TagIO.raw].
      rewrite (getall_first_apic pre post k _ Hpre Hk Hpost). reflexivity. }
    split; [exact Hinfo|].
    unfold TagIO.has_cover. rewrite Hinfo.
    apply bool_decide_eq_true_2. eauto.
Qed.

Lemma cover_written_with_type_3_witness :
  TagIO.raw (TagIO.self (snd (TagIO.set_cover sample_library "/music/cover.PNG"
     (sample_world None
        (Some (RFLAC [mkPicture 4 "image/gif" "old" (marker "x")] ∅))))))
  = Some (RFLAC [mkPicture 3 "image/png" "cover" (marker "img")] ∅) /\
  TagIO.getall "APIC"
    (TagIO.with_front_cover [] (TagIO.cover_mime sample_library "/music/cover.PNG")
       (marker "img"))
  = [APIC 3 "image/png" 3 "cover" (marker "img")].
Proof.
  destruct (cover_written_with_type_3 sample_library
              (sample_world None
                 (Some (RFLAC [mkPicture 4 "image/gif" "old" (marker "x")] ∅)))
              "/music/cover.PNG" (marker "img") eq_refl) as (Hflac & _).
  destruct (cover_written_with_type_3 sample_library
              (sample_world None (Some (RTagged None)))
              "/music/cover.PNG" (marker "img") eq_refl) as (_ & _ & _ & Hid3 & _).
  split; [apply (Hflac _ _ eq_refl)|].
  destruct (Hid3 [] (or_intror (ex_intro _ None eq_refl)) eq_refl) as (_ & Hall & _).
  exact Hall.
Defined.

(** C5: on an Ogg Vorbis or Opus handle, [set_cover] with a readable image
    leaves the comment block without [coverart] and [coverartmime], with the
    Base64 text of a type-3 picture block as the single value of
    [metadata_block_picture], and with every other comment as it was; these
    comments are what it hands to the library's save, and it reports success
    exactly when that save raised nothing. *)
Theorem set_cover_ogg_drops_legacy_pair
  (lib : Library) (w : TagIO.World) (image : string) (data : list Byte.byte)
  (opus : bool) (tags : option (gmap string (list string))) :
  TagIO.disk w !! image = Some data ->
  TagIO.raw (TagIO.self w) = Some (ROgg opus tags) ->
  exists m,
    TagIO.raw (TagIO.self (snd (TagIO.set_cover lib image w)))
    = Some (ROgg opus (Some m)) /\
    m !! "coverart" = None /\
    m !! "coverartmime" = None /\
    m !! "metadata_block_picture"
    = Some [b64encode lib
              (picture_write lib
                 (mkPicture 3 (TagIO.cover_mime lib image) "cover" data))] /\
    (forall k, k <> "coverart" -> k <> "coverartmime" ->
               k <> "metadata_block_picture" ->
               m !! k = default ∅ tags !! k) /\
    TagIO.disk (snd (TagIO.set_cover lib image w))
    = fst (raw_save lib (TagIO.path (TagIO.self w)) (ROgg opus (Some m)) (TagIO.disk w)) /\
    fst (TagIO.set_cover lib image w)
    = Ok (TagIO.report
            (snd (raw_save lib (TagIO.path (TagIO.self w)) (ROgg opus (Some m))
                    (TagIO.disk w)))).
Proof.
  intros Hd Hr.
  rewrite (set_cover_stores lib w image data _ _ Hd Hr eq_refl).
  eexists. split; [reflexivity|]. unfold TagIO.with_picture_comment.
  split; [|split; [|split; [|split; [|split]]]].
  - rewrite lookup_insert_ne by discriminate.
    rewrite lookup_delete_ne by discriminate. apply lookup_delete_eq.
  - rewrite lookup_insert_ne by discriminate. apply lookup_delete_eq.
  - apply lookup_insert_eq.
  - intros k H1 H2 H3.
    rewrite lookup_insert_ne by congruence.
    rewrite !lookup_delete_ne by congruence. reflexivity.
  - reflexivity.
  - reflexivity.
Qed.

Lemma set_cover_ogg_drops_legacy_pair_witness :
  exists m,
    TagIO.raw (TagIO.self (snd (TagIO.set_cover sample_library "/music/cover.PNG"
       (sample_world None
          (Some (ROgg false (Some {[ "coverart" := ["b2xk"];
                                     "coverartmime" := ["image/gif"];
                                     "title" := ["Song"] ]})))))))
    = Some (ROgg false (Some m)) /\
    m !! "coverart" = None /\ m !! "coverartmime" = None /\
    m !! "title" = Some ["Song"].
Proof.
  destruct (set_cover_ogg_drops_legacy_pair sample_library
              (sample_world None
                 (Some (ROgg false (Some {[ "coverart" := ["b2xk"];
                                            "coverartmime" := ["image/gif"];
                                            "title" := ["Song"] ]}))))
              "/music/cover.PNG" (marker "img") false _ eq_refl eq_refl)
    as (m & Hraw & H1 & H2 & _ & Hrest & _).
  exists m. split; [exact Hraw|]. split; [exact H1|]. split; [exact H2|].
  rewrite Hrest by discriminate. reflexivity.
Defined.




(** C7: the MIME type [set_cover] gives a cover is read off the extension
    table at the lower-cased extension of the image path, so two paths whose
    extensions differ only in case get the same type; it is [image/jpeg]
    whenever the extension is not in the table (in particular when the path
    has none) or the table's type is not an image type; it always is an image
    type, and it is the type stored with the picture. *)
Theorem cover_mime_from_extension
  (lib : Library) (image : string) :
  TagIO.cover_mime lib image
  = match TagIO.table_get (lower (splitext_ext image)) (types_map lib) with
    | Some mime => if startswith mime "image/" then mime else "image/jpeg"
    | None => "image/jpeg"
    end /\
  (forall other,
     lower (splitext_ext other) = lower (splitext_ext image) ->
     TagIO.cover_mime lib other = TagIO.cover_mime lib image) /\
  (TagIO.table_get (lower (splitext_ext image)) (types_map lib) = None ->
   TagIO.cover_mime lib image = "image/jpeg") /\
  startswith (TagIO.cover_mime lib image) "image/" = true /\
  (forall w data pics c,
     TagIO.disk w !! image = Some data ->
     TagIO.raw (TagIO.self w) = Some (RFLAC pics c) ->
     TagIO.raw (TagIO.self (snd (TagIO.set_cover lib image w)))
     = Some (RFLAC [mkPicture 3 (TagIO.cover_mime lib image) "cover" data] c)).
Proof.
  assert (Hchar : forall p,
    TagIO.cover_mime lib p
    = match TagIO.table_get (lower (splitext_ext p)) (types_map lib) with
      | Some mime => if startswith mime "image/" then mime else "image/jpeg"
      | None => "image/jpeg"
      end).
  { intros p. unfold TagIO.cover_mime, TagIO.guess_type.
    destruct (TagIO.table_get _ _) as [mime|]; [|reflexivity].
    destruct (String.eqb_spec mime "") as [->|_]; [reflexivity|].
    destruct (startswith mime "image/"); reflexivity. }
  split; [apply Hchar|]. split; [|split; [|split]].
  - intros other Hext. rewrite !Hchar, Hext. reflexivity.
  - intros Hnone. rewrite Hchar, Hnone. reflexivity.
  - rewrite Hchar. destruct (TagIO.table_get _ _) as [mime|]; [|reflexivity].
    destruct (startswith mime "image/") eqn:Hm; [exact Hm|reflexivity].
  - intros w data pics c Hd Hr.
    rewrite (set_cover_stores lib w image data _ _ Hd Hr eq_refl). reflexivity.
Qed.

Lemma cover_mime_from_extension_witness :
  TagIO.cover_mime sample_library "/art/Front.PNG"
  = TagIO.cover_mime sample_library "/music/cover.png" /\
  TagIO.cover_mime sample_library "/music/cover.png" = "image/png" /\
  TagIO.cover_mime sample_library "/music/cover.tiff" = "image/jpeg" /\
  TagIO.cover_mime sample_library "/music/cover" = "image/jpeg" /\
  TagIO.cover_mime sample_library "/music/notes.TXT" = "image/jpeg".
Proof.
  destruct (cover_mime_from_extension sample_library "/music/cover.png")
    as (Hpng & Hcase & _).
  destruct (cover_mime_from_extension sample_library "/music/cover.tiff")
    as (_ & _ & Htiff & _).
  destruct (cover_mime_from_extension sample_library "/music/cover")
    as (_ & _ & Hnone & _).
  destruct (cover_mime_from_extension sample_library "/music/notes.TXT")
    as (Htxt & _).
  split; [apply Hcase; reflexivity|].
  split; [exact Hpng|].
  split; [apply Htiff; reflexivity|].
  split; [apply Hnone; reflexivity|exact Htxt].
Defined.

(** ** The session controller *)

Lemma prompt_enter_returns_seed (prompt initial : string) (more : list key) :
  Tui.prompt_input prompt initial (KEnter :: more) = Some (Some initial, more).
Proof.
  unfold Tui.prompt_input. simpl.
  rewrite string_of_list_ascii_of_string. reflexivity.
Qed.

Lemma catalog_index_in_range (idx : Z) (k label : string) :
  (0 <= idx)%Z ->
  DEFAULT_FIELDS !! Z.to_nat idx = Some (k, label) ->
  (idx <? 0)%Z || (Z.of_nat (List.length DEFAULT_FIELDS) <=? idx)%Z = false.
Proof.
  intros Hpos Hk. apply lookup_lt_Some in Hk.
  apply orb_false_iff. split.
  - apply Z.ltb_ge. exact Hpos.
  - apply Z.leb_gt. lia.
Qed.

(** C9: once the prompt of [edit_field], seeded with the field's current
    value, has resolved: on a cancellation or on a value equal to the current
    one the whole session state, the record and the dirty flag included, is
    what it was; on a different value that field holds the new value, the
    other fields keep theirs and the state is dirty.  Confirming the prompt
    without typing returns the seed, so it changes nothing. *)
Theorem edit_field_applies_changed_value
  (s : Tui.t) (idx : Z) (k label : string) (keys rest : list key)
  (res : option string) :
  (0 <= idx)%Z ->
  DEFAULT_FIELDS !! Z.to_nat idx = Some (k, label) ->
  Tui.prompt_input (label +:+ ": ") (default "" (Tui.tags s !! k)) keys
  = Some (res, rest) ->
  (res = None \/ res = Some (default "" (Tui.tags s !! k)) ->
   Tui.edit_field idx keys s = Some (s, rest)) /\
  (forall v, res = Some v -> v <> default "" (Tui.tags s !! k) ->
     exists s',
       Tui.edit_field idx keys s = Some (s', rest) /\
       Tui.tags s' !! k = Some v /\
       (forall k', k' <> k -> Tui.tags s' !! k' = Tui.tags s !! k') /\
       Tui.dirty s' = true /\
       Tui.current_path s' = Tui.current_path s /\
       Tui.browser s' = Tui.browser s) /\
  (forall more, Tui.edit_field idx (KEnter :: more) s = Some (s, more)) /\
  (forall more, Tui.edit_field idx (KEsc :: more) s = Some (s, more)).
Proof.
  intros Hpos Hk Hprompt.
  assert (Hin := catalog_index_in_range idx k label Hpos Hk).
  split; [|split; [|split]].
  - intros Hres. unfold Tui.edit_field. rewrite Hin, Hk, Hprompt.
    destruct Hres as [->| ->]; [reflexivity|].
    rewrite String.eqb_refl. reflexivity.
  - intros v -> Hv. exists (Tui.set_tag k v s).
    split.
    + unfold Tui.edit_field. rewrite Hin, Hk, Hprompt.
      destruct (String.eqb_spec v (default "" (Tui.tags s !! k))); [contradiction|].
      reflexivity.
    + simpl. split; [apply lookup_insert_eq|].
      split; [|auto].
      intros k' Hk'. apply lookup_insert_ne. congruence.
  - intros more. unfold Tui.edit_field. rewrite Hin, Hk.
    rewrite prompt_enter_returns_seed, String.eqb_refl. reflexivity.
  - intros more. unfold Tui.edit_field. rewrite Hin, Hk. reflexivity.
Qed.

Lemma edit_field_applies_changed_value_witness :
  Tui.edit_field 1 [KEnd; KEnter] sample_tui = Some (sample_tui, []) /\
  exists s',
    Tui.edit_field 1 [KBackspace; KBackspace; KBackspace;
                      KChar "N" true; KChar "e" true; KChar "w" true; KEnter]
      sample_tui = Some (s', []) /\
    Tui.tags s' !! "artist" = Some "New" /\ Tui.dirty s' = true.
Proof.
  split.
  - destruct (edit_field_applies_changed_value sample_tui 1 "artist" "Artist"
                [KEnd; KEnter] [] (Some "Old") ltac:(lia) eq_refl eq_refl)
      as (Hsame & _).
    apply Hsame. right. reflexivity.
  - destruct (edit_field_applies_changed_value sample_tui 1 "artist" "Artist"
                [KBackspace; KBackspace; KBackspace;
                 KChar "N" true; KChar "e" true; KChar "w" true; KEnter]
                [] (Some "New") ltac:(lia) eq_refl eq_refl)
      as (_ & Hnew & _).
    destruct (Hnew "New" eq_refl ltac:(discriminate))
      as (s' & Hrun & Htag & _ & Hdirty & _).
    exists s'. split; [exact Hrun|]. split; [exact Htag|exact Hdirty].
Defined.

(** ** The file browser *)

Section Browser.
Context (fs : FileSystem).

Lemma clamp_in_range (sel : Z) (n : nat) :
  (0 <= sel)%Z ->
  (n = 0%nat -> FileBrowser.clamp sel n = 0%Z) /\
  (n <> 0%nat -> (0 <= FileBrowser.clamp sel n < Z.of_nat n)%Z).
Proof.
  intros Hsel. unfold FileBrowser.clamp.
  destruct (Z.leb_spec (Z.of_nat n) sel); split; intros; lia.
Qed.

Lemma in_range_of_length (b : FileBrowser.t) :
  (List.length (FileBrowser.entries b) = 0%nat -> FileBrowser.selection b = 0%Z) ->
  (List.length (FileBrowser.entries b) <> 0%nat ->
   (0 <= FileBrowser.selection b
    < Z.of_nat (List.length (FileBrowser.entries b)))%Z) ->
  FileBrowser.in_range b.
Proof.
  intros H0 H1. split.
  - intros He. apply H0. rewrite He. reflexivity.
  - intros He. apply H1. destruct (FileBrowser.entries b); [congruence|discriminate].
Qed.

Lemma in_range_nonneg (b : FileBrowser.t) :
  FileBrowser.in_range b -> (0 <= FileBrowser.selection b)%Z.
Proof.
  intros [H0 H1]. destruct (FileBrowser.entries b) as [|x l] eqn:He.
  - rewrite H0 by reflexivity. lia.
  - apply H1. discriminate.
Qed.

Lemma in_range_zero (b : FileBrowser.t) :
  FileBrowser.selection b = 0%Z -> FileBrowser.in_range b.
Proof.
  intros Hs. split; [auto|].
  intros He. rewrite Hs. destruct (FileBrowser.entries b); [congruence|].
  simpl. lia.
Qed.

(** [refresh] either raises before assigning anything or clamps. *)
Lemma refresh_cases (b : FileBrowser.t) :
  (exists e, FileBrowser.refresh fs b = (Raise e, b)) \/
  (exists items,
     FileBrowser.refresh fs b =
       (Ok tt, FileBrowser.mk (FileBrowser.root b) items
                 (FileBrowser.clamp (FileBrowser.selection b) (List.length items))
                 (FileBrowser.exts b))).
Proof.
  unfold FileBrowser.refresh.
  destruct (listdir fs (FileBrowser.root b)); eauto.
Qed.

Lemma refresh_clamps (b : FileBrowser.t) :
  (0 <= FileBrowser.selection b)%Z ->
  fst (FileBrowser.refresh fs b) = Ok tt ->
  FileBrowser.in_range (snd (FileBrowser.refresh fs b)).
Proof.
  intros Hsel Hok.
  destruct (refresh_cases b) as [[e Hr]|[items Hr]]; rewrite Hr in *.
  - discriminate Hok.
  - simpl. destruct (clamp_in_range (FileBrowser.selection b) (List.length items) Hsel).
    apply in_range_of_length; simpl; assumption.
Qed.

Lemma refresh_in_range (b : FileBrowser.t) :
  FileBrowser.in_range b -> FileBrowser.in_range (snd (FileBrowser.refresh fs b)).
Proof.
  intros Hb.
  destruct (refresh_cases b) as [[e Hr]|[items Hr]].
  - rewrite Hr. exact Hb.
  - apply refresh_clamps; [apply in_range_nonneg; exact Hb|].
    rewrite Hr. reflexivity.
Qed.

(** Moving to another directory: the selection is reset before [refresh]. *)
Lemma reset_refresh_in_range (b : FileBrowser.t) (r : string) :
  FileBrowser.in_range
    (snd (FileBrowser.refresh fs
            (FileBrowser.mk r (FileBrowser.entries b) 0 (FileBrowser.exts b)))).
Proof.
  apply refresh_in_range. apply in_range_zero. reflexivity.
Qed.

Lemma moved_in_range (b : FileBrowser.t) (sel : Z) :
  (0 <= sel < Z.max 1 (Z.of_nat (List.length (FileBrowser.entries b))))%Z ->
  FileBrowser.in_range (snd (FileBrowser.set_selection sel b)).
Proof.
  intros Hsel. apply in_range_of_length; simpl; intros Hl; lia.
Qed.

Lemma up_in_range (b : FileBrowser.t) :
  FileBrowser.in_range (snd (FileBrowser.up b)).
Proof.
  unfold FileBrowser.up. run_monad. apply moved_in_range.
  apply Z.mod_pos_bound. lia.
Qed.

Lemma down_in_range (b : FileBrowser.t) :
  FileBrowser.in_range (snd (FileBrowser.down b)).
Proof.
  unfold FileBrowser.down. run_monad. apply moved_in_range.
  apply Z.mod_pos_bound. lia.
Qed.

Lemma enter_in_range (b : FileBrowser.t) :
  FileBrowser.in_range b -> FileBrowser.in_range (snd (FileBrowser.enter fs b)).
Proof.
  intros Hb. unfold FileBrowser.enter.
  unfold bind at 1, get_state.
  destruct (FileBrowser.entries b) as [|x l] eqn:He; [exact Hb|].
  destruct (py_index (x :: l) (FileBrowser.selection b)) as [name|]; [|exact Hb].
  destruct (endswith name "/"); [|exact Hb].
  unfold FileBrowser.set_root, FileBrowser.set_selection. run_monad.
  rewrite He.
  pose proof (reset_refresh_in_range b
                (abspath fs (path_join (FileBrowser.root b) (rstrip_char "/" name))))
    as Hreset.
  rewrite He in Hreset.
  destruct (FileBrowser.refresh fs _) as [[[]|e] b']; exact Hreset.
Qed.

Lemma parent_in_range (b : FileBrowser.t) :
  FileBrowser.in_range b -> FileBrowser.in_range (snd (FileBrowser.parent fs b)).
Proof.
  intros Hb. unfold FileBrowser.parent.
  unfold bind at 1, get_state.
  destruct (negb _ && negb _); [|exact Hb].
  unfold FileBrowser.set_root, FileBrowser.set_selection. run_monad.
  pose proof (reset_refresh_in_range b (dirname fs (FileBrowser.root b))) as Hreset.
  destruct (FileBrowser.refresh fs _) as [[[]|e] b']; exact Hreset.
Qed.

Lemma list_index_lt (x : string) (l : list string) (i : nat) :
  list_index x l = Some i -> (i < List.length l)%nat.
Proof.
  revert i. induction l as [|y l IH]; intros i; simpl; [discriminate|].
  destruct (String.eqb y x).
  - intros [= <-]. lia.
  - destruct (list_index x l) as [j|]; simpl; [|discriminate].
    intros [= <-]. specialize (IH j eq_refl). lia.
Qed.

Lemma sync_in_range (b : FileBrowser.t) (picked : string) :
  FileBrowser.in_range b ->
  FileBrowser.in_range (snd (Tui.sync_browser fs picked b)).
Proof.
  intros Hb. unfold Tui.sync_browser, FileBrowser.set_root. run_monad.
  pose proof (refresh_in_range
                (FileBrowser.mk (dirname fs picked) (FileBrowser.entries b)
                   (FileBrowser.selection b) (FileBrowser.exts b)) Hb) as Hre.
  destruct (FileBrowser.refresh fs _) as [[[]|e] b']; simpl in *; [|exact Hre].
  destruct (list_index (basename picked) (FileBrowser.entries b')) as [i|] eqn:Hi;
    [|exact Hre].
  apply list_index_lt in Hi. apply moved_in_range. lia.
Qed.

Lemma init_in_range (start : string) (allowed : option (gset string)) :
  FileBrowser.in_range (snd (FileBrowser.init fs start allowed)).
Proof.
  unfold FileBrowser.init. apply refresh_in_range. apply in_range_zero. reflexivity.
Qed.

Lemma step_in_range (o : browser_op) (b : FileBrowser.t) :
  FileBrowser.in_range b -> FileBrowser.in_range (browser_step fs o b).
Proof.
  intros Hb. destruct o; simpl.
  - apply refresh_in_range, Hb.
  - apply enter_in_range, Hb.
  - apply up_in_range.
  - apply down_in_range.
  - apply parent_in_range, Hb.
  - apply sync_in_range, Hb.
Qed.

End Browser.

(** C10: every browser a session can reach has its selection in range: it
    indexes the entry list when that list is not empty and is 0 when it is;
    each operation keeps this, [up] and [down] move cyclically modulo the
    list length, and a [refresh] that completes brings any non-negative
    selection back into range. *)
Theorem selection_always_in_range :
  (forall b, reachable b ->
     (FileBrowser.entries b = [] -> FileBrowser.selection b = 0%Z) /\
     (FileBrowser.entries b <> [] ->
      (0 <= FileBrowser.selection b
       < Z.of_nat (List.length (FileBrowser.entries b)))%Z)) /\
  (forall fs o b, FileBrowser.in_range b ->
                  FileBrowser.in_range (browser_step fs o b)) /\
  (forall b,
     FileBrowser.selection (snd (FileBrowser.up b))
     = ((FileBrowser.selection b - 1)
        `mod` Z.max 1 (Z.of_nat (List.length (FileBrowser.entries b))))%Z /\
     FileBrowser.selection (snd (FileBrowser.down b))
     = ((FileBrowser.selection b + 1)
        `mod` Z.max 1 (Z.of_nat (List.length (FileBrowser.entries b))))%Z /\
     FileBrowser.entries (snd (FileBrowser.up b)) = FileBrowser.entries b /\
     FileBrowser.entries (snd (FileBrowser.down b)) = FileBrowser.entries b) /\
  (forall fs b, (0 <= FileBrowser.selection b)%Z ->
                fst (FileBrowser.refresh fs b) = Ok tt ->
                FileBrowser.in_range (snd (FileBrowser.refresh fs b))).
Proof.
  split; [|split; [|split]].
  - intros b Hreach. change (FileBrowser.in_range b).
    induction Hreach as [fs start allowed|fs o b _ IH].
    + apply init_in_range.
    + apply step_in_range, IH.
  - apply step_in_range.
  - intros b. repeat split; reflexivity.
  - apply refresh_clamps.
Qed.

Lemma selection_always_in_range_witness :
  FileBrowser.in_range
    (browser_step sample_fs OpUp (snd (FileBrowser.init sample_fs "/music" None))) /\
  FileBrowser.selection
    (browser_step sample_fs OpUp (snd (FileBrowser.init sample_fs "/music" None)))
  = 2%Z /\
  FileBrowser.selection
    (snd (FileBrowser.refresh sample_fs
            (FileBrowser.mk "/music" ["x"; "y"; "z"; "u"; "v"] 4 SUPPORTED_EXTS)))
  = 2%Z /\
  FileBrowser.in_range
    (snd (FileBrowser.refresh sample_fs
            (FileBrowser.mk "/music" ["x"; "y"; "z"; "u"; "v"] 4 SUPPORTED_EXTS))).
Proof.
  destruct selection_always_in_range as (Hreach & Hstep & _ & Hclamp).
  split.
  - apply Hreach. apply reach_step. apply reach_init.
  - split; [reflexivity|]. split; [reflexivity|].
    apply Hclamp; [simpl; lia|reflexivity].
Defined.

(** * Further properties of the facade *)

Section FacadeComposition.
Context (lib : Library).

Lemma get_of_absent (w : TagIO.World) (a : Easy) (key : string) :
  TagIO.audio (TagIO.self w) = Some a ->
  easy_tags a !! key = None ->
  TagIO.get lib key w = (Ok [], w).
Proof.
  intros Ha Hk. destruct (truth lib a) eqn:Ht.
  - rewrite (get_truthy lib w a key Ha Ht), Hk.
    destruct (getitem_error lib a key); reflexivity.
  - apply get_falsy. unfold TagIO.truthy. rewrite Ha. exact Ht.
Qed.

End FacadeComposition.

(** X1: on a true tag object whose format accepts the assignment, [set]
    with a non-empty [v] followed by [get] of the same key returns, as a
    list of strings, what the library stored for the assignment of [[v]],
    provided the updated object is still true and its lookup raises
    nothing.  That is [[v]] itself exactly when the library's stored value
    reads back as [[v]]: an easy view that rewrites the value gives back the
    rewritten text. *)
Theorem get_after_set
  (lib : Library) (w : TagIO.World) (a : Easy) (key v : string) :
  TagIO.audio (TagIO.self w) = Some a ->
  truth lib a = true ->
  v <> "" ->
  setitem_error lib a key [v] = None ->
  let a' := mkEasy (easy_class a) (<[key := stored lib a key [v]]> (easy_tags a)) in
  truth lib a' = true ->
  getitem_error lib a' key = None ->
  (TagIO.set lib key v ;;; TagIO.get lib key) w
  = (Ok (normalize_value (stored lib a key [v])), TagIO.set_audio a' w) /\
  (fst ((TagIO.set lib key v ;;; TagIO.get lib key) w) = Ok [v] <->
   normalize_value (stored lib a key [v]) = [v]).
Proof.
  intros Ha Ht Hv Hs a' Ht' Hg.
  assert (Hrun : (TagIO.set lib key v ;;; TagIO.get lib key) w
                 = (Ok (normalize_value (stored lib a key [v])), TagIO.set_audio a' w)).
  { unfold bind.
    rewrite (set_value_truthy lib w a key v Ha Ht Hv), Hs. fold a'.
    rewrite (get_truthy lib (TagIO.set_audio a' w) a' key eq_refl Ht'), Hg.
    subst a'. cbn [easy_tags]. rewrite lookup_insert_eq. reflexivity. }
  split; [exact Hrun|].
  rewrite Hrun. cbn [fst]. split; [intros [= H]; exact H|intros ->; reflexivity].
Qed.

Lemma get_after_set_witness :
  fst ((TagIO.set sample_library "artist" "New" ;;; TagIO.get sample_library "artist")
         (sample_world (Some sample_easy) None)) = Ok ["New"] /\
  fst ((TagIO.set sample_library "genre" "17" ;;; TagIO.get sample_library "genre")
         (sample_world (Some sample_easy) None)) = Ok ["Rock"].
Proof.
  destruct (get_after_set sample_library (sample_world (Some sample_easy) None)
              sample_easy "artist" "New" eq_refl eq_refl ltac:(discriminate)
              eq_refl eq_refl eq_refl) as [Hartist _].
  destruct (get_after_set sample_library (sample_world (Some sample_easy) None)
              sample_easy "genre" "17" eq_refl eq_refl ltac:(discriminate)
              eq_refl eq_refl eq_refl) as [Hgenre _].
  rewrite Hartist, Hgenre. split; reflexivity.
Defined.

(** X2: on a true tag object, [set] with the empty string followed by [get]
    of the same key returns the empty list, whatever the key held before,
    when the lookup and the deletion raise nothing. *)
Theorem get_after_clear
  (lib : Library) (w : TagIO.World) (a : Easy) (key : string) :
  TagIO.audio (TagIO.self w) = Some a ->
  truth lib a = true ->
  getitem_error lib a key = None ->
  delitem_error lib a key = None ->
  fst ((TagIO.set lib key "" ;;; TagIO.get lib key) w) = Ok [].
Proof.
  intros Ha Ht Hg Hd. unfold bind.
  rewrite (set_empty_truthy lib w a key Ha Ht Hg Hd).
  rewrite (get_of_absent lib (TagIO.set_audio _ w)
             (mkEasy (easy_class a) (delete key (easy_tags a))) key
             eq_refl (lookup_delete_eq _ _)).
  reflexivity.
Qed.

Lemma get_after_clear_witness :
  fst ((TagIO.set sample_library "comment" "" ;;; TagIO.get sample_library "comment")
         (sample_world (Some sample_flac) None)) = Ok [].
Proof.
  apply (get_after_clear sample_library (sample_world (Some sample_flac) None)
           sample_flac "comment"); reflexivity.
Defined.

(** * Further properties of the cover codecs *)

Section CoverComposition.
Context (lib : Library).

Lemma set_cover_missing_image (w : TagIO.World) (image : string) :
  TagIO.disk w !! image = None ->
  TagIO.set_cover lib image w
  = (Ok (false, Some ("[Errno 2] No such file or directory: '" +:+ image +:+ "'")), w).
Proof.
  intros Hd. unfold TagIO.set_cover, TagIO.read_image. run_monad.
  rewrite Hd. reflexivity.
Qed.

Lemma set_cover_fallback_error (w : TagIO.World) (image : string)
  (data : list Byte.byte) (e : string) :
  TagIO.disk w !! image = Some data ->
  (TagIO.raw (TagIO.self w) = None \/
   exists i, TagIO.raw (TagIO.self w) = Some (RTagged i)) ->
  id3_load lib (TagIO.path (TagIO.self w)) (TagIO.disk w) = ID3Error e ->
  TagIO.set_cover lib image w
  = (Ok (false, Some "Unsupported format for cover setting"), w).
Proof.
  intros Hd Hr Hl.
  unfold TagIO.set_cover, TagIO.read_image, TagIO.set_cover_id3, TagIO.write.
  run_monad. rewrite Hd. simpl.
  destruct Hr as [Hr|[i Hr]]; rewrite Hr, Hl; reflexivity.
Qed.

(** Every way [set_cover] can end, by the world it leaves. *)
Lemma set_cover_shape (w : TagIO.World) (image : string) :
  exists res d,
    TagIO.set_cover lib image w = (Ok res, TagIO.set_disk d w) \/
    exists r, TagIO.set_cover lib image w
              = (Ok res, TagIO.set_disk d (TagIO.set_raw r w)).
Proof.
  destruct (TagIO.disk w !! image) as [data|] eqn:Hd.
  - destruct (TagIO.raw (TagIO.self w)) as [[pics c|tags|opus tags|i]|] eqn:Hr.
    + do 2 eexists. right. eexists.
      apply (set_cover_stores lib w image data _ _ Hd Hr eq_refl).
    + do 2 eexists. right. eexists.
      apply (set_cover_stores lib w image data _ _ Hd Hr eq_refl).
    + do 2 eexists. right. eexists.
      apply (set_cover_stores lib w image data _ _ Hd Hr eq_refl).
    + destruct (id3_load lib (TagIO.path (TagIO.self w)) (TagIO.disk w))
        as [id3| |e] eqn:Hl.
      * do 2 eexists. left.
        apply (set_cover_fallback lib w image data id3 Hd); [eauto|].
        rewrite Hl. reflexivity.
      * do 2 eexists. left.
        apply (set_cover_fallback lib w image data [] Hd); [eauto|].
        rewrite Hl. reflexivity.
      * exists (false, Some "Unsupported format for cover setting"), (TagIO.disk w).
        left. rewrite (set_cover_fallback_error w image data e Hd); [|eauto|exact Hl].
        destruct w; reflexivity.
    + destruct (id3_load lib (TagIO.path (TagIO.self w)) (TagIO.disk w))
        as [id3| |e] eqn:Hl.
      * do 2 eexists. left.
        apply (set_cover_fallback lib w image data id3 Hd); [eauto|].
        rewrite Hl. reflexivity.
      * do 2 eexists. left.
        apply (set_cover_fallback lib w image data [] Hd); [eauto|].
        rewrite Hl. reflexivity.
      * exists (false, Some "Unsupported format for cover setting"), (TagIO.disk w).
        left. rewrite (set_cover_fallback_error w image data e Hd); [|eauto|exact Hl].
        destruct w; reflexivity.
  - exists (false, Some ("[Errno 2] No such file or directory: '" +:+ image +:+ "'")),
      (TagIO.disk w).
    left. rewrite (set_cover_missing_image w image Hd). destruct w; reflexivity.
Qed.

Lemma bind_get_state {S A : Type} (k : S -> M S A) (s : S) :
  (x <- get_state ;; k x) s = k s s.
Proof. reflexivity. Qed.

Lemma clear_cover_shape (w : TagIO.World) :
  exists res d,
    TagIO.clear_cover lib w = (Ok res, TagIO.set_disk d w) \/
    exists r, TagIO.clear_cover lib w
              = (Ok res, TagIO.set_disk d (TagIO.set_raw r w)).
Proof.
  destruct (TagIO.raw (TagIO.self w)) as [[pics c|tags|opus [m|]|id3]|] eqn:Hr;
    try (do 2 eexists; right; eexists;
         unfold TagIO.clear_cover; rewrite bind_get_state, Hr;
         apply store_and_save_reported).
  - exists (true, None), (TagIO.disk w). left.
    unfold TagIO.clear_cover. rewrite bind_get_state, Hr.
    destruct w; reflexivity.
  - unfold TagIO.clear_cover.
    destruct (id3_load lib (TagIO.path (TagIO.self w)) (TagIO.disk w))
      as [loaded| |msg] eqn:Hl.
    + destruct (id3_save lib (TagIO.path (TagIO.self w)) (TagIO.del_apics loaded)
                  (TagIO.disk w)) as [d [e|]] eqn:Hs.
      * exists (false, Some e), d. left. rewrite bind_get_state, Hr, Hl.
        unfold TagIO.write. run_monad. rewrite Hs. reflexivity.
      * exists (true, None), d. left. rewrite bind_get_state, Hr, Hl.
        unfold TagIO.write. run_monad. rewrite Hs. reflexivity.
    + exists (true, None), (TagIO.disk w). left. rewrite bind_get_state, Hr, Hl.
      destruct w; reflexivity.
    + exists (false, Some msg), (TagIO.disk w). left. rewrite bind_get_state, Hr, Hl.
      destruct w; reflexivity.
  - exists (false, Some "Unsupported format for cover removal"), (TagIO.disk w).
    left. unfold TagIO.clear_cover. rewrite bind_get_state, Hr.
    destruct w; reflexivity.
Qed.

Lemma cover_mime_not_empty (image : string) :
  TagIO.mime_or_any (TagIO.cover_mime lib image) = TagIO.cover_mime lib image.
Proof.
  unfold TagIO.mime_or_any, TagIO.cover_mime.
  destruct (TagIO.guess_type lib image) as [mime|]; [|reflexivity].
  remember (startswith mime "image/") as img.
  destruct (String.eqb mime "") eqn:He; [reflexivity|].
  destruct img; simpl; [|reflexivity].
  rewrite He. reflexivity.
Qed.

Lemma cleared_has_no_cover (p : string) (a : option Easy) (r : Raw)
  (fmt : string) (ro : bool) :
  (forall i, r <> RTagged i) ->
  TagIO.get_cover_info lib (TagIO.mk p a (Some (TagIO.cleared r)) fmt ro) = None.
Proof.
  intros Hr. unfold TagIO.get_cover_info.
  destruct r as [pics c|tags|opus [m|]|i]; cbn [TagIO.raw TagIO.cleared].
  - reflexivity.
  - rewrite lookup_insert_eq. reflexivity.
  - rewrite lookup_delete_ne by discriminate.
    rewrite lookup_delete_ne by discriminate.
    rewrite lookup_delete_eq.
    rewrite lookup_delete_ne by discriminate.
    rewrite lookup_delete_eq. reflexivity.
  - reflexivity.
  - exfalso. apply (Hr i). reflexivity.
Qed.

End CoverComposition.

Section CoverReadBack.
Context (lib : Library).

Lemma get_cover_info_by_raw (io io' : TagIO.t) :
  TagIO.raw io = TagIO.raw io' ->
  TagIO.get_cover_info lib io = TagIO.get_cover_info lib io'.
Proof. unfold TagIO.get_cover_info. intros ->. reflexivity. Qed.

End CoverReadBack.

(** X3: [set_cover] and [clear_cover] never raise (every failure comes back
    as a returned result), and neither changes the handle's text-tag object
    or its path. *)
Theorem cover_operations_keep_text_view
  (lib : Library) (w : TagIO.World) (image : string) :
  (exists res, fst (TagIO.set_cover lib image w) = Ok res) /\
  TagIO.audio (TagIO.self (snd (TagIO.set_cover lib image w)))
  = TagIO.audio (TagIO.self w) /\
  TagIO.path (TagIO.self (snd (TagIO.set_cover lib image w)))
  = TagIO.path (TagIO.self w) /\
  (exists res, fst (TagIO.clear_cover lib w) = Ok res) /\
  TagIO.audio (TagIO.self (snd (TagIO.clear_cover lib w)))
  = TagIO.audio (TagIO.self w) /\
  TagIO.path (TagIO.self (snd (TagIO.clear_cover lib w)))
  = TagIO.path (TagIO.self w).
Proof.
  destruct (set_cover_shape lib w image) as (res & d & [Hs|[r Hs]]);
    destruct (clear_cover_shape lib w) as (res' & d' & [Hc|[r' Hc]]);
    rewrite Hs, Hc; simpl; eauto 10.
Qed.

(** X4: after [clear_cover] on a FLAC, MP4 or Ogg handle, the same handle
    reports no cover, whether or not the save succeeded; on any other
    recognised file the handle's own cover summary is what it was before,
    because only the file's ID3 tag is rewritten. *)
Theorem cover_info_after_clear_cover
  (lib : Library) (w : TagIO.World) (r : Raw) :
  TagIO.raw (TagIO.self w) = Some r ->
  ((forall i, r <> RTagged i) ->
   TagIO.has_cover lib (TagIO.self (snd (TagIO.clear_cover lib w))) = false) /\
  (forall i, r = RTagged i ->
   TagIO.get_cover_info lib (TagIO.self (snd (TagIO.clear_cover lib w)))
   = TagIO.get_cover_info lib (TagIO.self w)).
Proof.
  intros Hr.
  pose proof (clear_cover_raw lib w) as Hraw. rewrite Hr in Hraw. simpl in Hraw.
  split.
  - intros Hkind. unfold TagIO.has_cover.
    rewrite (get_cover_info_by_raw lib _
               (TagIO.mk "" None (Some (TagIO.cleared r)) "" false) Hraw).
    rewrite cleared_has_no_cover by exact Hkind. reflexivity.
  - intros i ->. apply get_cover_info_by_raw. rewrite Hraw, Hr. reflexivity.
Qed.

Lemma cover_info_after_clear_cover_witness :
  TagIO.has_cover sample_library
    (TagIO.self (snd (TagIO.clear_cover sample_library
       (sample_world None
          (Some (RFLAC [mkPicture 3 "image/png" "cover" (marker "abc")] ∅))))))
  = false.
Proof.
  apply (cover_info_after_clear_cover sample_library
           (sample_world None
              (Some (RFLAC [mkPicture 3 "image/png" "cover" (marker "abc")] ∅)))
           _ eq_refl).
  discriminate.
Defined.

(** X5: what the same handle reports right after [set_cover] with a readable
    image.  FLAC: the stored MIME type and the image's length.  MP4:
    [image/png] for a PNG and [image/jpeg] for every other type, with the
    image's length.  Ogg: no MIME type, and the length of the decoded
    picture block (not of the image), or "unreadable" when the stored text
    does not decode.  Any other file: the summary it had before. *)
Theorem cover_info_after_set_cover
  (lib : Library) (w : TagIO.World) (image : string) (data : list Byte.byte) :
  TagIO.disk w !! image = Some data ->
  (forall pics c,
     TagIO.raw (TagIO.self w) = Some (RFLAC pics c) ->
     TagIO.get_cover_info lib (TagIO.self (snd (TagIO.set_cover lib image w)))
     = Some ("FLAC picture: " +:+ TagIO.cover_mime lib image
             +:+ TagIO.bytes_suffix (List.length data))) /\
  (forall tags,
     TagIO.raw (TagIO.self w) = Some (RMP4 tags) ->
     TagIO.get_cover_info lib (TagIO.self (snd (TagIO.set_cover lib image w)))
     = Some ("MP4 cover: image/"
             +:+ (if String.eqb (TagIO.cover_mime lib image) "image/png"
                  then "png" else "jpeg")
             +:+ TagIO.bytes_suffix (List.length data))) /\
  (forall opus tags,
     TagIO.raw (TagIO.self w) = Some (ROgg opus tags) ->
     TagIO.get_cover_info lib (TagIO.self (snd (TagIO.set_cover lib image w)))
     = match b64decode lib
               (b64encode lib
                  (picture_write lib
                     (mkPicture 3 (TagIO.cover_mime lib image) "cover" data))) with
       | Some block =>
           Some ("Vorbis/Opus picture:" +:+ TagIO.bytes_suffix (List.length block))
       | None => Some "Vorbis/Opus picture: (unreadable)"
       end) /\
  (forall i,
     TagIO.raw (TagIO.self w) = Some (RTagged i) ->
     TagIO.get_cover_info lib (TagIO.self (snd (TagIO.set_cover lib image w)))
     = TagIO.get_cover_info lib (TagIO.self w)).
Proof.
  intros Hd. split; [|split; [|split]].
  - intros pics c Hr.
    rewrite (set_cover_stores lib w image data _ _ Hd Hr eq_refl).
    unfold TagIO.get_cover_info. cbn [snd TagIO.self TagIO.set_disk TagIO.set_raw
      TagIO.raw TagIO.front_cover pic_mime pic_data].
    rewrite cover_mime_not_empty. reflexivity.
  - intros tags Hr.
    rewrite (set_cover_stores lib w image data _ _ Hd Hr eq_refl).
    unfold TagIO.get_cover_info. cbn [snd TagIO.self TagIO.set_disk TagIO.set_raw
      TagIO.raw].
    rewrite lookup_insert_eq.
    destruct (String.eqb (TagIO.cover_mime lib image) "image/png"); reflexivity.
  - intros opus tags Hr.
    rewrite (set_cover_stores lib w image data _ _ Hd Hr eq_refl).
    unfold TagIO.get_cover_info, TagIO.with_picture_comment.
    cbn [snd TagIO.self TagIO.set_disk TagIO.set_raw TagIO.raw].
    rewrite lookup_insert_eq. reflexivity.
  - intros i Hr. apply get_cover_info_by_raw.
    destruct (id3_load lib (TagIO.path (TagIO.self w)) (TagIO.disk w))
      as [id3| |e] eqn:Hl.
    + rewrite (set_cover_fallback lib w image data id3 Hd);
        [reflexivity|eauto|rewrite Hl; reflexivity].
    + rewrite (set_cover_fallback lib w image data [] Hd);
        [reflexivity|eauto|rewrite Hl; reflexivity].
    + rewrite (set_cover_fallback_error lib w image data e Hd);
        [reflexivity|eauto|exact Hl].
Qed.

Lemma cover_info_after_set_cover_witness :
  TagIO.get_cover_info sample_library
    (TagIO.self (snd (TagIO.set_cover sample_library "/music/cover.PNG"
                        (sample_world None (Some (RMP4 None))))))
  = Some "MP4 cover: image/png (3 bytes)".
Proof.
  destruct (cover_info_after_set_cover sample_library
              (sample_world None (Some (RMP4 None))) "/music/cover.PNG"
              (marker "img") eq_refl) as (_ & Hmp4 & _).
  rewrite (Hmp4 None eq_refl). reflexivity.
Defined.

(** X6: when the image file does not exist, [set_cover] returns a failure
    with a reason and changes neither the handle nor any file, whatever the
    kind of the audio file. *)
Theorem set_cover_without_image_changes_nothing
  (lib : Library) (w : TagIO.World) (image : string) :
  TagIO.disk w !! image = None ->
  exists reason,
    TagIO.set_cover lib image w = (Ok (false, Some reason), w).
Proof.
  intros Hd. eexists. apply (set_cover_missing_image lib w image Hd).
Qed.

Lemma set_cover_without_image_changes_nothing_witness :
  exists reason,
    TagIO.set_cover sample_library "/music/none.png"
      (sample_world None (Some (RFLAC [] ∅)))
    = (Ok (false, Some reason), sample_world None (Some (RFLAC [] ∅))).
Proof.
  apply (set_cover_without_image_changes_nothing sample_library
           (sample_world None (Some (RFLAC [] ∅))) "/music/none.png").
  reflexivity.
Defined.

(** X7: on a file that is not FLAC, MP4 or Ogg, a file the library does not
    recognise included, [set_cover] with a readable image takes the ID3
    fallback: it saves the file's frames without their picture frames plus
    the new one, and returns success when that save raises nothing.  When
    loading or saving raises, it returns the fixed reason "Unsupported
    format for cover setting" instead of the exception's text. *)
Theorem set_cover_fallback_writes_id3
  (lib : Library) (w : TagIO.World) (image : string) (data : list Byte.byte) :
  TagIO.disk w !! image = Some data ->
  (TagIO.raw (TagIO.self w) = None \/
   exists i, TagIO.raw (TagIO.self w) = Some (RTagged i)) ->
  (forall id3,
     TagIO.loaded_frames (id3_load lib (TagIO.path (TagIO.self w)) (TagIO.disk w))
     = Some id3 ->
     let wrote := id3_save lib (TagIO.path (TagIO.self w))
                    (TagIO.with_front_cover id3 (TagIO.cover_mime lib image) data)
                    (TagIO.disk w) in
     snd (TagIO.set_cover lib image w) = TagIO.set_disk (fst wrote) w /\
     (snd wrote = None -> fst (TagIO.set_cover lib image w) = Ok (true, None)) /\
     (forall e, snd wrote = Some e ->
        fst (TagIO.set_cover lib image w)
        = Ok (false, Some "Unsupported format for cover setting"))) /\
  (forall e,
     id3_load lib (TagIO.path (TagIO.self w)) (TagIO.disk w) = ID3Error e ->
     TagIO.set_cover lib image w
     = (Ok (false, Some "Unsupported format for cover setting"), w)).
Proof.
  intros Hd Hr. split.
  - intros id3 Hl. simpl.
    rewrite (set_cover_fallback lib w image data id3 Hd Hr Hl). simpl.
    split; [reflexivity|]. split.
    + intros ->. reflexivity.
    + intros e ->. reflexivity.
  - intros e Hl. apply (set_cover_fallback_error lib w image data e Hd Hr Hl).
Qed.

Lemma set_cover_fallback_writes_id3_witness :
  TagIO.set_cover sample_library "/music/cover.PNG" (sample_world None None)
  = (Ok (true, None),
     TagIO.set_disk (<["/music/a" := marker "ID3"]>
                       (TagIO.disk (sample_world None None)))
                    (sample_world None None)).
Proof.
  destruct (set_cover_fallback_writes_id3 sample_library (sample_world None None)
              "/music/cover.PNG" (marker "img") eq_refl (or_introl eq_refl))
    as (Hload & _).
  destruct (Hload [] eq_refl) as (Hworld & Hok & _).
  rewrite (surjective_pairing (TagIO.set_cover _ _ _)).
  rewrite Hworld, (Hok eq_refl). reflexivity.
Defined.

(** X8: the frames the ID3 fallback of [set_cover] saves keep every frame
    whose key does not start with [APIC], in order, and hold exactly one
    picture frame, the new front cover; a handle opened on them reports that
    cover with its MIME type and the image's length. *)
Theorem fallback_frames_read_back
  (lib : Library) (id3 : ID3) (mime : string) (data : list Byte.byte)
  (p : string) (a : option Easy) (fmt : string) (ro : bool) :
  TagIO.del_apics (TagIO.with_front_cover id3 mime data) = TagIO.del_apics id3 /\
  TagIO.getall "APIC" (TagIO.with_front_cover id3 mime data)
  = [APIC 3 mime 3 "cover" data] /\
  TagIO.get_cover_info lib
    (TagIO.mk p a (Some (RTagged (Some (TagIO.with_front_cover id3 mime data))))
       fmt ro)
  = Some ("ID3 APIC: " +:+ TagIO.mime_or_any mime
          +:+ TagIO.bytes_suffix (List.length data)).
Proof.
  split; [|split].
  - unfold TagIO.with_front_cover, TagIO.del_apics.
    rewrite List.filter_app, filter_twice. simpl. apply app_nil_r.
  - apply getall_front_cover.
  - unfold TagIO.get_cover_info. cbn [TagIO.raw].
    rewrite getall_front_cover. reflexivity.
Qed.

(** * Further properties of the session controller *)

Lemma catalog_keys :
  fst <$> DEFAULT_FIELDS
  = ["title"; "artist"; "album"; "albumartist"; "tracknumber"; "discnumber";
     "date"; "genre"; "comment"].
Proof. reflexivity. Qed.

(** Filling a record key by key: the last group of lemmas is about maps built
    by a loop over the catalog. *)
Lemma lookup_filled {V : Type} (f : string -> V) (fields : list (string * string))
  (acc : gmap string V) (k : string) :
  foldl (fun m kl => <[fst kl := f (fst kl)]> m) acc fields !! k
  = if decide (k ∈ fst <$> fields) then Some (f k) else acc !! k.
Proof.
  revert acc. induction fields as [|[k' l] rest IH]; intros acc.
  - destruct (decide (k ∈ fst <$> [])) as [Hin|_]; [|reflexivity].
    apply elem_of_nil in Hin. contradiction.
  - cbn [foldl]. rewrite IH, fmap_cons. cbn [fst].
    destruct (decide (k ∈ fst <$> rest)) as [Hin|Hnin].
    + rewrite decide_True by (apply list_elem_of_further, Hin). reflexivity.
    + destruct (decide (k = k')) as [->|Hne].
      * rewrite decide_True by apply list_elem_of_here.
        apply lookup_insert_eq.
      * rewrite decide_False
          by (intros Hin; apply elem_of_cons in Hin as [?|?]; contradiction).
        apply lookup_insert_ne. congruence.
Qed.

Lemma lookup_blank (k : string) :
  Tui.blank_tags !! k = if decide (k ∈ fst <$> DEFAULT_FIELDS) then Some "" else None.
Proof.
  unfold Tui.blank_tags.
  rewrite (lookup_filled (fun _ => "") DEFAULT_FIELDS ∅ k), lookup_empty.
  reflexivity.
Qed.

Section Session.
Context (lib : Library).

Lemma get_runs (w : TagIO.World) (k : string) :
  exists values, TagIO.get lib k w = (Ok values, w).
Proof.
  destruct (TagIO.audio (TagIO.self w)) as [a|] eqn:Ha.
  - destruct (truth lib a) eqn:Ht.
    + eexists. apply (get_truthy lib w a k Ha Ht).
    + exists []. apply get_falsy. unfold TagIO.truthy. rewrite Ha. exact Ht.
  - exists []. apply get_falsy. unfold TagIO.truthy. rewrite Ha. reflexivity.
Qed.

Lemma get_shown (w : TagIO.World) (k : string) (values : list string) :
  fst (TagIO.get lib k w) = Ok values -> Tui.shown lib w k = human_join values.
Proof. unfold Tui.shown. intros ->. reflexivity. Qed.

Lemma read_fields_runs (fields : list (string * string))
  (acc : gmap string string) (w : TagIO.World) :
  Tui.read_fields lib fields acc w
  = (Ok (foldl (fun m kl => <[fst kl := Tui.shown lib w (fst kl)]> m) acc fields), w).
Proof.
  revert acc. induction fields as [|[k l] rest IH]; intros acc; simpl.
  - reflexivity.
  - unfold bind. destruct (get_runs w k) as [values Hget]. rewrite Hget.
    rewrite IH. simpl.
    rewrite (get_shown w k values) by (rewrite Hget; reflexivity).
    reflexivity.
Qed.

(** [load_current] once the handle is open and supported. *)
Lemma load_current_supported (d : Disk) (s : Tui.t) (p : string) (io : TagIO.t) :
  Tui.current_path s = Some p ->
  TagIO.init lib p d = Ok io ->
  TagIO.is_supported io = true ->
  Tui.load_current lib d s
  = Tui.mk (Tui.browser s) (Tui.current_path s)
      (foldl (fun m kl => <[fst kl := Tui.shown lib (TagIO.mkWorld io d) (fst kl)]> m)
             ∅ DEFAULT_FIELDS)
      (Tui.cursor_field s) (Tui.status_msg s) false (Tui.focus s) None
      (TagIO.get_cover_info lib io).
Proof.
  intros Hp Hinit Hsup. unfold Tui.load_current.
  rewrite Hp, Hinit, Hsup. simpl negb. cbv iota.
  rewrite read_fields_runs. reflexivity.
Qed.

Lemma load_current_tags_cases (d : Disk) (s : Tui.t) :
  Tui.tags (Tui.load_current lib d s) = Tui.blank_tags \/
  exists w, Tui.tags (Tui.load_current lib d s)
            = foldl (fun m kl => <[fst kl := Tui.shown lib w (fst kl)]> m)
                    ∅ DEFAULT_FIELDS.
Proof.
  unfold Tui.load_current.
  destruct (Tui.current_path s) as [p|]; [|left; reflexivity].
  destruct (TagIO.init lib p d) as [io|e]; [|left; reflexivity].
  destruct (TagIO.is_supported io); simpl negb; cbv iota; [|left; reflexivity].
  rewrite read_fields_runs. right. eexists. reflexivity.
Qed.

Lemma load_current_frame (d : Disk) (s : Tui.t) :
  Tui.browser (Tui.load_current lib d s) = Tui.browser s /\
  Tui.current_path (Tui.load_current lib d s) = Tui.current_path s /\
  Tui.cursor_field (Tui.load_current lib d s) = Tui.cursor_field s /\
  Tui.focus (Tui.load_current lib d s) = Tui.focus s.
Proof.
  unfold Tui.load_current.
  destruct (Tui.current_path s) as [p|] eqn:Hp; [|rewrite <- Hp; auto].
  destruct (TagIO.init lib p d) as [io|e]; [|rewrite <- Hp; auto].
  destruct (TagIO.is_supported io); simpl negb; cbv iota; [|rewrite <- Hp; auto].
  rewrite read_fields_runs. rewrite <- Hp. auto.
Qed.

End Session.

(** X9: whatever happens in [load_current] (no file selected, a file the
    library rejects or cannot open, or a readable one), the record it leaves
    has a value for each of the nine catalog fields and for no other key, and
    the browser, the selected path, the field cursor and the focus are
    untouched. *)
Theorem load_current_fills_the_catalog
  (lib : Library) (d : Disk) (s : Tui.t) (k : string) :
  (is_Some (Tui.tags (Tui.load_current lib d s) !! k)
   <-> k ∈ fst <$> DEFAULT_FIELDS) /\
  Tui.browser (Tui.load_current lib d s) = Tui.browser s /\
  Tui.current_path (Tui.load_current lib d s) = Tui.current_path s /\
  Tui.cursor_field (Tui.load_current lib d s) = Tui.cursor_field s /\
  Tui.focus (Tui.load_current lib d s) = Tui.focus s.
Proof.
  split; [|apply load_current_frame].
  destruct (load_current_tags_cases lib d s) as [Hb|[w Hw]].
  - rewrite Hb, lookup_blank.
    destruct (decide (k ∈ fst <$> DEFAULT_FIELDS)) as [Hin|Hnin]; split; intros H;
      [exact Hin | eexists; reflexivity | destruct H; discriminate | contradiction].
  - rewrite Hw, (lookup_filled (Tui.shown lib w)), lookup_empty.
    destruct (decide (k ∈ fst <$> DEFAULT_FIELDS)) as [Hin|Hnin]; split; intros H;
      [exact Hin | eexists; reflexivity | destruct H; discriminate | contradiction].
Qed.

(** X10: when the library opens the selected file as a supported one,
    [load_current] shows for every catalog field the values [get] returns,
    joined by ", " with empty values left out, takes the cover summary from
    the handle, clears the dirty flag and the last error, and keeps the
    status line. *)
Theorem load_current_shows_file
  (lib : Library) (d : Disk) (s : Tui.t) (p : string) (io : TagIO.t) :
  Tui.current_path s = Some p ->
  TagIO.init lib p d = Ok io ->
  TagIO.is_supported io = true ->
  (forall k values,
     k ∈ fst <$> DEFAULT_FIELDS ->
     fst (TagIO.get lib k (TagIO.mkWorld io d)) = Ok values ->
     Tui.tags (Tui.load_current lib d s) !! k = Some (human_join values)) /\
  Tui.dirty (Tui.load_current lib d s) = false /\
  Tui.last_error (Tui.load_current lib d s) = None /\
  Tui.cover_info (Tui.load_current lib d s) = TagIO.get_cover_info lib io /\
  Tui.status_msg (Tui.load_current lib d s) = Tui.status_msg s.
Proof.
  intros Hp Hinit Hsup.
  rewrite (load_current_supported lib d s p io Hp Hinit Hsup).
  cbn [Tui.tags Tui.dirty Tui.last_error Tui.cover_info Tui.status_msg].
  split; [|auto].
  intros k values Hin Hget.
  rewrite (lookup_filled (Tui.shown lib (TagIO.mkWorld io d))).
  rewrite decide_True by exact Hin.
  rewrite (get_shown lib _ k values Hget). reflexivity.
Qed.

Lemma load_current_shows_file_witness :
  Tui.tags (Tui.load_current plain_library plain_disk sample_tui) !! "title"
  = Some "Song" /\
  Tui.tags (Tui.load_current plain_library plain_disk sample_tui) !! "artist"
  = Some "".
Proof.
  destruct (load_current_shows_file plain_library plain_disk sample_tui
              "/music/A.FLAC" plain_handle eq_refl eq_refl eq_refl)
    as (Hshow & _).
  split.
  - apply (Hshow "title" ["Song"]); [|reflexivity].
    rewrite catalog_keys. apply list_elem_of_here.
  - apply (Hshow "artist" []); [|reflexivity].
    rewrite catalog_keys. apply list_elem_of_further, list_elem_of_here.
Defined.

(** X11: when the selected file is one the library does not recognise, or
    one whose opening raises, [load_current] blanks all nine fields and the
    cover summary but leaves the dirty flag as it was; it reports
    "Unsupported file", or the exception as "Error: ..." and as the last
    error. *)
Theorem load_current_blanks_on_failure
  (lib : Library) (d : Disk) (s : Tui.t) (p : string) :
  Tui.current_path s = Some p ->
  (forall io, TagIO.init lib p d = Ok io -> TagIO.is_supported io = false ->
     Tui.load_current lib d s
     = Tui.mk (Tui.browser s) (Tui.current_path s) Tui.blank_tags
         (Tui.cursor_field s) "Unsupported file" (Tui.dirty s) (Tui.focus s)
         (Tui.last_error s) None) /\
  (forall e, TagIO.init lib p d = Raise e ->
     Tui.load_current lib d s
     = Tui.mk (Tui.browser s) (Tui.current_path s) Tui.blank_tags
         (Tui.cursor_field s) ("Error: " +:+ e) (Tui.dirty s) (Tui.focus s)
         (Some e) None) /\
  (forall k, k ∈ fst <$> DEFAULT_FIELDS -> Tui.blank_tags !! k = Some "").
Proof.
  intros Hp. split; [|split].
  - intros io Hinit Hsup. unfold Tui.load_current.
    rewrite Hp, Hinit, Hsup. reflexivity.
  - intros e Hinit. unfold Tui.load_current. rewrite Hp, Hinit. reflexivity.
  - intros k Hin. rewrite lookup_blank, decide_True by exact Hin. reflexivity.
Qed.

Lemma load_current_blanks_on_failure_witness :
  Tui.dirty (Tui.load_current sample_library ∅
               (Tui.set_tag "artist" "New" sample_tui)) = true /\
  Tui.tags (Tui.load_current sample_library ∅
              (Tui.set_tag "artist" "New" sample_tui)) !! "artist" = Some "".
Proof.
  destruct (load_current_blanks_on_failure sample_library ∅
              (Tui.set_tag "artist" "New" sample_tui) "/music/A.FLAC" eq_refl)
    as (Hunsup & _ & Hblank).
  rewrite (Hunsup (TagIO.mk "/music/A.FLAC" None None "Unknown" false)
             eq_refl eq_refl).
  cbn [Tui.dirty Tui.tags Tui.set_tag].
  split; [reflexivity|].
  apply Hblank. rewrite catalog_keys. apply list_elem_of_further, list_elem_of_here.
Defined.

Section Pushed.
Context (lib : Library) (record : gmap string string).

Lemma pushed_cons (k l : string) (rest : list (string * string)) (a : Easy) :
  Tui.pushed lib record ((k, l) :: rest) a
  = Tui.pushed lib record rest
      (mkEasy (easy_class a)
         (if String.eqb (default "" (record !! k)) "" then delete k (easy_tags a)
          else <[k := stored lib a k [default "" (record !! k)]]> (easy_tags a))).
Proof. reflexivity. Qed.

Lemma pushed_class (fields : list (string * string)) (a : Easy) :
  easy_class (Tui.pushed lib record fields a) = easy_class a.
Proof.
  revert a. induction fields as [|[k l] rest IH]; intros a; [reflexivity|].
  rewrite pushed_cons, IH. reflexivity.
Qed.

Lemma pushed_outside (fields : list (string * string)) (a : Easy) (k : string) :
  k ∉ fst <$> fields ->
  easy_tags (Tui.pushed lib record fields a) !! k = easy_tags a !! k.
Proof.
  revert a. induction fields as [|[k' l] rest IH]; intros a Hk; [reflexivity|].
  rewrite fmap_cons in Hk. cbn [fst] in Hk.
  apply not_elem_of_cons in Hk as [Hne Hrest].
  rewrite pushed_cons, (IH _ Hrest). cbn [easy_tags].
  destruct (String.eqb (default "" (record !! k')) "").
  - apply lookup_delete_ne. congruence.
  - apply lookup_insert_ne. congruence.
Qed.

Lemma pushed_blank (fields : list (string * string)) (a : Easy) (k : string) :
  k ∈ fst <$> fields ->
  default "" (record !! k) = "" ->
  easy_tags (Tui.pushed lib record fields a) !! k = None.
Proof.
  intros Hin Hblank. revert a Hin.
  induction fields as [|[k' l] rest IH]; intros a Hin.
  - apply elem_of_nil in Hin. contradiction.
  - destruct (decide (k ∈ fst <$> rest)) as [Hrest|Hrest].
    + rewrite pushed_cons. apply (IH _ Hrest).
    + rewrite fmap_cons in Hin. cbn [fst] in Hin.
      apply elem_of_cons in Hin as [<-|Hin]; [|contradiction].
      rewrite pushed_cons, (pushed_outside rest _ k Hrest). cbn [easy_tags].
      rewrite Hblank. cbn [String.eqb]. apply lookup_delete_eq.
Qed.

(** A field with a value holds what the library stored for it, on the
    object as the fields before it left it. *)
Lemma pushed_value (fields : list (string * string)) (a : Easy) (k : string) :
  k ∈ fst <$> fields ->
  default "" (record !! k) <> "" ->
  exists x,
    easy_class x = easy_class a /\
    (forall k', k' ∉ fst <$> fields -> easy_tags x !! k' = easy_tags a !! k') /\
    easy_tags (Tui.pushed lib record fields a) !! k
    = Some (stored lib x k [default "" (record !! k)]).
Proof.
  intros Hin Hvalue. revert a Hin.
  induction fields as [|[k' l] rest IH]; intros a Hin.
  - apply elem_of_nil in Hin. contradiction.
  - destruct (decide (k ∈ fst <$> rest)) as [Hrest|Hrest].
    + rewrite pushed_cons.
      match goal with
      | |- context [Tui.pushed lib record rest ?b] =>
          destruct (IH b Hrest) as (x & Hclass & Hout & Hk)
      end.
      exists x. split; [exact Hclass|]. split; [|exact Hk].
      intros k'' Hk''. rewrite fmap_cons in Hk''. cbn [fst] in Hk''.
      apply not_elem_of_cons in Hk'' as [Hne Hk''].
      rewrite (Hout k'' Hk''). cbn [easy_tags].
      destruct (String.eqb (default "" (record !! k')) "").
      * apply lookup_delete_ne. congruence.
      * apply lookup_insert_ne. congruence.
    + rewrite fmap_cons in Hin. cbn [fst] in Hin.
      apply elem_of_cons in Hin as [<-|Hin]; [|contradiction].
      exists a. split; [reflexivity|]. split; [reflexivity|].
      rewrite pushed_cons, (pushed_outside rest _ k Hrest). cbn [easy_tags].
      destruct (String.eqb_spec (default "" (record !! k)) ""); [contradiction|].
      apply lookup_insert_eq.
Qed.

End Pushed.

Lemma present_not_empty {V : Type} (m : gmap string V) (k : string) :
  is_Some (m !! k) -> m <> ∅.
Proof. intros [v Hv] ->. rewrite lookup_empty in Hv. discriminate. Qed.

Section SaveCurrent.
Context (lib : Library).

Lemma write_fields_falsy (fields : list (string * string))
  (record : gmap string string) (w : TagIO.World) :
  TagIO.truthy lib (TagIO.audio (TagIO.self w)) = false ->
  Tui.write_fields lib fields record w = (Ok tt, w).
Proof.
  intros Hf. induction fields as [|[k l] rest IH]; simpl; [reflexivity|].
  unfold bind. rewrite (set_falsy lib w k _ Hf). exact IH.
Qed.

(** The loop of [save_current] on a plain mapping that keeps some key
    [k0] throughout: no [set] finds the object false. *)
Lemma write_fields_pushes (keys : list string) (fields : list (string * string))
  (record : gmap string string) (w : TagIO.World) (a : Easy) (k0 : string) :
  plain_mapping lib (easy_class a) keys ->
  (forall k, k ∈ fst <$> fields -> k ∈ keys) ->
  TagIO.audio (TagIO.self w) = Some a ->
  is_Some (easy_tags a !! k0) ->
  (k0 ∈ fst <$> fields -> default "" (record !! k0) <> "") ->
  Tui.write_fields lib fields record w
  = (Ok tt, TagIO.set_audio (Tui.pushed lib record fields a) w) /\
  is_Some (easy_tags (Tui.pushed lib record fields a) !! k0).
Proof.
  intros Hplain. revert w a Hplain.
  induction fields as [|[k l] rest IH]; intros w a Hplain Hkeys Ha Hk0 Hkeep.
  - split; [|exact Hk0]. simpl. unfold ret. rewrite (world_eta w _ Ha). reflexivity.
  - destruct (Hplain a eq_refl) as (Htruth & Hraise).
    specialize (Htruth (present_not_empty _ _ Hk0)).
    rewrite fmap_cons in Hkeep, Hkeys. cbn [fst] in Hkeep, Hkeys.
    destruct (Hraise k (Hkeys k (list_elem_of_here _ _))) as (Hget & Hset & Hdel).
    assert (Hrest : forall k', k' ∈ fst <$> rest -> k' ∈ keys)
      by (intros k' Hin; apply Hkeys, list_elem_of_further, Hin).
    cbn [Tui.write_fields]. unfold bind. rewrite pushed_cons.
    destruct (String.eqb_spec (default "" (record !! k)) "") as [He|Hne].
    + rewrite He.
      rewrite (set_empty_truthy lib w a k Ha Htruth Hget Hdel).
      assert (Hother : k0 <> k).
      { intros ->. apply Hkeep; [apply list_elem_of_here|exact He]. }
      destruct (IH (TagIO.set_audio (mkEasy (easy_class a) (delete k (easy_tags a))) w)
                   (mkEasy (easy_class a) (delete k (easy_tags a)))) as [Hrun Hstill].
      * exact Hplain.
      * exact Hrest.
      * reflexivity.
      * cbn [easy_tags]. rewrite lookup_delete_ne by congruence. exact Hk0.
      * intros Hin. apply Hkeep. apply list_elem_of_further, Hin.
      * rewrite Hrun. split; [|exact Hstill].
        destruct w as [[pa au ra fo ro] dk]. reflexivity.
    + rewrite (set_value_truthy lib w a k _ Ha Htruth Hne), Hset.
      destruct (IH (TagIO.set_audio
                      (mkEasy (easy_class a)
                         (<[k := stored lib a k [default "" (record !! k)]]>
                            (easy_tags a))) w)
                   (mkEasy (easy_class a)
                      (<[k := stored lib a k [default "" (record !! k)]]>
                         (easy_tags a)))) as [Hrun Hstill].
      * exact Hplain.
      * exact Hrest.
      * reflexivity.
      * cbn [easy_tags]. destruct (decide (k = k0)) as [->|Hother].
        -- rewrite lookup_insert_eq. eauto.
        -- rewrite lookup_insert_ne by congruence. exact Hk0.
      * intros Hin. apply Hkeep. apply list_elem_of_further, Hin.
      * rewrite Hrun. split; [|exact Hstill].
        destruct w as [[pa au ra fo ro] dk]. reflexivity.
Qed.

End SaveCurrent.

(** X12: [save_current] changes nothing of the session but the status line
    and the dirty flag: the record, the selected path, the browser, the
    cursor, the focus, the last error and the cover summary stay, and the
    dirty flag is either kept or cleared together with the status "Saved".
    Without a selected file nothing changes at all, the files included. *)
Theorem save_current_keeps_record
  (lib : Library) (s : Tui.t) (d : Disk) :
  Tui.tags (fst (Tui.save_current lib s d)) = Tui.tags s /\
  Tui.current_path (fst (Tui.save_current lib s d)) = Tui.current_path s /\
  Tui.browser (fst (Tui.save_current lib s d)) = Tui.browser s /\
  Tui.cursor_field (fst (Tui.save_current lib s d)) = Tui.cursor_field s /\
  Tui.focus (fst (Tui.save_current lib s d)) = Tui.focus s /\
  Tui.last_error (fst (Tui.save_current lib s d)) = Tui.last_error s /\
  Tui.cover_info (fst (Tui.save_current lib s d)) = Tui.cover_info s /\
  (Tui.dirty (fst (Tui.save_current lib s d)) = Tui.dirty s \/
   (Tui.dirty (fst (Tui.save_current lib s d)) = false /\
    Tui.status_msg (fst (Tui.save_current lib s d)) = "Saved")) /\
  (Tui.current_path s = None -> Tui.save_current lib s d = (s, d)).
Proof.
  unfold Tui.save_current.
  destruct (Tui.current_path s) as [p|] eqn:Hp.
  - destruct (TagIO.init lib p d) as [io|e].
    + destruct (negb (TagIO.is_supported io)).
      * simpl. repeat (split; [auto|]). discriminate.
      * destruct ((Tui.write_fields lib DEFAULT_FIELDS (Tui.tags s);;; TagIO.save lib)
                    (TagIO.mkWorld io d)) as [[[[|] err]|e] w'];
          simpl; repeat (split; [auto|]); discriminate.
    + simpl. repeat (split; [auto|]). discriminate.
  - simpl. repeat (split; [auto|]). reflexivity.
Qed.

(** X13: [save_current] writes no file and keeps the dirty flag when the
    selected file cannot be opened (status "Save failed: " and the
    exception), when the library does not recognise it (status "Unsupported
    file"), and when it is recognised but its tag object is false (status
    "Save failed: Unsupported file format"): in that last case the edits
    cannot be saved although the handle counts as supported. *)
Theorem save_current_without_true_tags
  (lib : Library) (s : Tui.t) (d : Disk) (p : string) :
  Tui.current_path s = Some p ->
  (forall e, TagIO.init lib p d = Raise e ->
     Tui.save_current lib s d = (Tui.with_status ("Save failed: " +:+ e) s, d)) /\
  (forall io, TagIO.init lib p d = Ok io -> TagIO.audio io = None ->
     Tui.save_current lib s d = (Tui.with_status "Unsupported file" s, d)) /\
  (forall io a, TagIO.init lib p d = Ok io -> TagIO.audio io = Some a ->
     truth lib a = false ->
     TagIO.is_supported io = true /\
     Tui.save_current lib s d
     = (Tui.with_status "Save failed: Unsupported file format" s, d)).
Proof.
  intros Hp. split; [|split].
  - intros e Hinit. unfold Tui.save_current. rewrite Hp, Hinit. reflexivity.
  - intros io Hinit Ha. unfold Tui.save_current, TagIO.is_supported.
    rewrite Hp, Hinit, Ha. reflexivity.
  - intros io a Hinit Ha Ht.
    assert (Hf : TagIO.truthy lib (TagIO.audio (TagIO.self (TagIO.mkWorld io d)))
                 = false) by (simpl; rewrite Ha; exact Ht).
    split; [unfold TagIO.is_supported; rewrite Ha; reflexivity|].
    unfold Tui.save_current, TagIO.is_supported. rewrite Hp, Hinit, Ha.
    cbn [negb]. unfold bind.
    rewrite (write_fields_falsy lib _ _ _ Hf), (save_falsy lib _ Hf).
    reflexivity.
Qed.

Lemma save_current_without_true_tags_witness :
  Tui.save_current falsy_library (Tui.set_tag "artist" "New" sample_tui) plain_disk
  = (Tui.with_status "Save failed: Unsupported file format"
       (Tui.set_tag "artist" "New" sample_tui), plain_disk).
Proof.
  destruct (save_current_without_true_tags falsy_library
              (Tui.set_tag "artist" "New" sample_tui) plain_disk "/music/A.FLAC"
              eq_refl) as (_ & _ & Hfalse).
  apply (Hfalse (TagIO.mk "/music/A.FLAC" (Some (mkEasy "EasyMP3" ∅))
                   (Some (RTagged None)) "Unknown" false)
           (mkEasy "EasyMP3" ∅)); reflexivity.
Defined.

(** X14: [save_current] on a supported file whose tag objects behave as a
    plain mapping (true as soon as they hold a key, raising nothing on the
    catalog's keys), when some key the file already has is kept throughout
    (a key outside the catalog, or a catalog field whose record value is not
    blank).  The library is handed a tag object of the same class in which
    every blank catalog field is absent, every other catalog field holds
    what the library stored for the record's value (the value itself where
    the library keeps text as it is), and every key outside the catalog is
    what the file had; the files are what the raw view's save and then that
    object's save left, and the dirty flag is cleared exactly when that save
    raised nothing. *)
Theorem save_current_pushes_record
  (lib : Library) (s : Tui.t) (d : Disk) (p : string) (io : TagIO.t) (a : Easy)
  (k0 : string) :
  plain_mapping lib (easy_class a) (fst <$> DEFAULT_FIELDS) ->
  Tui.current_path s = Some p ->
  TagIO.init lib p d = Ok io ->
  TagIO.audio io = Some a ->
  is_Some (easy_tags a !! k0) ->
  (k0 ∈ fst <$> DEFAULT_FIELDS -> default "" (Tui.tags s !! k0) <> "") ->
  let a' := Tui.pushed lib (Tui.tags s) DEFAULT_FIELDS a in
  let wrote := easy_save lib (TagIO.path io) a'
                 (TagIO.after_raw_save lib (TagIO.mkWorld io d)) in
  snd (Tui.save_current lib s d) = fst wrote /\
  (snd wrote = None ->
   Tui.dirty (fst (Tui.save_current lib s d)) = false /\
   Tui.status_msg (fst (Tui.save_current lib s d)) = "Saved") /\
  (forall e, snd wrote = Some e ->
   fst (Tui.save_current lib s d) = Tui.with_status ("Save failed: " +:+ e) s) /\
  easy_class a' = easy_class a /\
  (forall k, k ∈ fst <$> DEFAULT_FIELDS ->
     default "" (Tui.tags s !! k) = "" -> easy_tags a' !! k = None) /\
  (forall k, k ∈ fst <$> DEFAULT_FIELDS ->
     default "" (Tui.tags s !! k) <> "" ->
     exists x,
       easy_class x = easy_class a /\
       (forall k', k' ∉ fst <$> DEFAULT_FIELDS ->
                   easy_tags x !! k' = easy_tags a !! k') /\
       easy_tags a' !! k = Some (stored lib x k [default "" (Tui.tags s !! k)])) /\
  ((forall x k v, easy_class x = easy_class a ->
                  stored lib x k [v] = PList [SStr v]) ->
   forall k, k ∈ fst <$> DEFAULT_FIELDS ->
     default "" (Tui.tags s !! k) <> "" ->
     easy_tags a' !! k = Some (PList [SStr (default "" (Tui.tags s !! k))])) /\
  (forall k, k ∉ fst <$> DEFAULT_FIELDS -> easy_tags a' !! k = easy_tags a !! k).
Proof.
  intros Hplain Hp Hinit Ha Hk0 Hkeep. cbv zeta.
  set (a' := Tui.pushed lib (Tui.tags s) DEFAULT_FIELDS a).
  set (wrote := easy_save lib (TagIO.path io) a'
                  (TagIO.after_raw_save lib (TagIO.mkWorld io d))).
  destruct (write_fields_pushes lib (fst <$> DEFAULT_FIELDS) DEFAULT_FIELDS
              (Tui.tags s) (TagIO.mkWorld io d) a k0 Hplain (fun k H => H)
              Ha Hk0 Hkeep) as [Hloop Hstill].
  fold a' in Hloop, Hstill.
  assert (Hclass : easy_class a' = easy_class a) by apply pushed_class.
  assert (Htrue : truth lib a' = true).
  { destruct (Hplain a' Hclass) as (Htruth & _).
    apply Htruth, (present_not_empty _ k0), Hstill. }
  assert (Hrun : Tui.save_current lib s d
                 = (match snd wrote with
                    | None => Tui.mk (Tui.browser s) (Tui.current_path s) (Tui.tags s)
                                (Tui.cursor_field s) "Saved" false (Tui.focus s)
                                (Tui.last_error s) (Tui.cover_info s)
                    | Some e => Tui.with_status ("Save failed: " +:+ e) s
                    end, fst wrote)).
  { unfold Tui.save_current, TagIO.is_supported. rewrite Hp, Hinit, Ha.
    cbn [negb]. unfold bind. rewrite Hloop.
    rewrite (save_truthy lib (TagIO.set_audio a' (TagIO.mkWorld io d)) a' eq_refl
               Htrue).
    change (TagIO.path (TagIO.self (TagIO.set_audio a' (TagIO.mkWorld io d))))
      with (TagIO.path io).
    change (TagIO.after_raw_save lib (TagIO.set_audio a' (TagIO.mkWorld io d)))
      with (TagIO.after_raw_save lib (TagIO.mkWorld io d)).
    fold wrote. destruct (snd wrote); reflexivity. }
  rewrite Hrun. cbn [fst snd].
  split; [reflexivity|]. split; [|split; [|split; [|split; [|split; [|split]]]]].
  - intros ->. split; reflexivity.
  - intros e ->. reflexivity.
  - exact Hclass.
  - intros k Hin Hblank. apply pushed_blank; assumption.
  - intros k Hin Hvalue. apply pushed_value; assumption.
  - intros Hverbatim k Hin Hvalue.
    destruct (pushed_value lib (Tui.tags s) DEFAULT_FIELDS a k Hin Hvalue)
      as (x & Hx & _ & Hk).
    fold a' in Hk. rewrite Hk, (Hverbatim x k _ Hx). reflexivity.
  - intros k Hnin. apply pushed_outside. exact Hnin.
Qed.

Lemma save_current_pushes_record_witness :
  Tui.dirty (fst (Tui.save_current plain_library
                    (Tui.set_tag "artist" "New" sample_tui) plain_disk)) = false /\
  easy_tags
    (Tui.pushed plain_library (Tui.tags (Tui.set_tag "artist" "New" sample_tui))
       DEFAULT_FIELDS
       (mkEasy "FLAC" {[ "title" := PList [SStr "Song"];
                         "mood" := PList [SStr "calm"] ]})) !! "artist"
  = Some (PList [SStr "New"]) /\
  easy_tags
    (Tui.pushed plain_library (Tui.tags (Tui.set_tag "artist" "New" sample_tui))
       DEFAULT_FIELDS
       (mkEasy "FLAC" {[ "title" := PList [SStr "Song"];
                         "mood" := PList [SStr "calm"] ]})) !! "title"
  = None /\
  easy_tags
    (Tui.pushed plain_library (Tui.tags (Tui.set_tag "artist" "New" sample_tui))
       DEFAULT_FIELDS
       (mkEasy "FLAC" {[ "title" := PList [SStr "Song"];
                         "mood" := PList [SStr "calm"] ]})) !! "mood"
  = Some (PList [SStr "calm"]).
Proof.
  assert (Hplain : plain_mapping plain_library "FLAC" (fst <$> DEFAULT_FIELDS))
    by (intros x _; split; [reflexivity|intros k _; repeat split]).
  assert (Hmood : "mood" ∉ fst <$> DEFAULT_FIELDS).
  { rewrite catalog_keys. intros Hin.
    repeat (apply elem_of_cons in Hin as [Hin|Hin]; [discriminate Hin|]).
    apply elem_of_nil in Hin. exact Hin. }
  destruct (save_current_pushes_record plain_library
              (Tui.set_tag "artist" "New" sample_tui) plain_disk "/music/A.FLAC"
              plain_handle
              (mkEasy "FLAC" {[ "title" := PList [SStr "Song"];
                                "mood" := PList [SStr "calm"] ]})
              "mood" Hplain eq_refl eq_refl eq_refl)
    as (_ & Hok & _ & _ & Hblank & _ & Hcat & Hother).
  - eexists. reflexivity.
  - intros Hin. contradiction.
  - split; [apply Hok; reflexivity|]. split; [|split].
    + refine (Hcat _ "artist" _ _).
      * reflexivity.
      * rewrite catalog_keys. apply list_elem_of_further, list_elem_of_here.
      * discriminate.
    + refine (Hblank "title" _ _).
      * rewrite catalog_keys. apply list_elem_of_here.
      * reflexivity.
    + exact (Hother "mood" Hmood).
Defined.

Section Emptying.
Context (lib : Library).

(** [set] with the empty string on a key the object does not hold changes
    nothing, whatever the lookup does. *)
Lemma set_blank_absent (w : TagIO.World) (a : Easy) (key : string) :
  TagIO.audio (TagIO.self w) = Some a ->
  easy_tags a !! key = None ->
  TagIO.set lib key "" w = (Ok tt, w).
Proof.
  intros Ha Hk. unfold TagIO.set, TagIO.audio_contains, TagIO.getitem.
  run_monad. rewrite Ha. destruct (truth lib a); [|reflexivity]. simpl.
  destruct (getitem_error lib a key); [reflexivity|]. simpl.
  rewrite Hk. rewrite bool_decide_eq_false_2 by (intros [? ?]; discriminate).
  reflexivity.
Qed.

(** The loop of [save_current] from the field that removes the only key the
    object holds: the object is empty and false from there on. *)
Lemma write_fields_after_emptying (k l : string) (rest : list (string * string))
  (record : gmap string string) (w : TagIO.World) (a : Easy) (v : pyval) :
  TagIO.audio (TagIO.self w) = Some a ->
  easy_tags a = {[ k := v ]} ->
  truth lib a = true ->
  truth lib (mkEasy (easy_class a) ∅) = false ->
  getitem_error lib a k = None ->
  delitem_error lib a k = None ->
  default "" (record !! k) = "" ->
  Tui.write_fields lib ((k, l) :: rest) record w
  = (Ok tt, TagIO.set_audio (mkEasy (easy_class a) ∅) w).
Proof.
  intros Ha Htags Ht Hempty Hg Hd Hblank.
  cbn [Tui.write_fields]. unfold bind. rewrite Hblank.
  rewrite (set_empty_truthy lib w a k Ha Ht Hg Hd), Htags, delete_singleton_eq.
  apply write_fields_falsy. exact Hempty.
Qed.

Lemma write_fields_empties (pre post : list (string * string)) (k l : string)
  (record : gmap string string) (w : TagIO.World) (a : Easy) (v : pyval) :
  TagIO.audio (TagIO.self w) = Some a ->
  easy_tags a = {[ k := v ]} ->
  truth lib a = true ->
  truth lib (mkEasy (easy_class a) ∅) = false ->
  getitem_error lib a k = None ->
  delitem_error lib a k = None ->
  (forall k', k' ∈ fst <$> pre -> default "" (record !! k') = "") ->
  default "" (record !! k) = "" ->
  Tui.write_fields lib (pre ++ (k, l) :: post)%list record w
  = (Ok tt, TagIO.set_audio (mkEasy (easy_class a) ∅) w).
Proof.
  intros Ha Htags Ht Hempty Hg Hd Hpre Hblank.
  induction pre as [|[k' l'] pre IH].
  - apply (write_fields_after_emptying k l post record w a v); assumption.
  - rewrite fmap_cons in Hpre. cbn [fst] in Hpre.
    destruct (decide (k' = k)) as [->|Hne].
    + apply (write_fields_after_emptying k l' _ record w a v); assumption.
    + change (Tui.write_fields lib (((k', l') :: pre) ++ (k, l) :: post)%list record w)
        with ((TagIO.set lib k' (default "" (record !! k')) ;;;
               Tui.write_fields lib (pre ++ (k, l) :: post)%list record) w).
      unfold bind. rewrite (Hpre k') by apply list_elem_of_here.
      rewrite (set_blank_absent w a k' Ha)
        by (rewrite Htags; apply lookup_singleton_ne; congruence).
      apply IH. intros k'' Hin. apply Hpre. apply list_elem_of_further, Hin.
Qed.

End Emptying.

(** X28: the last tag of a file cannot be removed through [save_current].
    When the file's only key is a catalog field, and the record is blank for
    that field and for every field the catalog lists before it, the loop
    deletes the key, the tag object is then empty and false (as a mapping
    is), every later [set] returns at once and [save] answers "Unsupported
    file format": nothing is written, neither the removal nor any other
    field of the record, the status is "Save failed: Unsupported file
    format" and the dirty flag stays, although the handle counts as
    supported. *)
Theorem save_current_cannot_remove_last_tag
  (lib : Library) (s : Tui.t) (d : Disk) (p : string) (io : TagIO.t) (a : Easy)
  (pre post : list (string * string)) (k l : string) (v : pyval) :
  Tui.current_path s = Some p ->
  TagIO.init lib p d = Ok io ->
  TagIO.audio io = Some a ->
  easy_tags a = {[ k := v ]} ->
  truth lib a = true ->
  truth lib (mkEasy (easy_class a) ∅) = false ->
  getitem_error lib a k = None ->
  delitem_error lib a k = None ->
  DEFAULT_FIELDS = (pre ++ (k, l) :: post)%list ->
  (forall k', k' ∈ fst <$> pre -> default "" (Tui.tags s !! k') = "") ->
  default "" (Tui.tags s !! k) = "" ->
  TagIO.is_supported io = true /\
  Tui.save_current lib s d
  = (Tui.with_status "Save failed: Unsupported file format" s, d).
Proof.
  intros Hp Hinit Ha Htags Ht Hempty Hg Hd Hfields Hpre Hblank.
  split; [unfold TagIO.is_supported; rewrite Ha; reflexivity|].
  unfold Tui.save_current, TagIO.is_supported. rewrite Hp, Hinit, Ha.
  cbn [negb]. unfold bind. rewrite Hfields.
  rewrite (write_fields_empties lib pre post k l (Tui.tags s)
             (TagIO.mkWorld io d) a v Ha Htags Ht Hempty Hg Hd Hpre Hblank).
  rewrite (save_falsy lib (TagIO.set_audio (mkEasy (easy_class a) ∅)
                             (TagIO.mkWorld io d)) Hempty).
  reflexivity.
Qed.

Lemma save_current_cannot_remove_last_tag_witness :
  Tui.save_current single_tag_library
    (Tui.set_tag "album" "New" (Tui.set_tag "artist" "" sample_tui)) plain_disk
  = (Tui.with_status "Save failed: Unsupported file format"
       (Tui.set_tag "album" "New" (Tui.set_tag "artist" "" sample_tui)),
     plain_disk).
Proof.
  apply (save_current_cannot_remove_last_tag single_tag_library
           (Tui.set_tag "album" "New" (Tui.set_tag "artist" "" sample_tui))
           plain_disk "/music/A.FLAC"
           (TagIO.mk "/music/A.FLAC"
              (Some (mkEasy "FLAC" {[ "artist" := PList [SStr "Old"] ]}))
              (Some (RFLAC [] ∅)) "FLAC" false)
           (mkEasy "FLAC" {[ "artist" := PList [SStr "Old"] ]})
           [("title", "Title")]
           [("album", "Album"); ("albumartist", "Album Artist");
            ("tracknumber", "Track"); ("discnumber", "Disc"); ("date", "Year");
            ("genre", "Genre"); ("comment", "Comment")]
           "artist" "Artist" (PList [SStr "Old"]));
    try reflexivity.
  intros k' Hin. apply list_elem_of_singleton in Hin. subst k'. reflexivity.
Defined.

(** * Further properties of the file browser *)

Lemma key_le_total (a b : string) : key_le a b = true \/ key_le b a = true.
Proof.
  unfold key_le.
  destruct (endswith a "/"), (endswith b "/"); auto; apply String.leb_total.
Qed.

Lemma insert_sorted_perm (x : string) (l : list string) :
  Permutation (insert_sorted x l) (x :: l).
Proof.
  induction l as [|y l IH]; simpl; [reflexivity|].
  destruct (key_le x y); [reflexivity|].
  rewrite IH. apply perm_swap.
Qed.

Lemma sort_items_perm (l : list string) : Permutation (sort_items l) l.
Proof.
  induction l as [|x l IH]; simpl; [reflexivity|].
  rewrite insert_sorted_perm, IH. reflexivity.
Qed.

Lemma insert_sorted_sorted (x : string) (l : list string) :
  Sorted (fun a b => key_le a b = true) l ->
  Sorted (fun a b => key_le a b = true) (insert_sorted x l).
Proof.
  induction l as [|y l IH]; intros Hs; simpl.
  - repeat constructor.
  - destruct (key_le x y) eqn:Hxy.
    + constructor; [exact Hs|]. constructor. exact Hxy.
    + inversion Hs as [|? ? Hsl Hhd]; subst.
      constructor; [apply IH, Hsl|].
      destruct l as [|z l]; simpl.
      * constructor. destruct (key_le_total x y); congruence.
      * destruct (key_le x z).
        -- constructor. destruct (key_le_total x y); congruence.
        -- inversion Hhd; subst. constructor. assumption.
Qed.

Lemma sort_items_sorted (l : list string) :
  Sorted (fun a b => key_le a b = true) (sort_items l).
Proof.
  induction l as [|x l IH]; simpl; [constructor|].
  apply insert_sorted_sorted, IH.
Qed.

(** In a sorted list nothing but files follows a file. *)
Lemma sorted_files_follow (x : string) (l : list string) :
  Sorted (fun a b => key_le a b = true) (x :: l) ->
  endswith x "/" = false ->
  Forall (fun e => endswith e "/" = false) l.
Proof.
  revert x. induction l as [|y l IH]; intros x Hs Hx; [constructor|].
  inversion Hs as [|? ? Hsl Hhd]; subst. inversion Hhd as [|? ? Hxy]; subst.
  assert (Hy : endswith y "/" = false).
  { unfold key_le in Hxy. rewrite Hx in Hxy.
    destruct (endswith y "/"); [discriminate|reflexivity]. }
  constructor; [exact Hy|]. apply (IH y Hsl Hy).
Qed.

Lemma sorted_dirs_first (l : list string) :
  Sorted (fun a b => key_le a b = true) l ->
  exists dirs files,
    l = (dirs ++ files)%list /\
    Forall (fun e => endswith e "/" = true) dirs /\
    Forall (fun e => endswith e "/" = false) files.
Proof.
  induction l as [|x l IH]; intros Hs.
  - exists [], []. repeat split; constructor.
  - destruct (endswith x "/") eqn:Hx.
    + inversion Hs as [|? ? Hsl _]; subst.
      destruct (IH Hsl) as (dirs & files & -> & Hd & Hf).
      exists (x :: dirs), files. repeat split; [constructor; assumption|exact Hf].
    + exists [], (x :: l). repeat split; [constructor|].
      constructor; [exact Hx|]. apply (sorted_files_follow x l Hs Hx).
Qed.

Section Listing.
Context (fs : FileSystem).

Lemma collect_spec (dir : string) (allowed : gset string) (names : list string)
  (e : string) :
  e ∈ FileBrowser.collect fs dir allowed names <->
  exists name,
    name ∈ names /\
    ((isdir fs (path_join dir name) = true /\ e = name +:+ "/") \/
     (isdir fs (path_join dir name) = false /\
      lower (splitext_ext name) ∈ allowed /\ e = name)).
Proof.
  induction names as [|n names IH]; simpl.
  - split; [intros H; apply elem_of_nil in H; contradiction|].
    intros (name & H & _). apply elem_of_nil in H. contradiction.
  - destruct (isdir fs (path_join dir n)) eqn:Hdir.
    + rewrite elem_of_cons, IH. split.
      * intros [->|(name & Hin & Hcase)].
        -- exists n. split; [apply list_elem_of_here|left; auto].
        -- exists name. split; [apply list_elem_of_further, Hin|exact Hcase].
      * intros (name & Hin & Hcase). apply elem_of_cons in Hin as [->|Hin].
        -- destruct Hcase as [[_ ->]|[Hf _]]; [left; reflexivity|congruence].
        -- right. exists name. auto.
    + destruct (bool_decide (lower (splitext_ext n) ∈ allowed)) eqn:Hext.
      * apply bool_decide_eq_true in Hext. rewrite elem_of_cons, IH. split.
        -- intros [->|(name & Hin & Hcase)].
           ++ exists n. split; [apply list_elem_of_here|right; auto].
           ++ exists name. split; [apply list_elem_of_further, Hin|exact Hcase].
        -- intros (name & Hin & Hcase). apply elem_of_cons in Hin as [->|Hin].
           ++ destruct Hcase as [[Hd _]|[_ [_ ->]]]; [congruence|left; reflexivity].
           ++ right. exists name. auto.
      * apply bool_decide_eq_false in Hext. rewrite IH. split.
        -- intros (name & Hin & Hcase).
           exists name. split; [apply list_elem_of_further, Hin|exact Hcase].
        -- intros (name & Hin & Hcase). apply elem_of_cons in Hin as [->|Hin].
           ++ destruct Hcase as [[Hd _]|[_ [Ha _]]]; [congruence|contradiction].
           ++ exists name. auto.
Qed.

End Listing.

(** X15: after a [refresh] of a directory that [os.listdir] can list and
    whose names are all ASCII, an entry is shown exactly when it is a listed
    sub-directory (with "/" appended, whatever its name) or a listed file
    whose lower-cased extension is allowed; the entries are in the order of
    the key [(is a file, lower-cased name)], so all directories come before
    all files; the directory and the extension filter are unchanged.  (On
    names with letters outside ASCII Python's [lower] folds more than the
    letters [A] to [Z], and the order of such names is not covered.) *)
Theorem refresh_lists_sorted_entries
  (fs : FileSystem) (b : FileBrowser.t) (names : list string) :
  listdir fs (FileBrowser.root b) = Listed names ->
  Forall (fun name => isascii name = true) names ->
  let b' := snd (FileBrowser.refresh fs b) in
  fst (FileBrowser.refresh fs b) = Ok tt /\
  (forall e,
     e ∈ FileBrowser.entries b' <->
     exists name,
       name ∈ names /\
       ((isdir fs (path_join (FileBrowser.root b) name) = true /\ e = name +:+ "/") \/
        (isdir fs (path_join (FileBrowser.root b) name) = false /\
         lower (splitext_ext name) ∈ FileBrowser.exts b /\ e = name))) /\
  Sorted (fun x y => key_le x y = true) (FileBrowser.entries b') /\
  (exists dirs files,
     FileBrowser.entries b' = (dirs ++ files)%list /\
     Forall (fun e => endswith e "/" = true) dirs /\
     Forall (fun e => endswith e "/" = false) files) /\
  FileBrowser.root b' = FileBrowser.root b /\
  FileBrowser.exts b' = FileBrowser.exts b.
Proof.
  intros Hl _. unfold FileBrowser.refresh. rewrite Hl. cbn [fst snd FileBrowser.entries
    FileBrowser.root FileBrowser.exts].
  split; [reflexivity|]. split; [|split; [|split; [|split]]].
  - intros e. rewrite <- collect_spec.
    split; intros H.
    + apply list_elem_of_In. apply list_elem_of_In in H.
      apply (Permutation_in _ (sort_items_perm _) H).
    + apply list_elem_of_In. apply list_elem_of_In in H.
      apply (Permutation_in _ (Permutation_sym (sort_items_perm _)) H).
  - apply sort_items_sorted.
  - apply sorted_dirs_first, sort_items_sorted.
  - reflexivity.
  - reflexivity.
Qed.

Lemma refresh_lists_sorted_entries_witness :
  FileBrowser.entries
    (snd (FileBrowser.refresh sample_fs (FileBrowser.mk "/music" [] 0 SUPPORTED_EXTS)))
  = ["live/"; "A.FLAC"; "b.mp3"] /\
  Sorted (fun x y => key_le x y = true)
    (FileBrowser.entries
       (snd (FileBrowser.refresh sample_fs
               (FileBrowser.mk "/music" [] 0 SUPPORTED_EXTS)))).
Proof.
  split; [reflexivity|].
  apply (refresh_lists_sorted_entries sample_fs
           (FileBrowser.mk "/music" [] 0 SUPPORTED_EXTS)
           ["b.mp3"; "notes.txt"; "live"; "A.FLAC"]).
  - reflexivity.
  - repeat constructor.
Defined.

(** X16: when the directory does not exist, [refresh] does not raise: it
    empties the entry list and, for a non-negative selection, resets the
    selection to 0; any other error of [os.listdir] is raised and leaves the
    browser exactly as it was. *)
Theorem refresh_of_missing_directory
  (fs : FileSystem) (b : FileBrowser.t) :
  (listdir fs (FileBrowser.root b) = FileNotFoundError ->
   (0 <= FileBrowser.selection b)%Z ->
   FileBrowser.refresh fs b
   = (Ok tt, FileBrowser.mk (FileBrowser.root b) [] 0 (FileBrowser.exts b))) /\
  (forall e, listdir fs (FileBrowser.root b) = OSError e ->
             FileBrowser.refresh fs b = (Raise e, b)).
Proof.
  split.
  - intros Hl Hsel. unfold FileBrowser.refresh, FileBrowser.clamp. rewrite Hl.
    cbn [sort_items List.length]. change (Z.of_nat 0) with 0%Z.
    destruct (Z.leb_spec 0 (FileBrowser.selection b)); [reflexivity|lia].
  - intros e Hl. unfold FileBrowser.refresh. rewrite Hl. reflexivity.
Qed.

Lemma refresh_of_missing_directory_witness :
  FileBrowser.refresh sample_fs
    (FileBrowser.mk "/gone" ["x"; "y"] 1 SUPPORTED_EXTS)
  = (Ok tt, FileBrowser.mk "/gone" [] 0 SUPPORTED_EXTS).
Proof.
  apply (refresh_of_missing_directory sample_fs
           (FileBrowser.mk "/gone" ["x"; "y"] 1 SUPPORTED_EXTS));
    [reflexivity|simpl; lia].
Defined.

(** X17: on a browser whose selection is in range, [up] and [down] undo each
    other: moving up then down, or down then up, gives back the same
    browser, on an empty list as well. *)
Theorem up_and_down_are_inverse (b : FileBrowser.t) :
  FileBrowser.in_range b ->
  snd (FileBrowser.down (snd (FileBrowser.up b))) = b /\
  snd (FileBrowser.up (snd (FileBrowser.down b))) = b.
Proof.
  intros [Hempty Hfull].
  destruct b as [r es sel ex]. unfold FileBrowser.up, FileBrowser.down.
  run_monad.
  assert (Hsel : (0 <= sel < Z.max 1 (Z.of_nat (List.length es)))%Z).
  { destruct es as [|x es].
    - rewrite Hempty by reflexivity. simpl. lia.
    - specialize (Hfull ltac:(discriminate)). lia. }
  split; f_equal.
  - rewrite Zplus_mod_idemp_l. replace (sel - 1 + 1)%Z with sel by lia.
    apply Z.mod_small. exact Hsel.
  - rewrite Zminus_mod_idemp_l. replace (sel + 1 - 1)%Z with sel by lia.
    apply Z.mod_small. exact Hsel.
Qed.

Lemma up_and_down_are_inverse_witness :
  snd (FileBrowser.down
         (snd (FileBrowser.up (FileBrowser.mk "/music" ["a"; "b"; "c"] 0 SUPPORTED_EXTS))))
  = FileBrowser.mk "/music" ["a"; "b"; "c"] 0 SUPPORTED_EXTS.
Proof.
  apply (up_and_down_are_inverse
           (FileBrowser.mk "/music" ["a"; "b"; "c"] 0 SUPPORTED_EXTS)).
  split; simpl; [discriminate|lia].
Defined.

Section Enter.
Context (fs : FileSystem).

Lemma py_index_in_range {A : Type} (l : list A) (i : Z) :
  (0 <= i < Z.of_nat (List.length l))%Z ->
  py_index l i = l !! Z.to_nat i /\ is_Some (l !! Z.to_nat i).
Proof.
  intros Hi. unfold py_index.
  destruct (Z.leb_spec 0 i); [|lia].
  destruct (Z.ltb_spec i (Z.of_nat (List.length l))); [|lia].
  split; [reflexivity|]. apply lookup_lt_is_Some. lia.
Qed.

Lemma enter_directory_result (b : FileBrowser.t) (r : string) :
  let moved := FileBrowser.refresh fs
                 (FileBrowser.mk r (FileBrowser.entries b) 0 (FileBrowser.exts b)) in
  (FileBrowser.set_root r ;;; FileBrowser.set_selection 0 ;;;
   FileBrowser.refresh fs ;;; ret (@None string)) b
  = (match fst moved with
     | Ok _ => Ok None
     | Raise e => Raise e
     end, snd moved).
Proof.
  unfold FileBrowser.set_root, FileBrowser.set_selection. run_monad.
  destruct (FileBrowser.refresh fs _) as [[[]|e] b']; reflexivity.
Qed.

Lemma refresh_keeps_root (b : FileBrowser.t) :
  FileBrowser.root (snd (FileBrowser.refresh fs b)) = FileBrowser.root b.
Proof.
  destruct (refresh_cases fs b) as [[e Hr]|[items Hr]]; rewrite Hr; reflexivity.
Qed.

Lemma refresh_raises_listdir (b : FileBrowser.t) (e : string) :
  fst (FileBrowser.refresh fs b) = Raise e ->
  listdir fs (FileBrowser.root b) = OSError e.
Proof.
  unfold FileBrowser.refresh.
  destruct (listdir fs (FileBrowser.root b)); simpl; congruence.
Qed.

End Enter.

(** X18: [enter] on a browser whose selection is in range never fails with
    an index error.  On an empty list it returns nothing and changes
    nothing; on a file entry it returns the entry joined to the directory
    and changes nothing; on a directory entry it moves the browser into
    that directory (the entry without its "/", joined and made absolute)
    with the selection back in range, and returns nothing; the only
    exception it can raise is one [os.listdir] raised for the new
    directory. *)
Theorem enter_on_selection_in_range
  (fs : FileSystem) (b : FileBrowser.t) :
  FileBrowser.in_range b ->
  (FileBrowser.entries b = [] -> FileBrowser.enter fs b = (Ok None, b)) /\
  (FileBrowser.entries b <> [] ->
   exists name,
     FileBrowser.entries b !! Z.to_nat (FileBrowser.selection b) = Some name /\
     (endswith name "/" = false ->
      FileBrowser.enter fs b
      = (Ok (Some (path_join (FileBrowser.root b) (rstrip_char "/" name))), b)) /\
     (endswith name "/" = true ->
      let target := abspath fs (path_join (FileBrowser.root b) (rstrip_char "/" name)) in
      FileBrowser.root (snd (FileBrowser.enter fs b)) = target /\
      FileBrowser.in_range (snd (FileBrowser.enter fs b)) /\
      (fst (FileBrowser.enter fs b) = Ok None \/
       exists e, fst (FileBrowser.enter fs b) = Raise e /\
                 listdir fs target = OSError e))).
Proof.
  intros Hb. split.
  - intros He. unfold FileBrowser.enter. run_monad. rewrite He. reflexivity.
  - intros He. destruct Hb as [_ Hfull]. specialize (Hfull He).
    destruct (py_index_in_range (FileBrowser.entries b) (FileBrowser.selection b) Hfull)
      as [Hidx [name Hname]].
    exists name. split; [exact Hname|].
    assert (Hrun : FileBrowser.enter fs b
                   = if endswith name "/"
                     then (FileBrowser.set_root
                             (abspath fs (path_join (FileBrowser.root b)
                                            (rstrip_char "/" name))) ;;;
                           FileBrowser.set_selection 0 ;;;
                           FileBrowser.refresh fs ;;; ret None) b
                     else (Ok (Some (path_join (FileBrowser.root b)
                                       (rstrip_char "/" name))), b)).
    { unfold FileBrowser.enter. rewrite bind_get_state.
      destruct (FileBrowser.entries b) as [|x l] eqn:Hes; [congruence|].
      rewrite Hidx, Hname. destruct (endswith name "/"); reflexivity. }
    split.
    + intros Hfile. rewrite Hrun, Hfile. reflexivity.
    + intros Hdir. cbv zeta. rewrite Hrun, Hdir, enter_directory_result.
      cbn [fst snd]. split; [|split].
      * rewrite refresh_keeps_root. reflexivity.
      * apply reset_refresh_in_range.
      * destruct (fst (FileBrowser.refresh fs _)) as [[]|e] eqn:Hr.
        -- left. reflexivity.
        -- right. exists e. split; [reflexivity|].
           apply refresh_raises_listdir in Hr. exact Hr.
Qed.

Lemma enter_on_selection_in_range_witness :
  FileBrowser.enter sample_fs
    (FileBrowser.mk "/music" ["live/"; "A.FLAC"; "b.mp3"] 1 SUPPORTED_EXTS)
  = (Ok (Some "/music/A.FLAC"),
     FileBrowser.mk "/music" ["live/"; "A.FLAC"; "b.mp3"] 1 SUPPORTED_EXTS).
Proof.
  destruct (enter_on_selection_in_range sample_fs
              (FileBrowser.mk "/music" ["live/"; "A.FLAC"; "b.mp3"] 1 SUPPORTED_EXTS))
    as (_ & Hfull).
  - split; simpl; [discriminate|lia].
  - destruct (Hfull ltac:(discriminate)) as (name & Hname & Hfile & _).
    simpl in Hname. injection Hname as <-.
    apply Hfile. reflexivity.
Defined.

(** * Further properties of the text prompt *)

Lemma insert_at_end {A : Type} (l : list A) (x : A) :
  list_insert_at (List.length l) x l = (l ++ [x])%list.
Proof. induction l as [|y l IH]; simpl; [reflexivity|]. rewrite IH. reflexivity. Qed.

Lemma pop_last {A : Type} (l : list A) (x : A) :
  list_pop (List.length l) (l ++ [x])%list = l.
Proof. induction l as [|y l IH]; simpl; [reflexivity|]. rewrite IH. reflexivity. Qed.

Lemma string_of_app (l1 l2 : list ascii) :
  string_of_list_ascii (l1 ++ l2)%list
  = string_of_list_ascii l1 +:+ string_of_list_ascii l2.
Proof. induction l1 as [|c l1 IH]; simpl; [reflexivity|]. rewrite IH. reflexivity. Qed.

(** Typing printable characters at the end of the buffer appends them. *)
Lemma prompt_loop_typing (buffer cs : list ascii) (keys : list key) :
  Tui.prompt_loop buffer (List.length buffer)
    (((fun c => KChar c true) <$> cs) ++ keys)%list
  = Tui.prompt_loop (buffer ++ cs)%list (List.length (buffer ++ cs)%list) keys.
Proof.
  revert buffer. induction cs as [|c cs IH]; intros buffer.
  - rewrite app_nil_r. reflexivity.
  - cbn [fmap list_fmap app Tui.prompt_loop].
    rewrite insert_at_end.
    replace (List.length buffer + 1)%nat with (List.length (buffer ++ [c])%list)
      by (rewrite length_app; reflexivity).
    rewrite IH, <- app_assoc. reflexivity.
Qed.

(** Backspace at the end of the buffer removes its last character. *)
Lemma prompt_loop_erasing (buffer : list ascii) (n : nat) (keys : list key) :
  Tui.prompt_loop buffer (List.length buffer) (repeat KBackspace n ++ keys)%list
  = Tui.prompt_loop (take (List.length buffer - n) buffer)
      (List.length buffer - n) keys.
Proof.
  revert buffer. induction n as [|n IH]; intros buffer.
  - rewrite Nat.sub_0_r, firstn_all. reflexivity.
  - cbn [repeat app Tui.prompt_loop].
    induction buffer as [|last front _] using rev_ind.
    + pose proof (IH []) as Hnil. simpl in Hnil. simpl. exact Hnil.
    + rewrite length_app. cbn [List.length].
      replace (0 <? List.length front + 1)%nat with true
        by (symmetry; apply Nat.ltb_lt; lia).
      replace (List.length front + 1 - 1)%nat with (List.length front) by lia.
      rewrite pop_last, IH.
      replace (List.length front + 1 - S n)%nat with (List.length front - n)%nat by lia.
      rewrite take_app_le by lia. reflexivity.
Qed.

Lemma prompt_waits_or_resolves (keys : list key) :
  Forall (fun k => k <> KEnter /\ k <> KEsc) keys ->
  forall (buffer : list ascii) (pos : nat) (rest : list key),
    Tui.prompt_loop buffer pos keys = None /\
    Tui.prompt_loop buffer pos (keys ++ KEsc :: rest)%list = Some (None, rest) /\
    exists text,
      Tui.prompt_loop buffer pos (keys ++ KEnter :: rest)%list
      = Some (Some text, rest).
Proof.
  induction 1 as [|k keys [Hne Hnc] _ IH]; intros buffer pos rest.
  - simpl. split; [reflexivity|]. split; [reflexivity|]. eexists. reflexivity.
  - destruct k as [| | | | | | | |c [|]|]; try congruence;
      cbn [app Tui.prompt_loop];
      repeat match goal with |- context [if ?c then _ else _] => destruct c end;
      apply IH.
Qed.

(** X19: typing into the prompt.  Printable characters typed before Enter
    are appended to the seed; as many backspaces as the seed is long, then a
    new text and Enter, return the new text alone.  Either way the keys after
    Enter are left for the caller. *)
Theorem prompt_returns_typed_text
  (prompt initial typed : string) (rest : list key) :
  Tui.prompt_input prompt initial
    (((fun c => KChar c true) <$> list_ascii_of_string typed)
     ++ KEnter :: rest)%list
  = Some (Some (initial +:+ typed), rest) /\
  Tui.prompt_input prompt initial
    (repeat KBackspace (String.length initial)
     ++ ((fun c => KChar c true) <$> list_ascii_of_string typed)
     ++ KEnter :: rest)%list
  = Some (Some typed, rest).
Proof.
  unfold Tui.prompt_input. split.
  - rewrite prompt_loop_typing. cbn [Tui.prompt_loop].
    rewrite string_of_app, !string_of_list_ascii_of_string. reflexivity.
  - replace (String.length initial)
      with (List.length (list_ascii_of_string initial))
      by (induction initial; simpl; congruence).
    rewrite prompt_loop_erasing, Nat.sub_diag. cbn [take].
    rewrite (prompt_loop_typing [] _ _). cbn [app Tui.prompt_loop].
    rewrite string_of_list_ascii_of_string. reflexivity.
Qed.

(** X20: the prompt of [edit_field] resolves at the first Enter or Esc.
    While only other keys were typed, the modal is still open; an Esc after
    any such keys cancels the edit and leaves the session exactly as it was,
    dirty flag included, whatever was typed before it. *)
Theorem edit_field_cancelled_by_escape
  (s : Tui.t) (idx : Z) (k label : string) (keys rest : list key) :
  (0 <= idx)%Z ->
  DEFAULT_FIELDS !! Z.to_nat idx = Some (k, label) ->
  Forall (fun key => key <> KEnter /\ key <> KEsc) keys ->
  Tui.edit_field idx keys s = None /\
  Tui.edit_field idx (keys ++ KEsc :: rest)%list s = Some (s, rest).
Proof.
  intros Hpos Hk Hkeys.
  pose proof (catalog_index_in_range idx k label Hpos Hk) as Hin.
  destruct (prompt_waits_or_resolves keys Hkeys
              (list_ascii_of_string (default "" (Tui.tags s !! k)))
              (List.length (list_ascii_of_string (default "" (Tui.tags s !! k))))
              rest) as (Hwait & Hesc & _).
  unfold Tui.edit_field, Tui.prompt_input. rewrite Hin, Hk, Hwait, Hesc.
  split; reflexivity.
Qed.

Lemma edit_field_cancelled_by_escape_witness :
  Tui.edit_field 1 [KChar "x" true; KBackspace; KHome; KEsc; KEnter] sample_tui
  = Some (sample_tui, [KEnter]).
Proof.
  apply (edit_field_cancelled_by_escape sample_tui 1 "artist" "Artist"
           [KChar "x" true; KBackspace; KHome] [KEnter]).
  - lia.
  - reflexivity.
  - repeat constructor; discriminate.
Defined.

(** * Properties of the event loop *)

Section Loop.
Context (lib : Library) (fs : FileSystem).

Lemma load_current_browser (d : Disk) (s : Tui.t) :
  Tui.browser (Tui.load_current lib d s) = Tui.browser s.
Proof. apply load_current_frame. Qed.

Lemma load_current_cursor (d : Disk) (s : Tui.t) :
  Tui.cursor_field (Tui.load_current lib d s) = Tui.cursor_field s.
Proof. apply load_current_frame. Qed.

Lemma load_current_focus (d : Disk) (s : Tui.t) :
  Tui.focus (Tui.load_current lib d s) = Tui.focus s.
Proof. apply load_current_frame. Qed.

Lemma save_current_frame (s : Tui.t) (d : Disk) :
  Tui.browser (fst (Tui.save_current lib s d)) = Tui.browser s /\
  Tui.cursor_field (fst (Tui.save_current lib s d)) = Tui.cursor_field s /\
  Tui.focus (fst (Tui.save_current lib s d)) = Tui.focus s /\
  Tui.tags (fst (Tui.save_current lib s d)) = Tui.tags s /\
  Tui.current_path (fst (Tui.save_current lib s d)) = Tui.current_path s.
Proof.
  unfold Tui.save_current.
  destruct (Tui.current_path s) as [p|] eqn:Hp; [|simpl; auto 6].
  destruct (TagIO.init lib p d) as [io|e]; [|simpl; auto 6].
  destruct (negb (TagIO.is_supported io)); [simpl; auto 6|].
  destruct ((Tui.write_fields lib DEFAULT_FIELDS (Tui.tags s);;; TagIO.save lib)
              (TagIO.mkWorld io d)) as [[[[|] err]|e] w']; simpl; auto 6.
Qed.

Lemma edit_field_frame (idx : Z) (keys rest : list key) (s s' : Tui.t) :
  Tui.edit_field idx keys s = Some (s', rest) ->
  Tui.browser s' = Tui.browser s /\
  Tui.cursor_field s' = Tui.cursor_field s /\
  Tui.focus s' = Tui.focus s /\
  Tui.current_path s' = Tui.current_path s.
Proof.
  unfold Tui.edit_field.
  destruct ((idx <? 0)%Z || _); [intros [= <- _]; auto|].
  destruct (DEFAULT_FIELDS !! Z.to_nat idx) as [[k label]|]; [|intros [= <- _]; auto].
  destruct (Tui.prompt_input _ _ keys) as [[[v|] unread]|]; [| |discriminate].
  - destruct (negb _); intros [= <- _]; auto.
  - intros [= <- _]; auto.
Qed.

Lemma well_formed_by_frame (s s' : Tui.t) :
  Tui.well_formed s ->
  Tui.browser s' = Tui.browser s ->
  Tui.cursor_field s' = Tui.cursor_field s ->
  Tui.focus s' = Tui.focus s ->
  Tui.well_formed s'.
Proof.
  unfold Tui.well_formed. intros Hwf -> -> ->. exact Hwf.
Qed.

Lemma cover_turn_frame (s : Tui.t) (d : Disk) (p : string)
  (op : M TagIO.World (bool * option string)) (done failed : string)
  (rest : list Tui.keystroke) (s' : Tui.t) (d' : Disk) :
  Tui.session_after (Tui.cover_turn lib s d p op done failed rest) = Some (s', d') ->
  Tui.browser s' = Tui.browser s /\
  Tui.cursor_field s' = Tui.cursor_field s /\
  Tui.focus s' = Tui.focus s /\
  Tui.tags s' = Tui.tags s /\
  Tui.dirty s' = Tui.dirty s /\
  Tui.current_path s' = Tui.current_path s.
Proof.
  unfold Tui.cover_turn.
  destruct (TagIO.init lib p d) as [io|e]; [|intros [= <- _]; auto 10].
  destruct (op (TagIO.mkWorld io d)) as [[[ok err]|e] w];
    intros [= <- _]; simpl; auto 10.
Qed.

Lemma cursor_moves_in_range (i : Z) :
  (0 <= i `mod` Z.of_nat (List.length DEFAULT_FIELDS)
   < Z.of_nat (List.length DEFAULT_FIELDS))%Z.
Proof. apply Z.mod_pos_bound. simpl. lia. Qed.

Lemma turn_keeps_well_formed (s : Tui.t) (d : Disk) (k : Tui.keystroke)
  (rest : list Tui.keystroke) (s' : Tui.t) (d' : Disk) :
  Tui.well_formed s ->
  Tui.session_after (Tui.turn_of lib fs s d k rest) = Some (s', d') ->
  Tui.well_formed s'.
Proof.
  intros Hwf. pose proof Hwf as (Hcur & Hbr & Hfoc).
  unfold Tui.turn_of.
  destruct (Tui.getch k =? Tui.ord "o")%Z.
  { destruct (Tui.file_picker fs s SUPPORTED_EXTS rest) as [picked rest'|e|];
      [|intros [= <- _]; exact Hwf|discriminate].
    destruct (Tui.nonempty picked); [|intros [= <- _]; exact Hwf].
    pose proof (sync_in_range fs (Tui.browser (Tui.set_current_path picked s))
                  (default "" picked) Hbr) as Hsync.
    destruct (Tui.sync_browser fs _ _) as [[[]|e] b]; intros [= <- _].
    - split; [|split].
      + cbn [Tui.cursor_field Tui.set_focus]. rewrite load_current_cursor. exact Hcur.
      + cbn [Tui.browser Tui.set_focus]. rewrite load_current_browser. exact Hsync.
      + right. reflexivity.
    - split; [exact Hcur|]. split; [exact Hsync|exact Hfoc]. }
  destruct (Tui.one_of (Tui.getch k) [Tui.ord "q"; Tui.ord "Q"]).
  { destruct (Tui.dirty s); [|intros [= <- _]; exact Hwf].
    destruct (Tui.prompt_input _ _ _) as [[ans unread]|]; [|discriminate].
    destruct (match ans with Some text => _ | None => _ end);
      intros [= <- _]; exact Hwf. }
  destruct (Tui.one_of (Tui.getch k) [Tui.ord "h"; Tui.ord "?"]).
  { destruct rest; [discriminate|intros [= <- _]; exact Hwf]. }
  destruct (Tui.getch k =? Tui.KEY_UP)%Z.
  { destruct (String.eqb (Tui.focus s) "browser").
    - intros [= <- _]. split; [exact Hcur|]. split; [apply up_in_range|exact Hfoc].
    - destruct (String.eqb (Tui.focus s) "tags"); intros [= <- _]; [|exact Hwf].
      split; [apply cursor_moves_in_range|]. split; [exact Hbr|exact Hfoc]. }
  destruct (Tui.getch k =? Tui.KEY_DOWN)%Z.
  { destruct (String.eqb (Tui.focus s) "browser").
    - intros [= <- _]. split; [exact Hcur|]. split; [apply down_in_range|exact Hfoc].
    - destruct (String.eqb (Tui.focus s) "tags"); intros [= <- _]; [|exact Hwf].
      split; [apply cursor_moves_in_range|]. split; [exact Hbr|exact Hfoc]. }
  destruct (Tui.one_of (Tui.getch k) [Tui.KEY_BACKSPACE; 127%Z; 8%Z]).
  { destruct (String.eqb (Tui.focus s) "browser"); [|intros [= <- _]; exact Hwf].
    pose proof (parent_in_range fs (Tui.browser s) Hbr) as Hpar.
    destruct (FileBrowser.parent fs (Tui.browser s)) as [[[]|e] b]; intros [= <- _].
    - split; [|split].
      + rewrite load_current_cursor. exact Hcur.
      + rewrite load_current_browser. exact Hpar.
      + rewrite load_current_focus. exact Hfoc.
    - split; [exact Hcur|]. split; [exact Hpar|exact Hfoc]. }
  destruct (Tui.one_of (Tui.getch k) [Tui.KEY_ENTER; 10%Z; 13%Z; Tui.ord "e"]).
  { destruct (String.eqb (Tui.focus s) "browser").
    - pose proof (enter_in_range fs (Tui.browser s) Hbr) as Hent.
      destruct (FileBrowser.enter fs (Tui.browser s)) as [[path|e] b].
      + destruct (Tui.nonempty path); intros [= <- _].
        * split; [|split].
          -- cbn [Tui.cursor_field Tui.set_focus]. rewrite load_current_cursor.
             exact Hcur.
          -- cbn [Tui.browser Tui.set_focus]. rewrite load_current_browser.
             exact Hent.
          -- right. reflexivity.
        * split; [exact Hcur|]. split; [exact Hent|exact Hfoc].
      + intros [= <- _]. split; [exact Hcur|]. split; [exact Hent|exact Hfoc].
    - destruct (String.eqb (Tui.focus s) "tags"); [|intros [= <- _]; exact Hwf].
      destruct (Tui.edit_field _ _ s) as [[s1 unread]|] eqn:Hedit; [|discriminate].
      intros [= <- _].
      destruct (edit_field_frame _ _ _ _ _ Hedit) as (H1 & H2 & H3 & _).
      apply (well_formed_by_frame s s1 Hwf H1 H2 H3). }
  destruct (Tui.one_of (Tui.getch k) [9%Z; Tui.KEY_BTAB]).
  { destruct (String.eqb (Tui.focus s) "browser").
    - intros [= <- _]. split; [exact Hcur|]. split; [exact Hbr|right; reflexivity].
    - destruct (String.eqb (Tui.focus s) "tags"); intros [= <- _]; [|exact Hwf].
      split; [exact Hcur|]. split; [exact Hbr|left; reflexivity]. }
  destruct (Tui.one_of (Tui.getch k) [Tui.ord "s"; Tui.ord "S"]).
  { destruct (save_current_frame s d) as (H1 & H2 & H3 & _).
    destruct (Tui.save_current lib s d) as [s1 d1]. intros [= <- _].
    apply (well_formed_by_frame s s1 Hwf H1 H2 H3). }
  destruct (Tui.one_of (Tui.getch k) [Tui.ord "r"; Tui.ord "R"]).
  { intros [= <- _].
    apply (well_formed_by_frame s _ Hwf (load_current_browser d s)
             (load_current_cursor d s) (load_current_focus d s)). }
  destruct (Tui.getch k =? Tui.ord "C")%Z.
  { destruct (Tui.nonempty (Tui.current_path s)); [|intros [= <- _]; exact Hwf].
    intros Hturn. apply cover_turn_frame in Hturn as (H1 & H2 & H3 & _).
    apply (well_formed_by_frame s s' Hwf H1 H2 H3). }
  destruct (Tui.getch k =? Tui.ord "c")%Z.
  { destruct (Tui.file_picker fs s IMAGE_EXTS rest) as [img rest'|e|];
      [|intros [= <- _]; exact Hwf|discriminate].
    destruct (Tui.nonempty img && Tui.nonempty (Tui.current_path s));
      [|intros [= <- _]; exact Hwf].
    intros Hturn. apply cover_turn_frame in Hturn as (H1 & H2 & H3 & _).
    apply (well_formed_by_frame s s' Hwf H1 H2 H3). }
  intros [= <- _]. exact Hwf.
Qed.

End Loop.

(** X21: the session stays well formed through the event loop.  The session
    [Tui(...)] builds, and the session any turn of the loop leaves behind
    (also when the turn ends in an uncaught exception), has its field cursor
    on one of the nine catalog fields, its browser selection in range and
    its focus on the browser or the tags pane. *)
Theorem loop_keeps_session_well_formed
  (lib : Library) (fs : FileSystem) :
  (forall start s, Tui.init fs start = Ok s -> Tui.well_formed s) /\
  (forall s d k rest s' d',
     Tui.well_formed s ->
     Tui.session_after (Tui.turn_of lib fs s d k rest) = Some (s', d') ->
     (0 <= Tui.cursor_field s' < 9)%Z /\
     FileBrowser.in_range (Tui.browser s') /\
     (Tui.focus s' = "browser" \/ Tui.focus s' = "tags")).
Proof.
  split.
  - intros start s. unfold Tui.init.
    pose proof (init_in_range fs start (Some SUPPORTED_EXTS)) as Hin.
    destruct (FileBrowser.init fs start (Some SUPPORTED_EXTS)) as [[[]|e] b];
      [|discriminate].
    intros [= <-]. split; [simpl; lia|]. split; [exact Hin|left; reflexivity].
  - intros s d k rest s' d' Hwf Hturn.
    apply (turn_keeps_well_formed lib fs s d k rest s' d' Hwf Hturn).
Qed.

Lemma loop_keeps_session_well_formed_witness :
  exists s, Tui.init sample_fs "/music" = Ok s /\ Tui.well_formed s /\
    forall s' d',
      Tui.session_after (Tui.turn_of sample_library sample_fs s ∅
                           (Tui.Pressed Tui.KEY_UP) []) = Some (s', d') ->
      FileBrowser.in_range (Tui.browser s').
Proof.
  destruct (loop_keeps_session_well_formed sample_library sample_fs)
    as (Hinit & Hturn).
  eexists. split; [reflexivity|].
  split; [apply (Hinit "/music"); reflexivity|].
  intros s' d' H.
  apply (Hturn _ _ _ _ _ _ (Hinit "/music" _ eq_refl) H).
Defined.

Lemma one_of_cons (ch c : Z) (codes : list Z) :
  Tui.one_of ch (c :: codes) = (ch =? c)%Z || Tui.one_of ch codes.
Proof. reflexivity. Qed.

(** X22: the loop writes files only on the save and cover keys: a turn for
    any key other than [s], [S], [c] and [C] leaves every file as it was,
    however the turn ends. *)
Theorem loop_writes_only_on_save_and_cover
  (lib : Library) (fs : FileSystem) (s : Tui.t) (d : Disk) (k : Tui.keystroke)
  (rest : list Tui.keystroke) (s' : Tui.t) (d' : Disk) :
  Tui.one_of (Tui.getch k) [Tui.ord "s"; Tui.ord "S"; Tui.ord "c"; Tui.ord "C"]
  = false ->
  Tui.session_after (Tui.turn_of lib fs s d k rest) = Some (s', d') ->
  d' = d.
Proof.
  rewrite !one_of_cons. intros Hkey.
  apply orb_false_elim in Hkey as [Hs Hkey].
  apply orb_false_elim in Hkey as [HS Hkey].
  apply orb_false_elim in Hkey as [Hc Hkey].
  apply orb_false_elim in Hkey as [HC _].
  unfold Tui.turn_of, Tui.one_of. cbn [existsb]. rewrite Hs, HS, Hc, HC. cbn [orb].
  repeat match goal with
         | |- Tui.session_after (if ?c then _ else _) = _ -> _ => destruct c
         | |- Tui.session_after (match ?x with _ => _ end) = _ -> _ => destruct x
         | |- Tui.session_after (let '(_, _) := ?x in _) = _ -> _ => destruct x
         end;
    try discriminate; intros [= _ <-]; reflexivity.
Qed.

Lemma loop_writes_only_on_save_and_cover_witness :
  Tui.one_of (Tui.getch (Tui.Typed "r"))
    [Tui.ord "s"; Tui.ord "S"; Tui.ord "c"; Tui.ord "C"] = false /\
  match Tui.session_after
          (Tui.turn_of sample_library sample_fs sample_tui plain_disk
             (Tui.Typed "r") [])
  with
  | Some (_, d') => d' = plain_disk
  | None => False
  end.
Proof.
  split; [reflexivity|].
  destruct (Tui.session_after
              (Tui.turn_of sample_library sample_fs sample_tui plain_disk
                 (Tui.Typed "r") [])) as [[s' d']|] eqn:Hturn.
  - apply (loop_writes_only_on_save_and_cover sample_library sample_fs sample_tui
             plain_disk (Tui.Typed "r") [] s' d'); [reflexivity|exact Hturn].
  - discriminate Hturn.
Defined.

Lemma printable_is_typed (c : ascii) :
  Tui.isprintable c = true -> Tui.get_wch (Tui.Typed c) = KChar c true.
Proof.
  unfold Tui.get_wch, Tui.isprintable, Tui.one_of, Tui.ord. cbn [existsb].
  intros Hp. rewrite Hp.
  apply orb_true_iff in Hp.
  assert (Hn : (32 <= nat_of_ascii c)%nat /\ nat_of_ascii c <> 127%nat).
  { destruct Hp as [Hp|Hp]; apply andb_true_iff in Hp as [H1 H2].
    - apply Nat.leb_le in H1, H2. lia.
    - apply Nat.leb_le in H1. lia. }
  destruct Hn as [H32 H127].
  repeat match goal with
         | |- context [(?a =? ?b)%Z] =>
             destruct (Z.eqb_spec a b); [lia|]
         end.
  reflexivity.
Qed.

Lemma typed_keys (cs : list ascii) :
  Forall (fun c => Tui.isprintable c = true) cs ->
  Tui.get_wch <$> (Tui.Typed <$> cs) = (fun c => KChar c true) <$> cs.
Proof.
  induction 1 as [|c cs Hc _ IH]; [reflexivity|].
  cbn [fmap list_fmap] in *. rewrite (printable_is_typed c Hc). f_equal. exact IH.
Qed.

Lemma resume_suffix (before unread : list Tui.keystroke) :
  Tui.resume (before ++ unread)%list (Tui.get_wch <$> unread) = unread.
Proof.
  unfold Tui.resume. rewrite length_app, length_fmap.
  replace (List.length before + List.length unread - List.length unread)%nat
    with (List.length before) by lia.
  apply drop_app_length.
Qed.

(** X23: leaving the loop.  With no unsaved edits, [q] or [Q] leaves at
    once.  With unsaved edits it opens a prompt: whatever printable text is
    typed, Enter leaves the loop only when that text is exactly "yes", and
    Esc does not leave it; in every case the session and the files are
    unchanged and the keys after the prompt are left unread. *)
Theorem quitting_needs_yes_when_dirty
  (lib : Library) (fs : FileSystem) (s : Tui.t) (d : Disk) (k : Tui.keystroke)
  (cs : list ascii) (more : list Tui.keystroke) :
  Tui.one_of (Tui.getch k) [Tui.ord "q"; Tui.ord "Q"] = true ->
  Forall (fun c => Tui.isprintable c = true) cs ->
  (Tui.dirty s = false ->
   Tui.turn_of lib fs s d k more = Tui.Break s d more) /\
  (Tui.dirty s = true ->
   Tui.turn_of lib fs s d k ((Tui.Typed <$> cs) ++ Tui.Pressed Tui.KEY_ENTER :: more)%list
   = if String.eqb (string_of_list_ascii cs) "yes"
     then Tui.Break s d more else Tui.Continue s d more) /\
  (Tui.dirty s = true ->
   Tui.turn_of lib fs s d k ((Tui.Typed <$> cs) ++ Tui.Pressed 27 :: more)%list
   = Tui.Continue s d more).
Proof.
  intros Hq Hcs.
  assert (Ho : (Tui.getch k =? Tui.ord "o")%Z = false).
  { unfold Tui.one_of in Hq. cbn [existsb] in Hq.
    apply orb_true_iff in Hq as [Hq|Hq]; [|apply orb_true_iff in Hq as [Hq|Hq]];
      [| |discriminate]; apply Z.eqb_eq in Hq; rewrite Hq; reflexivity. }
  split; [|split]; intros Hdirty; unfold Tui.turn_of; rewrite Ho, Hq, Hdirty.
  - reflexivity.
  - unfold Tui.prompt_input.
    rewrite fmap_app, (typed_keys cs Hcs). cbn [fmap list_fmap List.length].
    rewrite (prompt_loop_typing [] cs). cbn [app Tui.prompt_loop].
    change (Tui.get_wch (Tui.Pressed Tui.KEY_ENTER)) with KEnter.
    cbn [Tui.prompt_loop].
    replace ((Tui.Typed <$> cs) ++ Tui.Pressed Tui.KEY_ENTER :: more)%list
      with (((Tui.Typed <$> cs) ++ [Tui.Pressed Tui.KEY_ENTER]) ++ more)%list
      by (rewrite <- app_assoc; reflexivity).
    rewrite resume_suffix. reflexivity.
  - unfold Tui.prompt_input.
    rewrite fmap_app, (typed_keys cs Hcs). cbn [fmap list_fmap List.length].
    rewrite (prompt_loop_typing [] cs). cbn [app Tui.prompt_loop].
    change (Tui.get_wch (Tui.Pressed 27)) with KEsc.
    cbn [Tui.prompt_loop].
    replace ((Tui.Typed <$> cs) ++ Tui.Pressed 27 :: more)%list
      with (((Tui.Typed <$> cs) ++ [Tui.Pressed 27]) ++ more)%list
      by (rewrite <- app_assoc; reflexivity).
    rewrite resume_suffix. reflexivity.
Qed.

Lemma quitting_needs_yes_when_dirty_witness :
  Tui.turn_of sample_library sample_fs (Tui.set_tag "artist" "New" sample_tui)
    plain_disk (Tui.Typed "q")
    [Tui.Typed "y"; Tui.Typed "e"; Tui.Typed "s"; Tui.Pressed Tui.KEY_ENTER;
     Tui.Typed "s"]
  = Tui.Break (Tui.set_tag "artist" "New" sample_tui) plain_disk [Tui.Typed "s"] /\
  Tui.turn_of sample_library sample_fs (Tui.set_tag "artist" "New" sample_tui)
    plain_disk (Tui.Typed "q")
    [Tui.Typed "n"; Tui.Typed "o"; Tui.Pressed Tui.KEY_ENTER]
  = Tui.Continue (Tui.set_tag "artist" "New" sample_tui) plain_disk [].
Proof.
  split.
  - destruct (quitting_needs_yes_when_dirty sample_library sample_fs
                (Tui.set_tag "artist" "New" sample_tui) plain_disk (Tui.Typed "q")
                ["y"; "e"; "s"]%char [Tui.Typed "s"] eq_refl) as (_ & Hyes & _).
    + repeat constructor.
    + apply (Hyes eq_refl).
  - destruct (quitting_needs_yes_when_dirty sample_library sample_fs
                (Tui.set_tag "artist" "New" sample_tui) plain_disk (Tui.Typed "q")
                ["n"; "o"]%char [] eq_refl) as (_ & Hno & _).
    + repeat constructor.
    + apply (Hno eq_refl).
Defined.

Lemma enter_key_cases (k : Tui.keystroke) :
  Tui.one_of (Tui.getch k) [Tui.KEY_ENTER; 10; 13; Tui.ord "e"]%Z = true ->
  Tui.getch k = Tui.KEY_ENTER \/ Tui.getch k = 10%Z \/ Tui.getch k = 13%Z \/
  Tui.getch k = Tui.ord "e".
Proof.
  unfold Tui.one_of. cbn [existsb]. intros H.
  repeat (apply orb_true_iff in H as [H|H]; [apply Z.eqb_eq in H; auto|]).
  discriminate.
Qed.

Lemma backspace_key_cases (k : Tui.keystroke) :
  Tui.one_of (Tui.getch k) [Tui.KEY_BACKSPACE; 127; 8]%Z = true ->
  Tui.getch k = Tui.KEY_BACKSPACE \/ Tui.getch k = 127%Z \/ Tui.getch k = 8%Z.
Proof.
  unfold Tui.one_of. cbn [existsb]. intros H.
  repeat (apply orb_true_iff in H as [H|H]; [apply Z.eqb_eq in H; auto|]).
  discriminate.
Qed.

(** X24: opening a file from the browser pane asks nothing.  When the
    selection is a file entry, Enter (or [e]) makes it the current file,
    loads it and moves the focus to the tags pane without reading any
    further key; if the library opens it as a supported file, the record
    shows the file's fields and the dirty flag is cleared, so edits of the
    previous file that were not saved are gone. *)
Theorem entering_a_file_discards_edits
  (lib : Library) (fs : FileSystem) (s : Tui.t) (d : Disk) (k : Tui.keystroke)
  (rest : list Tui.keystroke) (path : string) (b : FileBrowser.t) :
  Tui.one_of (Tui.getch k) [Tui.KEY_ENTER; 10; 13; Tui.ord "e"]%Z = true ->
  Tui.focus s = "browser" ->
  FileBrowser.enter fs (Tui.browser s) = (Ok (Some path), b) ->
  path <> "" ->
  let s' := Tui.set_focus "tags"
              (Tui.load_current lib d
                 (Tui.set_current_path (Some path) (Tui.set_browser b s))) in
  Tui.turn_of lib fs s d k rest = Tui.Continue s' d rest /\
  Tui.current_path s' = Some path /\
  (forall io, TagIO.init lib path d = Ok io -> TagIO.is_supported io = true ->
     Tui.dirty s' = false /\
     forall key values,
       key ∈ fst <$> DEFAULT_FIELDS ->
       fst (TagIO.get lib key (TagIO.mkWorld io d)) = Ok values ->
       Tui.tags s' !! key = Some (human_join values)).
Proof.
  intros Hkey Hfocus Henter Hpath. cbv zeta.
  split; [|split].
  - unfold Tui.turn_of. rewrite Hkey, Hfocus, Henter.
    assert (Hne : Tui.nonempty (Some path) = true).
    { simpl. destruct (String.eqb_spec path ""); [contradiction|reflexivity]. }
    rewrite Hne.
    destruct (enter_key_cases k Hkey) as [H|[H|[H|H]]]; rewrite H; reflexivity.
  - cbn [Tui.current_path Tui.set_focus].
    destruct (load_current_frame lib d
                (Tui.set_current_path (Some path) (Tui.set_browser b s)))
      as (_ & Hp & _).
    rewrite Hp. reflexivity.
  - intros io Hinit Hsup.
    rewrite (load_current_supported lib d
               (Tui.set_current_path (Some path) (Tui.set_browser b s))
               path io eq_refl Hinit Hsup).
    cbn [Tui.dirty Tui.tags Tui.set_focus]. split; [reflexivity|].
    intros key values Hin Hget.
    rewrite (lookup_filled (Tui.shown lib (TagIO.mkWorld io d))).
    rewrite decide_True by exact Hin.
    rewrite (get_shown lib _ key values Hget). reflexivity.
Qed.

Lemma entering_a_file_discards_edits_witness :
  exists s',
    Tui.turn_of plain_library sample_fs
      (Tui.set_focus "browser" (Tui.set_tag "artist" "New" sample_tui))
      plain_disk (Tui.Pressed Tui.KEY_ENTER) []
    = Tui.Continue s' plain_disk [] /\
    Tui.dirty s' = false /\ Tui.tags s' !! "artist" = Some "".
Proof.
  destruct (entering_a_file_discards_edits plain_library sample_fs
              (Tui.set_focus "browser" (Tui.set_tag "artist" "New" sample_tui))
              plain_disk (Tui.Pressed Tui.KEY_ENTER) [] "/music/A.FLAC"
              (FileBrowser.mk "/music" ["live/"; "A.FLAC"; "b.mp3"] 1 SUPPORTED_EXTS)
              eq_refl eq_refl eq_refl ltac:(discriminate))
    as (Hturn & _ & Hload).
  eexists. split; [exact Hturn|].
  destruct (Hload plain_handle eq_refl eq_refl) as (Hdirty & Hshow).
  split; [exact Hdirty|].
  apply (Hshow "artist" []); [|reflexivity].
  rewrite catalog_keys. apply list_elem_of_further, list_elem_of_here.
Defined.

(** X25: Backspace in the browser pane goes to the parent directory and
    drops the current file without asking: no file stays selected, all nine
    fields and the cover summary are blank, and the dirty flag is what it
    was, so blanked edits still count as unsaved.  In the tags pane
    Backspace does nothing. *)
Theorem backspace_drops_current_file
  (lib : Library) (fs : FileSystem) (s : Tui.t) (d : Disk) (k : Tui.keystroke)
  (rest : list Tui.keystroke) :
  Tui.one_of (Tui.getch k) [Tui.KEY_BACKSPACE; 127; 8]%Z = true ->
  (Tui.focus s = "browser" ->
   forall b, FileBrowser.parent fs (Tui.browser s) = (Ok tt, b) ->
     exists s',
       Tui.turn_of lib fs s d k rest = Tui.Continue s' d rest /\
       Tui.current_path s' = None /\
       Tui.tags s' = Tui.blank_tags /\
       Tui.cover_info s' = None /\
       Tui.dirty s' = Tui.dirty s /\
       Tui.browser s' = b) /\
  (Tui.focus s = "tags" -> Tui.turn_of lib fs s d k rest = Tui.Continue s d rest).
Proof.
  intros Hkey.
  split.
  - intros Hfocus b Hparent. eexists. split.
    + unfold Tui.turn_of. cbv zeta.
      destruct (backspace_key_cases k Hkey) as [H|[H|H]];
        rewrite H in *; cbn -[Tui.load_current FileBrowser.parent String.eqb];
        rewrite Hfocus, Hparent; reflexivity.
    + unfold Tui.load_current. cbn. auto.
  - intros Hfocus. unfold Tui.turn_of. cbv zeta.
    destruct (backspace_key_cases k Hkey) as [H|[H|H]];
      rewrite H in *; cbn -[String.eqb]; rewrite Hfocus; reflexivity.
Qed.

Lemma backspace_drops_current_file_witness :
  exists s',
    Tui.turn_of sample_library sample_fs
      (Tui.set_focus "browser" (Tui.set_tag "artist" "New" sample_tui))
      plain_disk (Tui.Pressed Tui.KEY_BACKSPACE) []
    = Tui.Continue s' plain_disk [] /\
    Tui.current_path s' = None /\ Tui.dirty s' = true.
Proof.
  destruct (backspace_drops_current_file sample_library sample_fs
              (Tui.set_focus "browser" (Tui.set_tag "artist" "New" sample_tui))
              plain_disk (Tui.Pressed Tui.KEY_BACKSPACE) [] eq_refl)
    as (Hbrowser & _).
  destruct (Hbrowser eq_refl (Tui.browser sample_tui) eq_refl)
    as (s' & Hturn & Hpath & _ & _ & Hdirty & _).
  exists s'. split; [exact Hturn|]. split; [exact Hpath|exact Hdirty].
Defined.

Lemma browser_down_up (b : FileBrowser.t) :
  FileBrowser.in_range b ->
  snd (FileBrowser.up (snd (FileBrowser.down b))) = b.
Proof.
  intros [Hempty Hfull].
  destruct b as [r es sel ex]. unfold FileBrowser.up, FileBrowser.down. run_monad.
  assert (Hsel : (0 <= sel < Z.max 1 (Z.of_nat (List.length es)))%Z).
  { destruct es as [|x es].
    - rewrite Hempty by reflexivity. simpl. lia.
    - specialize (Hfull ltac:(discriminate)). lia. }
  f_equal. rewrite Zminus_mod_idemp_l. replace (sel + 1 - 1)%Z with sel by lia.
  apply Z.mod_small. exact Hsel.
Qed.

(** X26: moving around changes nothing else and can be undone.  On a well
    formed session, Down followed by Up gives back the same session, in
    either pane (cyclically at the ends of the list), and so does pressing
    Tab twice; none of these turns reads further keys or touches the
    files. *)
Theorem navigation_is_undone
  (lib : Library) (fs : FileSystem) (s : Tui.t) (d : Disk)
  (down up tab : Tui.keystroke) (rest : list Tui.keystroke) :
  Tui.well_formed s ->
  Tui.getch down = Tui.KEY_DOWN ->
  Tui.getch up = Tui.KEY_UP ->
  Tui.one_of (Tui.getch tab) [9%Z; Tui.KEY_BTAB] = true ->
  (exists s1, Tui.turn_of lib fs s d down rest = Tui.Continue s1 d rest /\
              Tui.turn_of lib fs s1 d up rest = Tui.Continue s d rest) /\
  (exists s1, Tui.turn_of lib fs s d tab rest = Tui.Continue s1 d rest /\
              Tui.turn_of lib fs s1 d tab rest = Tui.Continue s d rest).
Proof.
  intros (Hcur & Hbr & Hfoc) Hdown Hup Htab.
  assert (Htab' : Tui.getch tab = 9%Z \/ Tui.getch tab = Tui.KEY_BTAB).
  { unfold Tui.one_of in Htab. cbn [existsb] in Htab.
    repeat (apply orb_true_iff in Htab as [Htab|Htab];
            [apply Z.eqb_eq in Htab; auto|]).
    discriminate. }
  destruct s as [b p tags cur status dirty focus err cover]. simpl in *.
  split.
  - destruct Hfoc as [-> | ->].
    + eexists. split.
      * unfold Tui.turn_of. rewrite Hdown. reflexivity.
      * unfold Tui.turn_of. rewrite Hup.
        cbn -[FileBrowser.up FileBrowser.down].
        rewrite (browser_down_up b Hbr). reflexivity.
    + eexists. split.
      * unfold Tui.turn_of. rewrite Hdown. reflexivity.
      * unfold Tui.turn_of. rewrite Hup. cbn -[Z.modulo].
        unfold Tui.set_cursor_field. cbn -[Z.modulo]. do 2 f_equal.
        rewrite Zminus_mod_idemp_l. replace (cur + 1 - 1)%Z with cur by lia.
        apply Z.mod_small. exact Hcur.
  - destruct Hfoc as [-> | ->]; eexists; split;
      unfold Tui.turn_of; destruct Htab' as [H|H]; rewrite H; reflexivity.
Qed.

Lemma navigation_is_undone_witness :
  exists s1,
    Tui.turn_of sample_library sample_fs sample_tui plain_disk
      (Tui.Pressed Tui.KEY_DOWN) [] = Tui.Continue s1 plain_disk [] /\
    Tui.turn_of sample_library sample_fs s1 plain_disk
      (Tui.Pressed Tui.KEY_UP) [] = Tui.Continue sample_tui plain_disk [].
Proof.
  apply (navigation_is_undone sample_library sample_fs sample_tui plain_disk
           (Tui.Pressed Tui.KEY_DOWN) (Tui.Pressed Tui.KEY_UP) (Tui.Typed "009") []).
  - split; [simpl; lia|]. split; [|right; reflexivity].
    split; simpl; [discriminate|lia].
  - reflexivity.
  - reflexivity.
  - reflexivity.
Defined.

(** * Properties of the file picker *)

Lemma rev_app_append (s t acc : string) :
  String.rev_app (s +:+ t) acc = String.rev_app t (String.rev_app s acc).
Proof.
  revert acc. induction s as [|a s IH]; intros acc; simpl; [reflexivity|].
  apply IH.
Qed.

Lemma endswith_slash (name : string) : endswith (name +:+ "/") "/" = true.
Proof.
  unfold endswith, String.rev. rewrite rev_app_append. reflexivity.
Qed.

Section Picker.
Context (fs : FileSystem).

Lemma refresh_keeps_exts (b : FileBrowser.t) :
  FileBrowser.exts (snd (FileBrowser.refresh fs b)) = FileBrowser.exts b.
Proof.
  destruct (refresh_cases fs b) as [[e Hr]|[items Hr]]; rewrite Hr; reflexivity.
Qed.

Lemma refresh_filtered (b : FileBrowser.t) :
  Tui.filtered b -> Tui.filtered (snd (FileBrowser.refresh fs b)).
Proof.
  intros Hb. unfold FileBrowser.refresh.
  destruct (listdir fs (FileBrowser.root b)) as [names| |e] eqn:Hl; simpl.
  - intros e He. simpl in He.
    apply list_elem_of_In in He.
    apply (Permutation_in _ (sort_items_perm _)) in He.
    apply list_elem_of_In, collect_spec in He as (name & _ & [[_ ->]|[_ [Hext ->]]]).
    + left. apply endswith_slash.
    + right. exact Hext.
  - intros e He. simpl in He. apply elem_of_nil in He. contradiction.
  - exact Hb.
Qed.

(** The browser after [root = r; selection = 0; refresh()]. *)
Lemma moved_browser (b : FileBrowser.t) (r : string) :
  let b' := snd (FileBrowser.refresh fs
                   (FileBrowser.mk r (FileBrowser.entries b) 0 (FileBrowser.exts b))) in
  FileBrowser.in_range b' /\
  FileBrowser.exts b' = FileBrowser.exts b /\
  (Tui.filtered b -> Tui.filtered b') /\
  (forall e,
     fst (FileBrowser.refresh fs
            (FileBrowser.mk r (FileBrowser.entries b) 0 (FileBrowser.exts b)))
     = Raise e -> listdir fs r = OSError e).
Proof.
  cbv zeta. split; [apply reset_refresh_in_range|].
  split; [rewrite refresh_keeps_exts; reflexivity|]. split.
  - intros Hb. apply refresh_filtered. exact Hb.
  - intros e He. apply refresh_raises_listdir in He. exact He.
Qed.

Lemma parent_cases (b : FileBrowser.t) :
  FileBrowser.parent fs b = (Ok tt, b) \/
  FileBrowser.parent fs b
  = FileBrowser.refresh fs
      (FileBrowser.mk (dirname fs (FileBrowser.root b)) (FileBrowser.entries b) 0
         (FileBrowser.exts b)).
Proof.
  unfold FileBrowser.parent, FileBrowser.set_root, FileBrowser.set_selection.
  run_monad. destruct (negb _ && negb _); [right|left; reflexivity].
  destruct (FileBrowser.refresh fs _) as [[[]|e] b']; reflexivity.
Qed.

Lemma enter_cases (b : FileBrowser.t) :
  FileBrowser.in_range b ->
  (exists path, FileBrowser.enter fs b = (Ok path, b)) \/
  exists r,
    snd (FileBrowser.enter fs b)
    = snd (FileBrowser.refresh fs
             (FileBrowser.mk r (FileBrowser.entries b) 0 (FileBrowser.exts b))) /\
    (forall e, fst (FileBrowser.enter fs b) = Raise e ->
               fst (FileBrowser.refresh fs
                      (FileBrowser.mk r (FileBrowser.entries b) 0 (FileBrowser.exts b)))
               = Raise e).
Proof.
  intros [_ Hfull]. unfold FileBrowser.enter. rewrite bind_get_state.
  destruct (FileBrowser.entries b) as [|x l] eqn:Hes; [left; eexists; reflexivity|].
  specialize (Hfull ltac:(discriminate)).
  destruct (py_index_in_range (x :: l) (FileBrowser.selection b) Hfull)
    as [Hidx [name Hname]].
  rewrite Hidx, Hname.
  destruct (endswith name "/"); [|left; eexists; reflexivity].
  right. eexists. rewrite <- Hes, enter_directory_result. cbn [fst snd].
  split; [reflexivity|]. intros e.
  destruct (fst (FileBrowser.refresh fs _)) as [[]|e']; congruence.
Qed.

Lemma picker_loop_picks_files (allowed : gset string) (input : list Tui.keystroke) :
  forall b,
    FileBrowser.in_range b ->
    Tui.filtered b ->
    FileBrowser.exts b = allowed ->
    (forall p rest,
       Tui.picker_loop fs b input = Tui.Resolved (Some p) rest ->
       exists dir name,
         p = path_join dir name /\ endswith name "/" = false /\
         lower (splitext_ext name) ∈ allowed) /\
    (forall e,
       Tui.picker_loop fs b input = Tui.Failed e ->
       exists dir, listdir fs dir = OSError e).
Proof.
  induction input as [|k input IH]; intros b Hin Hfil Hexts.
  - split; [intros p rest H|intros e H]; discriminate H.
  - cbn [Tui.picker_loop]. cbv zeta.
    destruct (Tui.getch k =? 27)%Z.
    { split; [intros p rest H|intros e H]; discriminate H. }
    destruct (Tui.getch k =? Tui.KEY_UP)%Z.
    { apply IH; [apply up_in_range|exact Hfil|exact Hexts]. }
    destruct (Tui.getch k =? Tui.KEY_DOWN)%Z.
    { apply IH; [apply down_in_range|exact Hfil|exact Hexts]. }
    destruct (Tui.one_of (Tui.getch k) [Tui.KEY_BACKSPACE; 127%Z; 8%Z]).
    { destruct (parent_cases b) as [Hp|Hp]; rewrite Hp.
      - apply IH; assumption.
      - destruct (moved_browser b (dirname fs (FileBrowser.root b)))
          as (H1 & H2 & H3 & H4).
        destruct (FileBrowser.refresh fs _) as [[[]|e] b'] eqn:Hr;
          cbn [fst snd] in *.
        + apply IH; [exact H1|exact (H3 Hfil)|congruence].
        + split; [intros p rest H; discriminate H|].
          intros e' [= <-]. eexists. apply H4. reflexivity. }
    destruct (Tui.one_of (Tui.getch k) [Tui.KEY_ENTER; 10%Z; 13%Z]).
    { destruct (FileBrowser.entries b) as [|x l] eqn:Hes.
      { apply IH; assumption. }
      destruct Hin as [Hempty Hfull]. rewrite Hes in Hfull.
      specialize (Hfull ltac:(discriminate)).
      destruct (py_index_in_range (x :: l) (FileBrowser.selection b) Hfull)
        as [Hidx [name Hname]].
      rewrite Hidx, Hname.
      assert (Hin : FileBrowser.in_range b).
      { split; rewrite Hes; [discriminate|intros _; exact Hfull]. }
      destruct (String.eqb name ""); [apply IH; assumption|].
      destruct (endswith name "/") eqn:Hdir.
      - destruct (enter_cases b Hin) as [[path Hp]|(r & Hsnd & Hraise)].
        + rewrite Hp. apply IH; assumption.
        + destruct (moved_browser b r) as (H1 & H2 & H3 & H4).
          destruct (FileBrowser.enter fs b) as [[path|e] b'] eqn:Hent;
            cbn [fst snd] in *; subst b'.
          * apply IH; [exact H1|exact (H3 Hfil)|congruence].
          * split; [intros p rest H; discriminate H|].
            intros e' [= <-]. eexists. apply H4. apply Hraise. reflexivity.
      - split; [|intros e H; discriminate H].
        intros p rest [= <- _]. exists (FileBrowser.root b), name.
        split; [reflexivity|]. split; [exact Hdir|].
        assert (Hmem : name ∈ FileBrowser.entries b).
        { rewrite Hes. apply list_elem_of_lookup. eauto. }
        destruct (Hfil name Hmem) as [Hd|Hext]; [congruence|].
        rewrite <- Hexts. exact Hext. }
    apply IH; assumption.
Qed.

End Picker.

(** X27: the file picker returns only files it was asked for.  When
    [file_picker] resolves to a path, the path is a directory joined with an
    entry that is not a directory entry and whose lower-cased extension is
    in the allowed set; Esc as the first key resolves to nothing.  When it
    fails, the exception is one [os.listdir] raised: on its own browser the
    entry index is never out of range. *)
Theorem file_picker_returns_allowed_files
  (fs : FileSystem) (s : Tui.t) (allowed : gset string)
  (input : list Tui.keystroke) :
  allowed <> ∅ ->
  (forall p rest,
     Tui.file_picker fs s allowed input = Tui.Resolved (Some p) rest ->
     exists dir name,
       p = path_join dir name /\ endswith name "/" = false /\
       lower (splitext_ext name) ∈ allowed) /\
  (forall e,
     Tui.file_picker fs s allowed input = Tui.Failed e ->
     exists dir, listdir fs dir = OSError e) /\
  (forall k rest,
     input = k :: rest -> Tui.getch k = 27%Z ->
     fst (FileBrowser.init fs (FileBrowser.root (Tui.browser s)) (Some allowed))
     = Ok tt ->
     Tui.file_picker fs s allowed input = Tui.Resolved None rest).
Proof.
  intros Hne. unfold Tui.file_picker, FileBrowser.init.
  rewrite bool_decide_eq_false_2 by exact Hne.
  set (b0 := FileBrowser.mk (abspath fs (FileBrowser.root (Tui.browser s))) [] 0 allowed).
  assert (Hin : FileBrowser.in_range (snd (FileBrowser.refresh fs b0)))
    by (apply refresh_in_range, in_range_zero; reflexivity).
  assert (Hfil : Tui.filtered (snd (FileBrowser.refresh fs b0))).
  { apply refresh_filtered. intros e He. apply elem_of_nil in He. contradiction. }
  assert (Hexts : FileBrowser.exts (snd (FileBrowser.refresh fs b0)) = allowed)
    by (rewrite refresh_keeps_exts; reflexivity).
  destruct (FileBrowser.refresh fs b0) as [[[]|e0] b] eqn:Hr; cbn [fst snd] in *.
  - destruct (picker_loop_picks_files fs allowed input b Hin Hfil Hexts)
      as (Hpick & Hfail).
    split; [exact Hpick|]. split; [exact Hfail|].
    intros k rest -> Hk _. cbn [Tui.picker_loop]. cbv zeta. rewrite Hk. reflexivity.
  - split; [intros p rest H; discriminate H|]. split.
    + intros e [= <-]. exists (FileBrowser.root b0).
      apply refresh_raises_listdir. rewrite Hr. reflexivity.
    + intros k rest _ _ H. discriminate H.
Qed.

Lemma file_picker_returns_allowed_files_witness :
  Tui.file_picker sample_fs sample_tui SUPPORTED_EXTS
    [Tui.Pressed Tui.KEY_DOWN; Tui.Typed "010"; Tui.Typed "x"]
  = Tui.Resolved (Some "/music/A.FLAC") [Tui.Typed "x"] /\
  exists dir name,
    "/music/A.FLAC" = path_join dir name /\ endswith name "/" = false /\
    lower (splitext_ext name) ∈ SUPPORTED_EXTS.
Proof.
  split; [reflexivity|].
  destruct (file_picker_returns_allowed_files sample_fs sample_tui SUPPORTED_EXTS
              [Tui.Pressed Tui.KEY_DOWN; Tui.Typed "010"; Tui.Typed "x"])
    as (Hpick & _).
  - intros H. apply (f_equal (fun x : gset string => bool_decide (".mp3" ∈ x))) in H.
    vm_compute in H. discriminate.
  - apply (Hpick "/music/A.FLAC" [Tui.Typed "x"]). reflexivity.
Defined.
